(** * TNetworkedSimulationModel: a shallow embedding

    Source: Engine/Plugins/Runtime/NetworkPrediction/Source/NetworkPrediction/
            Public/NetworkSimulationModel.h

    The development has two halves.  The first half embeds the orchestrator
    class: the server RPC pacing helper, the parent / dependent simulation
    links, the keyframed buffers and the tick state it drives, [Tick] and the
    replication-target dispatchers.  The second half states and proves the
    properties of those definitions. *)

From Stdlib Require Import ZArith List Bool String Lia.
From Stdlib Require Import Floats.SpecFloat.
From stdpp Require Import base option list gmap.

Local Open Scope Z_scope.

(* ===================================================================== *)
(** * Outcome of a call *)
(* ===================================================================== *)

(** [check(...)] and [checkf(...)] abort the call: [AssertFailed].  A call
    through a null or dangling pointer has no defined behaviour:
    [Undefined].  [OutOfFuel] is an artefact of writing [while(true)] as a
    structural recursion; [Tick_fuel_sufficient] shows it never arises. *)
Inductive Result (A : Type) : Type :=
| Ok (a : A)
| AssertFailed (msg : string)
| Undefined
| OutOfFuel.
Arguments Ok {A} a.
Arguments AssertFailed {A} msg.
Arguments Undefined {A}.
Arguments OutOfFuel {A}.

#[global] Instance Result_bind : MBind Result := fun A B k r =>
  match r with
  | Ok a => k a
  | AssertFailed msg => AssertFailed msg
  | Undefined => Undefined
  | OutOfFuel => OutOfFuel
  end.

#[global] Instance Result_fmap : FMap Result := fun A B f r =>
  match r with
  | Ok a => Ok (f a)
  | AssertFailed msg => AssertFailed msg
  | Undefined => Undefined
  | OutOfFuel => OutOfFuel
  end.

Definition is_Ok {A : Type} (r : Result A) : bool :=
  match r with Ok _ => true | _ => false end.

(* ===================================================================== *)
(** * IEEE-754 binary32, the C++ [float] *)
(* ===================================================================== *)

Module Float32.

Definition prec : Z := 24.
Definition emax : Z := 128.

Definition float : Type := spec_float.

Definition add : float -> float -> float := SFadd prec emax.
Definition sub : float -> float -> float := SFsub prec emax.
Definition div : float -> float -> float := SFdiv prec emax.

(** [a >= b] *)
Definition ge (a b : float) : bool := SFleb b a.
(** [a <= b] *)
Definition le (a b : float) : bool := SFleb a b.

(** The float nearest to [m * 2^e]. *)
Definition of_scaled (m e : Z) : float := binary_normalize prec emax m e false.
Definition of_Z (z : Z) : float := of_scaled z 0.

Definition zero : float := of_Z 0.
Definition one : float := of_Z 1.

End Float32.

(** Modelled from the spec: [FMath::Min<float>] belongs to the engine core,
    which is not part of this header; it yields the smaller of its two
    arguments ("capped per call at threshold"). *)
Definition FMath_Min (A B : Float32.float) : Float32.float :=
  if Float32.le A B then A else B.

(* ===================================================================== *)
(** * RPC sending helper (lines 433-453) *)
(* ===================================================================== *)

(** The two private members behind [ShouldSendServerRPC]. *)
Record RPCSendState : Type := mkRPCSendState {
  ServerRPCAccumulatedTimeSeconds : Float32.float;
  ServerRPCThresholdTimeSeconds : Float32.float
}.

(** Member initialisers: [0.f] and [1.f / 999.f]. *)
Definition RPCSendState_init : RPCSendState :=
  {| ServerRPCAccumulatedTimeSeconds := Float32.zero;
     ServerRPCThresholdTimeSeconds := Float32.div Float32.one (Float32.of_Z 999) |}.

Definition SetDesiredServerRPCSendFrequency
    (DesiredHz : Float32.float) (s : RPCSendState) : RPCSendState :=
  {| ServerRPCAccumulatedTimeSeconds := ServerRPCAccumulatedTimeSeconds s;
     ServerRPCThresholdTimeSeconds := Float32.div Float32.one DesiredHz |}.

(** [CappedDeltaTimeSeconds] is computed and then not used: the accumulator
    receives [DeltaTimeSeconds]. *)
Definition ShouldSendServerRPC
    (DeltaTimeSeconds : Float32.float) (s : RPCSendState) : bool * RPCSendState :=
  let CappedDeltaTimeSeconds :=
    FMath_Min DeltaTimeSeconds (ServerRPCThresholdTimeSeconds s) in
  let Accumulated :=
    Float32.add (ServerRPCAccumulatedTimeSeconds s) DeltaTimeSeconds in
  if Float32.ge Accumulated (ServerRPCThresholdTimeSeconds s)
  then (true,
        {| ServerRPCAccumulatedTimeSeconds :=
             Float32.sub Accumulated (ServerRPCThresholdTimeSeconds s);
           ServerRPCThresholdTimeSeconds := ServerRPCThresholdTimeSeconds s |})
  else (false,
        {| ServerRPCAccumulatedTimeSeconds := Accumulated;
           ServerRPCThresholdTimeSeconds := ServerRPCThresholdTimeSeconds s |}).

(** The pacing rule in the words of the specification, for comparison with
    [ShouldSendServerRPC]: the amount accumulated is [dt] capped at the
    threshold. *)
Definition ShouldSendServerRPC_as_specified
    (DeltaTimeSeconds : Float32.float) (s : RPCSendState) : bool * RPCSendState :=
  let CappedDeltaTimeSeconds :=
    FMath_Min DeltaTimeSeconds (ServerRPCThresholdTimeSeconds s) in
  let Accumulated :=
    Float32.add (ServerRPCAccumulatedTimeSeconds s) CappedDeltaTimeSeconds in
  if Float32.ge Accumulated (ServerRPCThresholdTimeSeconds s)
  then (true,
        {| ServerRPCAccumulatedTimeSeconds :=
             Float32.sub Accumulated (ServerRPCThresholdTimeSeconds s);
           ServerRPCThresholdTimeSeconds := ServerRPCThresholdTimeSeconds s |})
  else (false,
        {| ServerRPCAccumulatedTimeSeconds := Accumulated;
           ServerRPCThresholdTimeSeconds := ServerRPCThresholdTimeSeconds s |}).

(** Successive calls, one per element of [dts]; the returned flags are in
    call order. *)
Fixpoint ShouldSendServerRPC_calls
    (dts : list Float32.float) (s : RPCSendState) : list bool * RPCSendState :=
  match dts with
  | [] => ([], s)
  | dt :: rest =>
      let '(b, s1) := ShouldSendServerRPC dt s in
      let '(bs, s2) := ShouldSendServerRPC_calls rest s1 in
      (b :: bs, s2)
  end.

(** 4 Hz: the threshold is a quarter of a second. *)
Definition quarter_second_pacer : RPCSendState :=
  SetDesiredServerRPCSendFrequency (Float32.of_Z 4) RPCSendState_init.







(* ===================================================================== *)
(** * Parent / dependent simulation links (lines 359-412, 69-73) *)
(* ===================================================================== *)

Module DependentSims.

(** An [INetworkSimulationModel*]; [None] is [nullptr]. *)
Abbreviation SimPtr := nat.

(** The members of one instance that the linking functions touch:
    [RepProxy_Simulated.ParentSimulation],
    [RepProxy_Autonomous.DependentSimulations] and
    [RepProxy_Autonomous.bDependentSimulationNeedsReconcile]. *)
Record SimLinks : Type := mkSimLinks {
  ParentSimulation : option SimPtr;
  DependentSimulations : list (option SimPtr);
  bDependentSimulationNeedsReconcile : bool
}.

(** The live instances, by address. *)
Abbreviation Heap := (gmap SimPtr SimLinks).

Definition SimLinks_init : SimLinks :=
  {| ParentSimulation := None;
     DependentSimulations := [];
     bDependentSimulationNeedsReconcile := false |}.

Definition set_ParentSimulation (p : option SimPtr) (s : SimLinks) : SimLinks :=
  {| ParentSimulation := p;
     DependentSimulations := DependentSimulations s;
     bDependentSimulationNeedsReconcile := bDependentSimulationNeedsReconcile s |}.

Definition set_DependentSimulations (l : list (option SimPtr)) (s : SimLinks) : SimLinks :=
  {| ParentSimulation := ParentSimulation s;
     DependentSimulations := l;
     bDependentSimulationNeedsReconcile := bDependentSimulationNeedsReconcile s |}.

Definition NotifyDependentSimNeedsReconcile (s : SimLinks) : SimLinks :=
  {| ParentSimulation := ParentSimulation s;
     DependentSimulations := DependentSimulations s;
     bDependentSimulationNeedsReconcile := true |}.

(** [TArray::Remove(Item)]: every element equal to [Item] goes. *)
Definition TArray_Remove (Item : option SimPtr) (l : list (option SimPtr)) :=
  filter (fun x => x <> Item) l.

(** [TArray::Contains(Item)]. *)
Definition TArray_Contains (Item : option SimPtr) (l : list (option SimPtr)) : bool :=
  bool_decide (Item ∈ l).

Definition AddDepdentSimulation
    (this : SimPtr) (Simulation : option SimPtr) (h : Heap) : Result Heap :=
  match h !! this with
  | None => Undefined
  | Some T =>
      if TArray_Contains Simulation (DependentSimulations T)
      then AssertFailed "RepProxy_Autonomous.DependentSimulations.Contains(Simulation) == false"
      else
        Ok (<[this :=
                NotifyDependentSimNeedsReconcile
                  (set_DependentSimulations (DependentSimulations T ++ [Simulation]) T)]> h)
  end.

Definition RemoveDependentSimulation
    (this : SimPtr) (Simulation : option SimPtr) (h : Heap) : Result Heap :=
  match h !! this with
  | None => Undefined
  | Some T =>
      Ok (<[this :=
              set_DependentSimulations
                (TArray_Remove Simulation (DependentSimulations T)) T]> h)
  end.

Definition SetParentSimulation
    (this : SimPtr) (Simulation : option SimPtr) (h : Heap) : Result Heap :=
  match h !! this with
  | None => Undefined
  | Some T =>
      h1 ← match ParentSimulation T with
             | Some p => RemoveDependentSimulation p (Some this) h
             | None => Ok h
             end;
      match h1 !! this with
      | None => Undefined
      | Some T1 =>
          let h2 := <[this := set_ParentSimulation Simulation T1]> h1 in
          match Simulation with
          | Some s => AddDepdentSimulation s (Some this) h2
          | None => Ok h2
          end
      end
  end.

Definition GetParentSimulation (this : SimPtr) (h : Heap) : Result (option SimPtr) :=
  match h !! this with
  | None => Undefined
  | Some T => Ok (ParentSimulation T)
  end.

(** The [for] loop of [ClearAllDependentSimulations] over [LocalList]. *)
Fixpoint ClearAll_loop (LocalList : list (option SimPtr)) (h : Heap) : Result Heap :=
  match LocalList with
  | [] => Ok h
  | DependentSim :: rest =>
      match DependentSim with
      | None => Undefined
      | Some d =>
          h1 ← SetParentSimulation d None h;
          ClearAll_loop rest h1
      end
  end.

(** [MoveTemp] leaves the member array empty. *)
Definition ClearAllDependentSimulations (this : SimPtr) (h : Heap) : Result Heap :=
  match h !! this with
  | None => Undefined
  | Some T =>
      let LocalList := DependentSimulations T in
      ClearAll_loop LocalList (<[this := set_DependentSimulations [] T]> h)
  end.

(** The constructor leaves both links empty. *)
Definition Construct (this : SimPtr) (h : Heap) : Result Heap :=
  match h !! this with
  | Some _ => Undefined
  | None => Ok (<[this := SimLinks_init]> h)
  end.

(** The destructor body, after which the storage is released. *)
Definition Destroy (this : SimPtr) (h : Heap) : Result Heap :=
  h1 ← SetParentSimulation this None h;
  h2 ← ClearAllDependentSimulations this h1;
  Ok (delete this h2).

(** What [SetParentSimulation this Simulation] amounts to for the
    instance at [x], [old] being the parent that [this] had: [this] gets
    the new link, the old parent loses [this] from its list and the new
    parent gains it. *)
Definition relink (this : SimPtr) (old Simulation : option SimPtr)
    (x : SimPtr) (X : SimLinks) : SimLinks :=
  {| ParentSimulation :=
       if decide (x = this) then Simulation else ParentSimulation X;
     DependentSimulations :=
       (if decide (old = Some x)
        then TArray_Remove (Some this) (DependentSimulations X)
        else DependentSimulations X)
       ++ (if decide (Simulation = Some x) then [Some this] else []);
     bDependentSimulationNeedsReconcile :=
       if decide (Simulation = Some x) then true
       else bDependentSimulationNeedsReconcile X |}.

(** What the loop of [ClearAllDependentSimulations this] has done to the
    instance at [x] when the entries [R] of [LocalList] are still to
    come: the member array of [this] is empty, and every child already
    visited has lost its parent link. *)
Definition cleared (this : SimPtr) (R : list (option SimPtr))
    (x : SimPtr) (X : SimLinks) : SimLinks :=
  {| ParentSimulation :=
       if decide (ParentSimulation X = Some this /\ Some x ∉ R)
       then None else ParentSimulation X;
     DependentSimulations :=
       if decide (x = this) then [] else DependentSimulations X;
     bDependentSimulationNeedsReconcile := bDependentSimulationNeedsReconcile X |}.

Inductive GraphCall : Type :=
| CallConstruct (this : SimPtr)
| CallSetParentSimulation (this : SimPtr) (Simulation : option SimPtr)
| CallAddDepdentSimulation (this : SimPtr) (Simulation : option SimPtr)
| CallRemoveDependentSimulation (this : SimPtr) (Simulation : option SimPtr)
| CallClearAllDependentSimulations (this : SimPtr)
| CallDestroy (this : SimPtr).

Definition exec (c : GraphCall) (h : Heap) : Result Heap :=
  match c with
  | CallConstruct this => Construct this h
  | CallSetParentSimulation this s => SetParentSimulation this s h
  | CallAddDepdentSimulation this s => AddDepdentSimulation this s h
  | CallRemoveDependentSimulation this s => RemoveDependentSimulation this s h
  | CallClearAllDependentSimulations this => ClearAllDependentSimulations this h
  | CallDestroy this => Destroy this h
  end.

Fixpoint run (cs : list GraphCall) (h : Heap) : Result Heap :=
  match cs with
  | [] => Ok h
  | c :: rest => h1 ← exec c h; run rest h1
  end.

(** ** Properties of a heap *)

Definition parent_of (h : Heap) (s p : SimPtr) : Prop :=
  exists S, h !! s = Some S /\ ParentSimulation S = Some p.

(** One or more parent links lead from [a] to [b]. *)
Inductive parent_path (h : Heap) : SimPtr -> SimPtr -> Prop :=
| path_one (a b : SimPtr) : parent_of h a b -> parent_path h a b
| path_step (a b c : SimPtr) :
    parent_of h a b -> parent_path h b c -> parent_path h a c.

Definition acyclic (h : Heap) : Prop := forall a, ~ parent_path h a a.

Definition listed_in (h : Heap) (s p : SimPtr) : Prop :=
  exists P, h !! p = Some P /\ Some s ∈ DependentSimulations P.

(** The two ends of every link agree. *)
Definition links_symmetric (h : Heap) : Prop :=
  forall s p, listed_in h s p <-> parent_of h s p.

(** Dependents lists hold live, non-null, pairwise distinct pointers. *)
Definition dependents_wf (h : Heap) : Prop :=
  forall p P, h !! p = Some P ->
    NoDup (DependentSimulations P) /\
    forall x, x ∈ DependentSimulations P -> exists s, x = Some s /\ is_Some (h !! s).

Definition links_consistent (h : Heap) : Prop :=
  links_symmetric h /\ dependents_wf h.

(** The calls that keep both ends of a link in step: the two halves
    [AddDepdentSimulation] / [RemoveDependentSimulation] are left to
    [SetParentSimulation]. *)
Definition protocol_call (c : GraphCall) : bool :=
  match c with
  | CallAddDepdentSimulation _ _ | CallRemoveDependentSimulation _ _ => false
  | _ => true
  end.

(** The pointers a call dereferences are live (and the constructor runs
    on free storage). *)
Definition call_live (h : Heap) (c : GraphCall) : bool :=
  match c with
  | CallConstruct this => bool_decide (h !! this = None)
  | CallSetParentSimulation this None => bool_decide (is_Some (h !! this))
  | CallSetParentSimulation this (Some p) =>
      bool_decide (is_Some (h !! this)) && bool_decide (is_Some (h !! p))
  | CallAddDepdentSimulation this _
  | CallRemoveDependentSimulation this _
  | CallClearAllDependentSimulations this
  | CallDestroy this => bool_decide (is_Some (h !! this))
  end.

(** Every call of the sequence finds the pointers it dereferences live
    at the time it is made. *)
Fixpoint calls_live (cs : list GraphCall) (h : Heap) : bool :=
  match cs with
  | [] => true
  | c :: rest =>
      call_live h c &&
      match exec c h with
      | Ok h1 => calls_live rest h1
      | _ => true
      end
  end.

End DependentSims.

(* ===================================================================== *)
(** * Types of the headers this one includes *)
(* ===================================================================== *)

(** [ENetRole]; [Tick] and [Reconcile] switch on three of its values and
    do nothing for any other. *)
Inductive ENetRole : Type :=
| ROLE_None
| ROLE_SimulatedProxy
| ROLE_AutonomousProxy
| ROLE_Authority.

Module EReplicationProxyTarget.
Inductive t : Type := ServerRPC | AutonomousProxy | SimulatedProxy | Replay | Debug.
End EReplicationProxyTarget.

(** [FNetworkSimTime]: a fixed-point duration held in an integer.  The
    width is fixed in NetworkSimulationModelTypes.h; sums are taken in [Z]. *)
Abbreviation FNetworkSimTime := Z.

Record FNetSimTickParameters : Type := mkTickParameters {
  Role : ENetRole;
  LocalDeltaTimeSeconds : Float32.float
}.

Record FNetworkSimulationModelInitParameters : Type := mkInitParameters {
  InputBufferSize : nat;
  SyncedBufferSize : nat;
  AuxBufferSize : nat;
  DebugBufferSize : nat;
  HistoricBufferSize : nat
}.

(** The members of [TDebugState] that [Tick] assigns. *)
Record TDebugState : Type := mkDebugState {
  LocalDeltaTimeSecondsDbg : Float32.float;
  LocalGFrameNumber : Z;
  ProcessedKeyframes : list Z;
  LastSentInputKeyframe : Z;
  LastReceivedInputKeyframe : Z;
  LastProcessedKeyframe : Z;
  HeadKeyframe : Z;
  RemainingAllowedSimulationTimeSeconds : Float32.float
}.

Definition TDebugState_ctor : TDebugState :=
  {| LocalDeltaTimeSecondsDbg := Float32.zero;
     LocalGFrameNumber := 0;
     ProcessedKeyframes := [];
     LastSentInputKeyframe := 0;
     LastReceivedInputKeyframe := 0;
     LastProcessedKeyframe := 0;
     HeadKeyframe := 0;
     RemainingAllowedSimulationTimeSeconds := Float32.zero |}.

(* ===================================================================== *)
(** * Keyframed ring buffer *)
(* ===================================================================== *)

(** Modelled from the spec: [TReplicationBuffer] is declared in
    NetworkSimulationModelBuffer.h, which is not part of this header.  The
    specification (sections 3 and 4.A) gives a fixed-capacity ring indexed by
    keyframe with a head, a tail, lookup by keyframe, write-next with
    eviction of the tail, and [ResetNextHeadKeyframe].

    The storage is a list of [capacity] slots; keyframe [k] lives in slot
    [k mod capacity], so a write never moves another entry.  A [T*] into the
    buffer is a slot index.  An empty buffer has head [-1]: the first
    [GetWriteNext] of [InitializeForNetworkRole] makes the keyframe-0 input.

    [ResetNextHeadKeyframe k]: the comment in [Tick] (lines 140-148) and its
    [check(Buffers.Sync.GetHeadKeyframe() == Keyframe)] fix the meaning it has
    for this header: the next write produces keyframe [k].  Entries at
    keyframes [>= k] are dropped; when the reset moves the head forward the
    buffer is emptied, the window of valid keyframes being contiguous. *)
Record TReplicationBuffer (T : Type) : Type := mkBuffer {
  Data : list T;
  Head : Z;
  NumValidElements : nat
}.
Arguments mkBuffer {T}.
Arguments Data {T}.
Arguments Head {T}.
Arguments NumValidElements {T}.

Section Buffer.
Context {T : Type}.

Definition TReplicationBuffer_ctor : TReplicationBuffer T :=
  {| Data := []; Head := -1; NumValidElements := 0 |}.

Definition GetMaxNumElements (b : TReplicationBuffer T) : nat := length (Data b).
Definition GetHeadKeyframe (b : TReplicationBuffer T) : Z := Head b.
Definition GetTailKeyframe (b : TReplicationBuffer T) : Z :=
  Head b - Z.of_nat (NumValidElements b) + 1.

Definition SlotOfKeyframe (b : TReplicationBuffer T) (k : Z) : nat :=
  Z.to_nat (k mod Z.of_nat (GetMaxNumElements b)).

(** Only its use on the empty buffers of a new instance is relied on:
    the storage becomes [n] default elements, none of them valid. *)
Definition SetBufferSize (ctor : T) (n : nat) (b : TReplicationBuffer T) :=
  {| Data := repeat ctor n; Head := Head b; NumValidElements := 0 |}.

(** A pointer to the element, or [nullptr] outside [Tail, Head]. *)
Definition FindElementByKeyframe (k : Z) (b : TReplicationBuffer T) : option nat :=
  if (GetTailKeyframe b <=? k) && (k <=? GetHeadKeyframe b)
  then Some (SlotOfKeyframe b k)
  else None.

(** [*Ptr] as a read. *)
Definition Deref (b : TReplicationBuffer T) (Ptr : nat) : Result T :=
  match Data b !! Ptr with
  | Some v => Ok v
  | None => Undefined
  end.

(** [*Ptr = v]. *)
Definition Store (Ptr : nat) (v : T) (b : TReplicationBuffer T) : TReplicationBuffer T :=
  {| Data := <[Ptr := v]> (Data b);
     Head := Head b;
     NumValidElements := NumValidElements b |}.

(** Advances the head by one keyframe, evicting the tail when full, and
    yields a pointer to the new head element (whose content is whatever
    the slot held before). *)
Definition GetWriteNext (b : TReplicationBuffer T) : Result (TReplicationBuffer T * nat) :=
  if Nat.eqb (GetMaxNumElements b) 0
  then AssertFailed "TReplicationBuffer::GetWriteNext: capacity is zero"
  else
    let b' := {| Data := Data b;
                 Head := Head b + 1;
                 NumValidElements :=
                   Nat.min (S (NumValidElements b)) (GetMaxNumElements b) |} in
    Ok (b', SlotOfKeyframe b' (Head b')).

Definition ResetNextHeadKeyframe (k : Z) (b : TReplicationBuffer T) : TReplicationBuffer T :=
  {| Data := Data b;
     Head := k - 1;
     NumValidElements :=
       if k - 1 <=? Head b
       then NumValidElements b - Z.to_nat (Head b - (k - 1))
       else 0%nat |}.

(** The element at keyframe [k], when the buffer holds one. *)
Definition ElementAt (k : Z) (b : TReplicationBuffer T) : option T :=
  match FindElementByKeyframe k b with
  | Some Ptr => Data b !! Ptr
  | None => None
  end.

End Buffer.

Record TNetworkSimBufferContainer (I S A : Type) : Type := mkContainer {
  Input : TReplicationBuffer I;
  Sync : TReplicationBuffer S;
  Aux : TReplicationBuffer A;
  Debug : TReplicationBuffer TDebugState
}.
Arguments mkContainer {I S A}.
Arguments Input {I S A}.
Arguments Sync {I S A}.
Arguments Aux {I S A}.
Arguments Debug {I S A}.

(* ===================================================================== *)
(** * Tick state *)
(* ===================================================================== *)

(** Modelled from the spec: [TSimulationTickState] is declared in
    NetworkSimulationModelTypes.h, which is not part of this header.
    Section 4.C: it holds the last processed and the maximum allowed input
    keyframe, the total processed simulation time, a per-keyframe stamp of
    that total, and a remaining time budget that is decremented as input is
    consumed and refilled by the pre-tick.  The stamps are kept as a finite
    map from keyframe to time; what the stamp buffer forgets when it is full
    is not described and nothing below depends on it. *)
Record TSimulationTickState : Type := mkTickState {
  LastProcessedInputKeyframe : Z;
  MaxAllowedInputKeyframe : Z;
  TotalProcessedSimulationTime : FNetworkSimTime;
  RemainingAllowedSimulationTime : FNetworkSimTime;
  SimulationTimeBuffer : gmap Z FNetworkSimTime;
  SimulationTimeBufferSize : nat
}.

Definition TSimulationTickState_ctor : TSimulationTickState :=
  {| LastProcessedInputKeyframe := 0;
     MaxAllowedInputKeyframe := 0;
     TotalProcessedSimulationTime := 0;
     RemainingAllowedSimulationTime := 0;
     SimulationTimeBuffer := ∅;
     SimulationTimeBufferSize := 0 |}.

Definition GetTotalProcessedSimulationTime (t : TSimulationTickState) : FNetworkSimTime :=
  TotalProcessedSimulationTime t.

Definition GetRemainingAllowedSimulationTime (t : TSimulationTickState) : FNetworkSimTime :=
  RemainingAllowedSimulationTime t.

Definition InitSimulationTimeBuffer (n : nat) (t : TSimulationTickState) : TSimulationTickState :=
  {| LastProcessedInputKeyframe := LastProcessedInputKeyframe t;
     MaxAllowedInputKeyframe := MaxAllowedInputKeyframe t;
     TotalProcessedSimulationTime := TotalProcessedSimulationTime t;
     RemainingAllowedSimulationTime := RemainingAllowedSimulationTime t;
     SimulationTimeBuffer := SimulationTimeBuffer t;
     SimulationTimeBufferSize := n |}.

(** The rollback form: the total becomes [SimTime], stamped at [Keyframe]. *)
Definition SetTotalProcessedSimulationTime
    (SimTime : FNetworkSimTime) (Keyframe : Z) (t : TSimulationTickState) :=
  {| LastProcessedInputKeyframe := LastProcessedInputKeyframe t;
     MaxAllowedInputKeyframe := MaxAllowedInputKeyframe t;
     TotalProcessedSimulationTime := SimTime;
     RemainingAllowedSimulationTime := RemainingAllowedSimulationTime t;
     SimulationTimeBuffer := <[Keyframe := SimTime]> (SimulationTimeBuffer t);
     SimulationTimeBufferSize := SimulationTimeBufferSize t |}.

(** Advances the total and its stamp at [Keyframe]; the budget shrinks by
    what was consumed. *)
Definition IncrementTotalProcessedSimulationTime
    (DeltaSimTime : FNetworkSimTime) (Keyframe : Z) (t : TSimulationTickState) :=
  {| LastProcessedInputKeyframe := LastProcessedInputKeyframe t;
     MaxAllowedInputKeyframe := MaxAllowedInputKeyframe t;
     TotalProcessedSimulationTime := TotalProcessedSimulationTime t + DeltaSimTime;
     RemainingAllowedSimulationTime := RemainingAllowedSimulationTime t - DeltaSimTime;
     SimulationTimeBuffer :=
       <[Keyframe := TotalProcessedSimulationTime t + DeltaSimTime]> (SimulationTimeBuffer t);
     SimulationTimeBufferSize := SimulationTimeBufferSize t |}.

Definition set_LastProcessedInputKeyframe (k : Z) (t : TSimulationTickState) :=
  {| LastProcessedInputKeyframe := k;
     MaxAllowedInputKeyframe := MaxAllowedInputKeyframe t;
     TotalProcessedSimulationTime := TotalProcessedSimulationTime t;
     RemainingAllowedSimulationTime := RemainingAllowedSimulationTime t;
     SimulationTimeBuffer := SimulationTimeBuffer t;
     SimulationTimeBufferSize := SimulationTimeBufferSize t |}.

(** What a pre-tick does to the budget: a new ceiling and a new allowance. *)
Definition RefillBudget (MaxKeyframe : Z) (Allowance : FNetworkSimTime)
    (t : TSimulationTickState) :=
  {| LastProcessedInputKeyframe := LastProcessedInputKeyframe t;
     MaxAllowedInputKeyframe := MaxKeyframe;
     TotalProcessedSimulationTime := TotalProcessedSimulationTime t;
     RemainingAllowedSimulationTime := Allowance;
     SimulationTimeBuffer := SimulationTimeBuffer t;
     SimulationTimeBufferSize := SimulationTimeBufferSize t |}.

(* ===================================================================== *)
(** * Template parameters of the model *)
(* ===================================================================== *)

(** What the driver, the buffers and the tick state look like to a proxy. *)
Record SimCore (D I S A : Type) : Type := mkCore {
  Driver : D;
  Buffers : TNetworkSimBufferContainer I S A;
  TickInfo : TSimulationTickState
}.
Arguments mkCore {D I S A}.
Arguments Driver {D I S A}.
Arguments Buffers {D I S A}.
Arguments TickInfo {D I S A}.

(** The member functions of a replication proxy that this header calls.
    The proxies are declared in NetworkSimulationModelReplicators.h; they
    are parameters here, as they are template parameters there. *)
Record ReplicatorOps (P Core Bufs Params : Type) : Type := mkReplicatorOps {
  PreSimTick : P -> Core -> FNetSimTickParameters -> Result (P * Core);
  PostSimTick : P -> Core -> FNetSimTickParameters -> Result (P * Core);
  Reconcile : P -> Core -> Result (P * Core);
  NetSerialize : P -> Params -> Bufs -> TSimulationTickState ->
                 Result (P * Bufs * TSimulationTickState);
  GetProxyDirtyCount : P -> Bufs -> Z;
  GetLastSerializedKeyframe : P -> Z
}.
Arguments PreSimTick {P Core Bufs Params}.
Arguments PostSimTick {P Core Bufs Params}.
Arguments Reconcile {P Core Bufs Params}.
Arguments NetSerialize {P Core Bufs Params}.
Arguments GetProxyDirtyCount {P Core Bufs Params}.
Arguments GetLastSerializedKeyframe {P Core Bufs Params}.

Class NetSimTemplate : Type := {
  (** [TInDriver] and [TUserBufferTypes] *)
  TDriver : Type;
  TInputCmd : Type;
  TSyncState : Type;
  TAuxState : Type;
  TInputCmd_ctor : TInputCmd;
  TSyncState_ctor : TSyncState;
  TAuxState_ctor : TAuxState;
  GetFrameDeltaTime : TInputCmd -> FNetworkSimTime;
  ToRealTimeSeconds : FNetworkSimTime -> Float32.float;
  (** the [IDriver] members used by [Tick]; [InitSyncState] fills the
      element it is handed *)
  GetDebugName : TDriver -> string;
  InitSyncState : TDriver -> TSyncState -> TSyncState;
  (** [TSimulation::Update]: the driver is passed by pointer, the next sync
      state by reference, everything else is read only *)
  Update : TDriver -> Float32.float -> TInputCmd -> TSyncState -> TSyncState ->
           TAuxState -> TDriver * TSyncState;
  (** the preprocessor switch *)
  NETSIM_MODEL_DEBUG : bool;
  (** the proxies *)
  FNetSerializeParams : Type;
  TRepProxyServerRPC : Type;
  TRepProxyAutonomous : Type;
  TRepProxySimulated : Type;
  TRepProxyReplay : Type;
  TRepProxyDebug : Type;
  TRepProxyServerRPC_ctor : TRepProxyServerRPC;
  TRepProxyAutonomous_ctor : TRepProxyAutonomous;
  TRepProxySimulated_ctor : TRepProxySimulated;
  TRepProxyReplay_ctor : TRepProxyReplay;
  TRepProxyDebug_ctor : TRepProxyDebug;
  ServerRPC_ops :
    ReplicatorOps TRepProxyServerRPC (SimCore TDriver TInputCmd TSyncState TAuxState)
      (TNetworkSimBufferContainer TInputCmd TSyncState TAuxState) FNetSerializeParams;
  Autonomous_ops :
    ReplicatorOps TRepProxyAutonomous (SimCore TDriver TInputCmd TSyncState TAuxState)
      (TNetworkSimBufferContainer TInputCmd TSyncState TAuxState) FNetSerializeParams;
  Simulated_ops :
    ReplicatorOps TRepProxySimulated (SimCore TDriver TInputCmd TSyncState TAuxState)
      (TNetworkSimBufferContainer TInputCmd TSyncState TAuxState) FNetSerializeParams;
  Replay_ops :
    ReplicatorOps TRepProxyReplay (SimCore TDriver TInputCmd TSyncState TAuxState)
      (TNetworkSimBufferContainer TInputCmd TSyncState TAuxState) FNetSerializeParams;
  Debug_ops :
    ReplicatorOps TRepProxyDebug (SimCore TDriver TInputCmd TSyncState TAuxState)
      (TNetworkSimBufferContainer TInputCmd TSyncState TAuxState) FNetSerializeParams;
  (** [RepProxy_Debug.ReceivedBuffer] *)
  ReceivedBuffer : TRepProxyDebug -> TReplicationBuffer TDebugState;
  (** [TReplicationBuffer::CopyAndMerge], used for the historic buffers *)
  CopyAndMerge : forall T : Type, TReplicationBuffer T -> TReplicationBuffer T ->
                                  TReplicationBuffer T
}.

(* ===================================================================== *)
(** * TNetworkedSimulationModel *)
(* ===================================================================== *)

Section Model.
Context `{NetSimTemplate}.

Abbreviation TBuffers := (TNetworkSimBufferContainer TInputCmd TSyncState TAuxState).
Abbreviation TCore := (SimCore TDriver TInputCmd TSyncState TAuxState).

(** The arguments of one [TSimulation::Update] call. *)
Record UpdateCall : Type := mkUpdateCall {
  uc_Keyframe : Z;
  uc_DeltaSeconds : Float32.float;
  uc_InputCmd : TInputCmd;
  uc_PrevSyncState : TSyncState;
  uc_NextSyncState : TSyncState;
  uc_AuxState : TAuxState
}.

(** What a call lets the outside see besides the members: the warning it
    logs and the driver and simulation functions it invokes. *)
Inductive Event : Type :=
| LogWarning_SyncContinuity (DebugName : string) (LastProcessed SyncHead : Z)
| CallInitSyncState (Keyframe : Z)
| CallUpdate (c : UpdateCall).

(** The data members (lines 416-424, 452-453, 480-481), and the record of
    events so far. *)
Record TNetworkedSimulationModel : Type := mkModel {
  Core : TCore;
  RepProxy_ServerRPC : TRepProxyServerRPC;
  RepProxy_Autonomous : TRepProxyAutonomous;
  RepProxy_Simulated : TRepProxySimulated;
  RepProxy_Replay : TRepProxyReplay;
  RepProxy_Debug : TRepProxyDebug;
  RPCSend : RPCSendState;
  HistoricBuffers : option TBuffers;
  Trace : list Event
}.

Definition TNetworkedSimulationModel_ctor (InDriver : TDriver) : TNetworkedSimulationModel :=
  {| Core := {| Driver := InDriver;
                Buffers := {| Input := TReplicationBuffer_ctor;
                              Sync := TReplicationBuffer_ctor;
                              Aux := TReplicationBuffer_ctor;
                              Debug := TReplicationBuffer_ctor |};
                TickInfo := TSimulationTickState_ctor |};
     RepProxy_ServerRPC := TRepProxyServerRPC_ctor;
     RepProxy_Autonomous := TRepProxyAutonomous_ctor;
     RepProxy_Simulated := TRepProxySimulated_ctor;
     RepProxy_Replay := TRepProxyReplay_ctor;
     RepProxy_Debug := TRepProxyDebug_ctor;
     RPCSend := RPCSendState_init;
     HistoricBuffers := None;
     Trace := [] |}.

(** ** Member access *)

Definition set_Core (c : TCore) (m : TNetworkedSimulationModel) :=
  mkModel c (RepProxy_ServerRPC m) (RepProxy_Autonomous m) (RepProxy_Simulated m)
          (RepProxy_Replay m) (RepProxy_Debug m) (RPCSend m) (HistoricBuffers m) (Trace m).

Definition set_Driver (d : TDriver) (m : TNetworkedSimulationModel) :=
  set_Core (mkCore d (Buffers (Core m)) (TickInfo (Core m))) m.

Definition set_Buffers (b : TBuffers) (m : TNetworkedSimulationModel) :=
  set_Core (mkCore (Driver (Core m)) b (TickInfo (Core m))) m.

Definition set_TickInfo (t : TSimulationTickState) (m : TNetworkedSimulationModel) :=
  set_Core (mkCore (Driver (Core m)) (Buffers (Core m)) t) m.

Definition set_Input (b : TReplicationBuffer TInputCmd) (m : TNetworkedSimulationModel) :=
  let B := Buffers (Core m) in set_Buffers (mkContainer b (Sync B) (Aux B) (Debug B)) m.

Definition set_Sync (b : TReplicationBuffer TSyncState) (m : TNetworkedSimulationModel) :=
  let B := Buffers (Core m) in set_Buffers (mkContainer (Input B) b (Aux B) (Debug B)) m.

Definition set_Aux (b : TReplicationBuffer TAuxState) (m : TNetworkedSimulationModel) :=
  let B := Buffers (Core m) in set_Buffers (mkContainer (Input B) (Sync B) b (Debug B)) m.

Definition set_Debug (b : TReplicationBuffer TDebugState) (m : TNetworkedSimulationModel) :=
  let B := Buffers (Core m) in set_Buffers (mkContainer (Input B) (Sync B) (Aux B) b) m.

Definition set_HistoricBuffers (hb : option TBuffers) (m : TNetworkedSimulationModel) :=
  mkModel (Core m) (RepProxy_ServerRPC m) (RepProxy_Autonomous m) (RepProxy_Simulated m)
          (RepProxy_Replay m) (RepProxy_Debug m) (RPCSend m) hb (Trace m).

Definition set_RPCSend (r : RPCSendState) (m : TNetworkedSimulationModel) :=
  mkModel (Core m) (RepProxy_ServerRPC m) (RepProxy_Autonomous m) (RepProxy_Simulated m)
          (RepProxy_Replay m) (RepProxy_Debug m) r (HistoricBuffers m) (Trace m).

Definition emit (e : Event) (m : TNetworkedSimulationModel) :=
  mkModel (Core m) (RepProxy_ServerRPC m) (RepProxy_Autonomous m) (RepProxy_Simulated m)
          (RepProxy_Replay m) (RepProxy_Debug m) (RPCSend m) (HistoricBuffers m)
          (Trace m ++ [e]).

Definition InputBuffer (m : TNetworkedSimulationModel) := Input (Buffers (Core m)).
Definition SyncBuffer (m : TNetworkedSimulationModel) := Sync (Buffers (Core m)).
Definition AuxBuffer (m : TNetworkedSimulationModel) := Aux (Buffers (Core m)).
Definition DebugBuffer (m : TNetworkedSimulationModel) := Debug (Buffers (Core m)).
Definition Tick_Info (m : TNetworkedSimulationModel) := TickInfo (Core m).

(** ** Debugging accessors (lines 460-475) *)

Definition GetLocalDebugBuffer (m : TNetworkedSimulationModel)
  : option (TReplicationBuffer TDebugState) :=
  if NETSIM_MODEL_DEBUG then Some (DebugBuffer m) else None.

Definition GetNextLocalDebugStateWrite (m : TNetworkedSimulationModel)
  : Result (TNetworkedSimulationModel * option nat) :=
  if NETSIM_MODEL_DEBUG
  then '(d, Ptr) ← GetWriteNext (DebugBuffer m); Ok (set_Debug d m, Some Ptr)
  else Ok (m, None).

Definition GetHistoricBuffers (bCreate : bool) (m : TNetworkedSimulationModel)
  : TNetworkedSimulationModel * option TBuffers :=
  if NETSIM_MODEL_DEBUG
  then
    match HistoricBuffers m with
    | Some hb => (m, Some hb)
    | None =>
        if bCreate
        then
          let hb := {| Input := TReplicationBuffer_ctor; Sync := TReplicationBuffer_ctor;
                       Aux := TReplicationBuffer_ctor; Debug := TReplicationBuffer_ctor |} in
          (set_HistoricBuffers (Some hb) m, Some hb)
        else (m, None)
    end
  else (m, None).

Definition GetRemoteDebugBuffer (m : TNetworkedSimulationModel)
  : option (TReplicationBuffer TDebugState) :=
  if NETSIM_MODEL_DEBUG then Some (ReceivedBuffer (RepProxy_Debug m)) else None.

(** An assignment through a [TDebugState*]. *)
Definition DebugAssign (Ptr : option nat) (f : TDebugState -> TDebugState)
    (m : TNetworkedSimulationModel) : TNetworkedSimulationModel :=
  match Ptr with
  | Some p =>
      let d := DebugBuffer m in
      set_Debug {| Data := alter f p (Data d); Head := Head d;
                   NumValidElements := NumValidElements d |} m
  | None => m
  end.

Definition set_LastSentInputKeyframe (k : Z) (d : TDebugState) : TDebugState :=
  mkDebugState (LocalDeltaTimeSecondsDbg d) (LocalGFrameNumber d) (ProcessedKeyframes d)
               k (LastReceivedInputKeyframe d) (LastProcessedKeyframe d) (HeadKeyframe d)
               (RemainingAllowedSimulationTimeSeconds d).

Definition set_LastReceivedInputKeyframe (k : Z) (d : TDebugState) : TDebugState :=
  mkDebugState (LocalDeltaTimeSecondsDbg d) (LocalGFrameNumber d) (ProcessedKeyframes d)
               (LastSentInputKeyframe d) k (LastProcessedKeyframe d) (HeadKeyframe d)
               (RemainingAllowedSimulationTimeSeconds d).

Definition add_ProcessedKeyframe (k : Z) (d : TDebugState) : TDebugState :=
  mkDebugState (LocalDeltaTimeSecondsDbg d) (LocalGFrameNumber d) (ProcessedKeyframes d ++ [k])
               (LastSentInputKeyframe d) (LastReceivedInputKeyframe d)
               (LastProcessedKeyframe d) (HeadKeyframe d)
               (RemainingAllowedSimulationTimeSeconds d).

(** ** Tick, lines 77-111: debug state of the previous and the current frame *)

Definition Tick_PrevDebugState (Parameters : FNetSimTickParameters)
    (m : TNetworkedSimulationModel) : TNetworkedSimulationModel :=
  match GetLocalDebugBuffer m with
  | Some DebugBuf =>
      match FindElementByKeyframe (GetHeadKeyframe DebugBuf) DebugBuf with
      | Some PrevDebugState =>
          match Role Parameters with
          | ROLE_AutonomousProxy =>
              DebugAssign (Some PrevDebugState)
                (set_LastSentInputKeyframe
                   (GetLastSerializedKeyframe ServerRPC_ops (RepProxy_ServerRPC m))) m
          | ROLE_Authority =>
              DebugAssign (Some PrevDebugState)
                (set_LastSentInputKeyframe
                   (GetLastSerializedKeyframe Autonomous_ops (RepProxy_Autonomous m))) m
          | _ => m
          end
      | None => m
      end
  | None => m
  end.

Definition Tick_NewDebugState (GFrameNumber : Z) (Parameters : FNetSimTickParameters)
    (m : TNetworkedSimulationModel) : Result (TNetworkedSimulationModel * option nat) :=
  '(m1, DebugState) ← GetNextLocalDebugStateWrite m;
  match DebugState with
  | Some _ =>
      let fresh :=
        mkDebugState (LocalDeltaTimeSeconds Parameters) GFrameNumber []
                     (LastSentInputKeyframe TDebugState_ctor)
                     (LastReceivedInputKeyframe TDebugState_ctor)
                     (LastProcessedKeyframe TDebugState_ctor)
                     (HeadKeyframe TDebugState_ctor)
                     (RemainingAllowedSimulationTimeSeconds TDebugState_ctor) in
      let m2 := DebugAssign DebugState (fun _ => fresh) m1 in
      let m3 :=
        match Role Parameters with
        | ROLE_AutonomousProxy =>
            DebugAssign DebugState
              (set_LastReceivedInputKeyframe
                 (GetLastSerializedKeyframe Autonomous_ops (RepProxy_Autonomous m2))) m2
        | ROLE_Authority =>
            DebugAssign DebugState
              (set_LastReceivedInputKeyframe
                 (GetLastSerializedKeyframe ServerRPC_ops (RepProxy_ServerRPC m2))) m2
        | _ => m2
        end in
      Ok (m3, DebugState)
  | None => Ok (m1, None)
  end.

(** ** Tick, lines 118-131 and 221-234: dispatch on the role *)

Definition set_RepProxy_ServerRPC (p : TRepProxyServerRPC) (m : TNetworkedSimulationModel) :=
  mkModel (Core m) p (RepProxy_Autonomous m) (RepProxy_Simulated m)
          (RepProxy_Replay m) (RepProxy_Debug m) (RPCSend m) (HistoricBuffers m) (Trace m).
Definition set_RepProxy_Autonomous (p : TRepProxyAutonomous) (m : TNetworkedSimulationModel) :=
  mkModel (Core m) (RepProxy_ServerRPC m) p (RepProxy_Simulated m)
          (RepProxy_Replay m) (RepProxy_Debug m) (RPCSend m) (HistoricBuffers m) (Trace m).
Definition set_RepProxy_Simulated (p : TRepProxySimulated) (m : TNetworkedSimulationModel) :=
  mkModel (Core m) (RepProxy_ServerRPC m) (RepProxy_Autonomous m) p
          (RepProxy_Replay m) (RepProxy_Debug m) (RPCSend m) (HistoricBuffers m) (Trace m).
Definition set_RepProxy_Replay (p : TRepProxyReplay) (m : TNetworkedSimulationModel) :=
  mkModel (Core m) (RepProxy_ServerRPC m) (RepProxy_Autonomous m) (RepProxy_Simulated m)
          p (RepProxy_Debug m) (RPCSend m) (HistoricBuffers m) (Trace m).
Definition set_RepProxy_Debug (p : TRepProxyDebug) (m : TNetworkedSimulationModel) :=
  mkModel (Core m) (RepProxy_ServerRPC m) (RepProxy_Autonomous m) (RepProxy_Simulated m)
          (RepProxy_Replay m) p (RPCSend m) (HistoricBuffers m) (Trace m).

Definition Tick_PreSimTick (Parameters : FNetSimTickParameters)
    (m : TNetworkedSimulationModel) : Result TNetworkedSimulationModel :=
  match Role Parameters with
  | ROLE_Authority =>
      '(p, c) ← PreSimTick ServerRPC_ops (RepProxy_ServerRPC m) (Core m) Parameters;
      Ok (set_Core c (set_RepProxy_ServerRPC p m))
  | ROLE_AutonomousProxy =>
      '(p, c) ← PreSimTick Autonomous_ops (RepProxy_Autonomous m) (Core m) Parameters;
      Ok (set_Core c (set_RepProxy_Autonomous p m))
  | ROLE_SimulatedProxy =>
      '(p, c) ← PreSimTick Simulated_ops (RepProxy_Simulated m) (Core m) Parameters;
      Ok (set_Core c (set_RepProxy_Simulated p m))
  | ROLE_None => Ok m
  end.

Definition Tick_PostSimTick (Parameters : FNetSimTickParameters)
    (m : TNetworkedSimulationModel) : Result TNetworkedSimulationModel :=
  match Role Parameters with
  | ROLE_Authority =>
      '(p, c) ← PostSimTick ServerRPC_ops (RepProxy_ServerRPC m) (Core m) Parameters;
      Ok (set_Core c (set_RepProxy_ServerRPC p m))
  | ROLE_AutonomousProxy =>
      '(p, c) ← PostSimTick Autonomous_ops (RepProxy_Autonomous m) (Core m) Parameters;
      Ok (set_Core c (set_RepProxy_Autonomous p m))
  | ROLE_SimulatedProxy =>
      '(p, c) ← PostSimTick Simulated_ops (RepProxy_Simulated m) (Core m) Parameters;
      Ok (set_Core c (set_RepProxy_Simulated p m))
  | ROLE_None => Ok m
  end.

(** ** Tick, lines 151-166: the sync buffer is brought in line *)

Definition Tick_ResetSyncState (m : TNetworkedSimulationModel)
  : Result TNetworkedSimulationModel :=
  let LastProcessed := LastProcessedInputKeyframe (Tick_Info m) in
  if negb (GetHeadKeyframe (SyncBuffer m) =? LastProcessed)
  then
    let m1 :=
      if negb (LastProcessed =? 0)
      then emit (LogWarning_SyncContinuity (GetDebugName (Driver (Core m)))
                   LastProcessed (GetHeadKeyframe (SyncBuffer m))) m
      else m in
    let Sync1 := ResetNextHeadKeyframe LastProcessed (SyncBuffer m1) in
    '(Sync2, StartingState) ← GetWriteNext Sync1;
    Element ← Deref Sync2 StartingState;
    let Sync3 := Store StartingState (InitSyncState (Driver (Core m1)) Element) Sync2 in
    let m2 := emit (CallInitSyncState (GetHeadKeyframe Sync3)) (set_Sync Sync3 m1) in
    Ok (set_TickInfo
          (SetTotalProcessedSimulationTime
             (GetTotalProcessedSimulationTime (Tick_Info m2))
             (GetHeadKeyframe (SyncBuffer m2)) (Tick_Info m2)) m2)
  else Ok m.

(** ** Tick, lines 184-203: "the core process input command and call
    ::Update block" *)
Definition Tick_UpdateBlock (DebugState : option nat) (Keyframe : Z) (NextCmd : TInputCmd)
    (m : TNetworkedSimulationModel) : Result TNetworkedSimulationModel :=
  let PrevSyncState :=
    FindElementByKeyframe (LastProcessedInputKeyframe (Tick_Info m)) (SyncBuffer m) in
  '(Sync1, NextSyncState) ← GetWriteNext (SyncBuffer m);
  match PrevSyncState with
  | None => AssertFailed "PrevSyncState != nullptr"
  | Some PrevPtr =>
      if negb (GetHeadKeyframe Sync1 =? Keyframe)
      then AssertFailed "Buffers.Sync.GetHeadKeyframe() == Keyframe"
      else
        let m1 := DebugAssign DebugState (add_ProcessedKeyframe Keyframe)
                              (set_Sync Sync1 m) in
        let AuxState := TAuxState_ctor in
        Prev ← Deref Sync1 PrevPtr;
        Next ← Deref Sync1 NextSyncState;
        let DeltaSeconds := ToRealTimeSeconds (GetFrameDeltaTime NextCmd) in
        let '(Driver1, Next1) :=
          Update (Driver (Core m1)) DeltaSeconds NextCmd Prev Next AuxState in
        let m2 :=
          emit (CallUpdate (mkUpdateCall Keyframe DeltaSeconds NextCmd Prev Next AuxState))
               (set_Driver Driver1 (set_Sync (Store NextSyncState Next1 Sync1) m1)) in
        Ok (set_TickInfo
              (set_LastProcessedInputKeyframe Keyframe
                 (IncrementTotalProcessedSimulationTime
                    (GetFrameDeltaTime NextCmd) Keyframe (Tick_Info m2))) m2)
  end.

(** ** Tick, lines 171-214: the input loop

    One unit of [fuel] is spent per processed command; the breaks need
    none.  The [int32] sum [LastProcessedInputKeyframe+1] is taken in [Z]:
    the source has no defined behaviour where it would overflow. *)
Fixpoint Tick_InputLoop (fuel : nat) (DebugState : option nat)
    (m : TNetworkedSimulationModel) : Result TNetworkedSimulationModel :=
  let Keyframe := LastProcessedInputKeyframe (Tick_Info m) + 1 in
  if MaxAllowedInputKeyframe (Tick_Info m) <? Keyframe
  then Ok m
  else
    match FindElementByKeyframe Keyframe (InputBuffer m) with
    | Some NextCmdPtr =>
        NextCmd ← Deref (InputBuffer m) NextCmdPtr;
        if GetFrameDeltaTime NextCmd <=? GetRemainingAllowedSimulationTime (Tick_Info m)
        then
          match fuel with
          | O => OutOfFuel
          | S fuel' =>
              m1 ← Tick_UpdateBlock DebugState Keyframe NextCmd m;
              Tick_InputLoop fuel' DebugState m1
          end
        else Ok m
    | None => Ok m
    end.

(** The number of loop iterations left before [Keyframe] passes
    [MaxAllowedInputKeyframe]. *)
Definition Tick_fuel (m : TNetworkedSimulationModel) : nat :=
  Z.to_nat (MaxAllowedInputKeyframe (Tick_Info m) - LastProcessedInputKeyframe (Tick_Info m)).

(** ** Tick, lines 136-215: input processing and simulation update *)

Definition Tick_ProcessInput (DebugState : option nat) (m : TNetworkedSimulationModel)
  : Result TNetworkedSimulationModel :=
  if GetHeadKeyframe (SyncBuffer m) <? GetHeadKeyframe (InputBuffer m)
  then
    m1 ← Tick_ResetSyncState m;
    Tick_InputLoop (Tick_fuel m1) DebugState m1
  else Ok m.

(** ** Tick, lines 240-254: debug and historic recording *)

Definition Tick_FinishDebugState (DebugState : option nat) (m : TNetworkedSimulationModel)
  : TNetworkedSimulationModel :=
  DebugAssign DebugState
    (fun d =>
       mkDebugState (LocalDeltaTimeSecondsDbg d) (LocalGFrameNumber d) (ProcessedKeyframes d)
                    (LastSentInputKeyframe d) (LastReceivedInputKeyframe d)
                    (LastProcessedInputKeyframe (Tick_Info m))
                    (GetHeadKeyframe (InputBuffer m))
                    (ToRealTimeSeconds (GetRemainingAllowedSimulationTime (Tick_Info m)))) m.

Definition Tick_HistoricData (m : TNetworkedSimulationModel) : TNetworkedSimulationModel :=
  match GetHistoricBuffers false m with
  | (m1, Some HistoricData) =>
      set_HistoricBuffers
        (Some {| Input := CopyAndMerge _ (Input HistoricData) (InputBuffer m1);
                 Sync := CopyAndMerge _ (Sync HistoricData) (SyncBuffer m1);
                 Aux := CopyAndMerge _ (Aux HistoricData) (AuxBuffer m1);
                 Debug := Debug HistoricData |}) m1
  | (m1, None) => m1
  end.

(** ** Tick (lines 75-255)

    [GFrameNumber] is the engine's global frame counter. *)
Definition Tick (GFrameNumber : Z) (Parameters : FNetSimTickParameters)
    (m : TNetworkedSimulationModel) : Result TNetworkedSimulationModel :=
  let m0 := Tick_PrevDebugState Parameters m in
  '(m1, DebugState) ← Tick_NewDebugState GFrameNumber Parameters m0;
  m2 ← Tick_PreSimTick Parameters m1;
  m3 ← Tick_ProcessInput DebugState m2;
  m4 ← Tick_PostSimTick Parameters m3;
  Ok (Tick_HistoricData (Tick_FinishDebugState DebugState m4)).

(** ** InitializeForNetworkRole (lines 280-302) *)

Definition InitializeForNetworkRole (R : ENetRole)
    (Parameters : FNetworkSimulationModelInitParameters)
    (m : TNetworkedSimulationModel) : Result TNetworkedSimulationModel :=
  let m1 := set_Input (SetBufferSize TInputCmd_ctor (InputBufferSize Parameters) (InputBuffer m)) m in
  let m2 := set_Sync (SetBufferSize TSyncState_ctor (SyncedBufferSize Parameters) (SyncBuffer m1)) m1 in
  let m3 := set_Aux (SetBufferSize TAuxState_ctor (AuxBufferSize Parameters) (AuxBuffer m2)) m2 in
  let m4 :=
    match GetLocalDebugBuffer m3 with
    | Some d => set_Debug (SetBufferSize TDebugState_ctor (DebugBufferSize Parameters) d) m3
    | None => m3
    end in
  let m5 :=
    match GetHistoricBuffers true m4 with
    | (m', Some hb) =>
        let n := HistoricBufferSize Parameters in
        set_HistoricBuffers
          (Some {| Input := SetBufferSize TInputCmd_ctor n (Input hb);
                   Sync := SetBufferSize TSyncState_ctor n (Sync hb);
                   Aux := SetBufferSize TAuxState_ctor n (Aux hb);
                   Debug := Debug hb |}) m'
    | (m', None) => m'
    end in
  let m6 := set_TickInfo (InitSimulationTimeBuffer (SyncedBufferSize Parameters) (Tick_Info m5)) m5 in
  '(Input1, Ptr) ← GetWriteNext (InputBuffer m6);
  Ok (set_Input (Store Ptr TInputCmd_ctor Input1) m6).

(** ** NetSerializeProxy and GetProxyDirtyCount (lines 304-350)

    With [NETSIM_MODEL_DEBUG] off, [case Debug:] has no body of its own
    and control runs into [default:]. *)

Definition Unknown_target : string := "Unknown: %d".

Definition NetSerializeProxy (Target : EReplicationProxyTarget.t)
    (Params : FNetSerializeParams) (m : TNetworkedSimulationModel)
  : Result TNetworkedSimulationModel :=
  match Target with
  | EReplicationProxyTarget.ServerRPC =>
      '(p, b, t) ← NetSerialize ServerRPC_ops (RepProxy_ServerRPC m) Params
                      (Buffers (Core m)) (Tick_Info m);
      Ok (set_TickInfo t (set_Buffers b (set_RepProxy_ServerRPC p m)))
  | EReplicationProxyTarget.AutonomousProxy =>
      '(p, b, t) ← NetSerialize Autonomous_ops (RepProxy_Autonomous m) Params
                      (Buffers (Core m)) (Tick_Info m);
      Ok (set_TickInfo t (set_Buffers b (set_RepProxy_Autonomous p m)))
  | EReplicationProxyTarget.SimulatedProxy =>
      '(p, b, t) ← NetSerialize Simulated_ops (RepProxy_Simulated m) Params
                      (Buffers (Core m)) (Tick_Info m);
      Ok (set_TickInfo t (set_Buffers b (set_RepProxy_Simulated p m)))
  | EReplicationProxyTarget.Replay =>
      '(p, b, t) ← NetSerialize Replay_ops (RepProxy_Replay m) Params
                      (Buffers (Core m)) (Tick_Info m);
      Ok (set_TickInfo t (set_Buffers b (set_RepProxy_Replay p m)))
  | EReplicationProxyTarget.Debug =>
      if NETSIM_MODEL_DEBUG
      then
        '(p, b, t) ← NetSerialize Debug_ops (RepProxy_Debug m) Params
                        (Buffers (Core m)) (Tick_Info m);
        Ok (set_TickInfo t (set_Buffers b (set_RepProxy_Debug p m)))
      else AssertFailed Unknown_target
  end.

Definition GetProxyDirtyCountOf (Target : EReplicationProxyTarget.t)
    (m : TNetworkedSimulationModel) : Result Z :=
  match Target with
  | EReplicationProxyTarget.ServerRPC =>
      Ok (GetProxyDirtyCount ServerRPC_ops (RepProxy_ServerRPC m) (Buffers (Core m)))
  | EReplicationProxyTarget.AutonomousProxy =>
      Ok (GetProxyDirtyCount Autonomous_ops (RepProxy_Autonomous m) (Buffers (Core m)))
  | EReplicationProxyTarget.SimulatedProxy =>
      Ok (GetProxyDirtyCount Simulated_ops (RepProxy_Simulated m) (Buffers (Core m)))
  | EReplicationProxyTarget.Replay =>
      Ok (GetProxyDirtyCount Replay_ops (RepProxy_Replay m) (Buffers (Core m)))
  | EReplicationProxyTarget.Debug =>
      if NETSIM_MODEL_DEBUG
      then Ok (GetProxyDirtyCount Debug_ops (RepProxy_Debug m) (Buffers (Core m)))
      else AssertFailed Unknown_target
  end.

(** ** The RPC sending helper as members of the model *)

Definition Model_SetDesiredServerRPCSendFrequency (DesiredHz : Float32.float)
    (m : TNetworkedSimulationModel) : TNetworkedSimulationModel :=
  set_RPCSend (SetDesiredServerRPCSendFrequency DesiredHz (RPCSend m)) m.

Definition Model_ShouldSendServerRPC (DeltaTimeSeconds : Float32.float)
    (m : TNetworkedSimulationModel) : bool * TNetworkedSimulationModel :=
  let '(b, r) := ShouldSendServerRPC DeltaTimeSeconds (RPCSend m) in
  (b, set_RPCSend r m).

(** ** Reading the run *)

(** The keyframes of the [Update] calls among the events. *)
Definition UpdateKeyframes (tr : list Event) : list Z :=
  omap (fun e => match e with CallUpdate c => Some (uc_Keyframe c) | _ => None end) tr.

Definition UpdateCalls (tr : list Event) : list UpdateCall :=
  omap (fun e => match e with CallUpdate c => Some c | _ => None end) tr.

(** The warnings among the events: last processed keyframe and sync head. *)
Definition Warnings (tr : list Event) : list (Z * Z) :=
  omap (fun e => match e with
                 | LogWarning_SyncContinuity _ l h => Some (l, h)
                 | _ => None
                 end) tr.



(** ** What the simulation proper consists of

    The driver, the Input and Sync buffers, the tick state and the three
    role proxies; the Aux and Debug buffers, the RPC pacing, the historic
    buffers and the record of events are left out. *)
Definition SimulationView (m : TNetworkedSimulationModel) :=
  (Driver (Core m), InputBuffer m, SyncBuffer m, Tick_Info m,
   (RepProxy_ServerRPC m, RepProxy_Autonomous m, RepProxy_Simulated m)).

Definition CoreView (c : TCore) :=
  (Driver c, Input (Buffers c), Sync (Buffers c), TickInfo c).

(** A proxy step whose effect on the simulation proper does not depend on
    anything outside it. *)
Definition KeepsToSimulation {P : Type}
    (step : P -> TCore -> FNetSimTickParameters -> Result (P * TCore)) : Prop :=
  forall p c1 c2 Parameters p1 c1' p2 c2',
    CoreView c1 = CoreView c2 ->
    step p c1 Parameters = Ok (p1, c1') ->
    step p c2 Parameters = Ok (p2, c2') ->
    p1 = p2 /\ CoreView c1' = CoreView c2'.

Definition ProxiesKeepToSimulation : Prop :=
  KeepsToSimulation (PreSimTick ServerRPC_ops) /\
  KeepsToSimulation (PostSimTick ServerRPC_ops) /\
  KeepsToSimulation (PreSimTick Autonomous_ops) /\
  KeepsToSimulation (PostSimTick Autonomous_ops) /\
  KeepsToSimulation (PreSimTick Simulated_ops) /\
  KeepsToSimulation (PostSimTick Simulated_ops).

(** A run: one [Tick] per frame, each frame with the engine's frame counter
    and the tick parameters; the Sync buffer is recorded after every tick. *)
Fixpoint TickRun (frames : list (Z * FNetSimTickParameters)) (m : TNetworkedSimulationModel)
  : Result (list (TReplicationBuffer TSyncState) * TNetworkedSimulationModel) :=
  match frames with
  | [] => Ok ([], m)
  | (GFrameNumber, Parameters) :: rest =>
      m1 ← Tick GFrameNumber Parameters m;
      '(syncs, m2) ← TickRun rest m1;
      Ok (SyncBuffer m1 :: syncs, m2)
  end.

(** ** Conditions on a state *)

(** The count of valid elements fits the storage. *)
Definition BufferWf {T : Type} (b : TReplicationBuffer T) : Prop :=
  (NumValidElements b <= GetMaxNumElements b)%nat.

(** The sync buffer has room, its head is the last processed keyframe, and
    the head element is there: what the input loop [check]s. *)
Definition SyncReady (m : TNetworkedSimulationModel) : Prop :=
  (0 < GetMaxNumElements (SyncBuffer m))%nat /\
  GetHeadKeyframe (SyncBuffer m) = LastProcessedInputKeyframe (Tick_Info m) /\
  (1 <= NumValidElements (SyncBuffer m))%nat.

(** Why the input loop has come to rest at [m]: the ceiling is reached, the
    next keyframe is not in the Input buffer, or the budget does not cover
    the next command. *)
Definition LoopAtRest (m : TNetworkedSimulationModel) : Prop :=
  MaxAllowedInputKeyframe (Tick_Info m) < LastProcessedInputKeyframe (Tick_Info m) + 1 \/
  FindElementByKeyframe (LastProcessedInputKeyframe (Tick_Info m) + 1) (InputBuffer m) = None \/
  exists cmd,
    ElementAt (LastProcessedInputKeyframe (Tick_Info m) + 1) (InputBuffer m) = Some cmd /\
    RemainingAllowedSimulationTime (Tick_Info m) < GetFrameDeltaTime cmd.


End Model.

(* ===================================================================== *)
(** * A small instantiation, for running the model *)
(* ===================================================================== *)

Module Example.

(** A driver that spawns at a fixed state and hands out scripted input. *)
Record ExampleDriver : Type := mkDriver {
  SpawnState : Z;
  PendingInput : list (FNetworkSimTime * Z)
}.

(** An input command: its frame delta time and a displacement. *)
Definition ExampleUpdate (d : ExampleDriver) (DeltaSeconds : Float32.float)
    (Cmd : FNetworkSimTime * Z) (Prev Next : Z) (AuxState : Z) : ExampleDriver * Z :=
  (d, Prev + snd Cmd * AuxState).

Abbreviation ExCore := (SimCore ExampleDriver (FNetworkSimTime * Z) Z Z).
Abbreviation ExBuffers := (TNetworkSimBufferContainer (FNetworkSimTime * Z) Z Z).

(** A proxy that does nothing. *)
Definition Idle_ops : ReplicatorOps unit ExCore ExBuffers unit :=
  {| PreSimTick := fun p c _ => Ok (p, c);
     PostSimTick := fun p c _ => Ok (p, c);
     Reconcile := fun p c => Ok (p, c);
     NetSerialize := fun p _ b t => Ok (p, b, t);
     GetProxyDirtyCount := fun _ _ => 0;
     GetLastSerializedKeyframe := fun _ => 0 |}.

(** Modelled from the spec: the pre-tick of the Autonomous-Predictor
    (section 4.E) asks the driver for a new input command, appends it to
    Input, refills the remaining allowed simulation time from the frame's
    delta and sets [MaxAllowedInputKeyframe] to the Input head. *)
Definition Autonomous_PreSimTick (p : unit) (c : ExCore) (_ : FNetSimTickParameters)
  : Result (unit * ExCore) :=
  let Cmd := match PendingInput (Driver c) with
             | x :: _ => x
             | [] => (0, 0)
             end in
  let d := mkDriver (SpawnState (Driver c)) (tail (PendingInput (Driver c))) in
  '(Input1, Ptr) ← GetWriteNext (Input (Buffers c));
  let Input2 := Store Ptr Cmd Input1 in
  let B := Buffers c in
  Ok (p, mkCore d (mkContainer Input2 (Sync B) (Aux B) (Debug B))
                (RefillBudget (GetHeadKeyframe Input2)
                   (RemainingAllowedSimulationTime (TickInfo c) + fst Cmd)
                   (TickInfo c))).

Definition Predictor_ops : ReplicatorOps unit ExCore ExBuffers unit :=
  {| PreSimTick := Autonomous_PreSimTick;
     PostSimTick := fun p c _ => Ok (p, c);
     Reconcile := fun p c => Ok (p, c);
     NetSerialize := fun p _ b t => Ok (p, b, t);
     GetProxyDirtyCount := fun _ _ => 0;
     GetLastSerializedKeyframe := fun _ => 0 |}.

Definition Sim (debug : bool) : NetSimTemplate :=
  {| TDriver := ExampleDriver;
     TInputCmd := FNetworkSimTime * Z;
     TSyncState := Z;
     TAuxState := Z;
     TInputCmd_ctor := (0, 0);
     TSyncState_ctor := 0;
     TAuxState_ctor := 1;
     GetFrameDeltaTime := fst;
     ToRealTimeSeconds := fun t => Float32.div (Float32.of_Z t) (Float32.of_Z 1000);
     GetDebugName := fun _ => "Example"%string;
     InitSyncState := fun d _ => SpawnState d;
     Update := ExampleUpdate;
     NETSIM_MODEL_DEBUG := debug;
     FNetSerializeParams := unit;
     TRepProxyServerRPC := unit;
     TRepProxyAutonomous := unit;
     TRepProxySimulated := unit;
     TRepProxyReplay := unit;
     TRepProxyDebug := unit;
     TRepProxyServerRPC_ctor := tt;
     TRepProxyAutonomous_ctor := tt;
     TRepProxySimulated_ctor := tt;
     TRepProxyReplay_ctor := tt;
     TRepProxyDebug_ctor := tt;
     ServerRPC_ops := Idle_ops;
     Autonomous_ops := Predictor_ops;
     Simulated_ops := Idle_ops;
     Replay_ops := Idle_ops;
     Debug_ops := Idle_ops;
     ReceivedBuffer := fun _ => TReplicationBuffer_ctor;
     CopyAndMerge := fun _ _ src => src |}.

Definition Model (debug : bool) : Type := @TNetworkedSimulationModel (Sim debug).

(** A new instance, initialised for a role with the given capacities. *)
Definition Spawn (debug : bool) (script : list (FNetworkSimTime * Z))
    (InputCap SyncCap : nat) : Result (Model debug) :=
  @InitializeForNetworkRole (Sim debug) ROLE_AutonomousProxy
    (mkInitParameters InputCap SyncCap 4 4 8)
    (@TNetworkedSimulationModel_ctor (Sim debug) (mkDriver 7 script)).

Definition AutonomousFrame : FNetSimTickParameters :=
  mkTickParameters ROLE_AutonomousProxy (Float32.of_scaled 1 (-4)).

(** [n] autonomous ticks in a row. *)
Fixpoint Ticks (debug : bool) (n : nat) (m : Model debug) : Result (Model debug) :=
  match n with
  | O => Ok m
  | S n' => m1 ← @Tick (Sim debug) (Z.of_nat n) AutonomousFrame m; Ticks debug n' m1
  end.

(** The value of a call known to succeed. *)
Definition force {A : Type} (default : A) (r : Result A) : A :=
  match r with Ok a => a | _ => default end.

Definition Fresh (debug : bool) : Model debug :=
  @TNetworkedSimulationModel_ctor (Sim debug) (mkDriver 7 []).

Definition Script : list (FNetworkSimTime * Z) := [(100, 1); (100, 2); (100, 3)].

(** [n] pre-ticks of the autonomous proxy and nothing else: the Input
    buffer (capacity 4) holds the keyframes [0..n], the budget is [100 n],
    nothing is processed and the Sync buffer (capacity 4) is empty. *)
Fixpoint PreTicks (n : nat) (m : Model false) : Result (Model false) :=
  match n with
  | O => Ok m
  | S n' => m1 ← @Tick_PreSimTick (Sim false) AutonomousFrame m; PreTicks n' m1
  end.

Definition Primed (n : nat) : Model false :=
  force (Fresh false) (m ← Spawn false Script 4 4; PreTicks n m).

(** [Primed 3] after its input processing. *)
Definition Processed3 : Model false :=
  force (Fresh false) (@Tick_ProcessInput (Sim false) None (Primed 3)).

(** One command of 100 waiting, and a budget of 50. *)
Definition Starved : Model false :=
  @set_TickInfo (Sim false)
    (RefillBudget 1 50 (@Tick_Info (Sim false) (Primed 1))) (Primed 1).

(** Three keyframes processed, and then the sync head knocked back to 0. *)
Definition Broken : Model false :=
  @set_Sync (Sim false)
    (ResetNextHeadKeyframe 1 (@SyncBuffer (Sim false) Processed3)) Processed3.


(** Two instances that differ in Aux buffer and RPC pacing, ticked twice
    under different frame counters. *)
Definition TwinA : Model false := force (Fresh false) (Spawn false Script 4 4).
Definition OtherAux : TReplicationBuffer Z := mkBuffer [5; 6] 1 2.
Definition TwinB : Model false :=
  @set_Aux (Sim false) OtherAux
    (@Model_SetDesiredServerRPCSendFrequency (Sim false) (Float32.of_Z 60) TwinA).
Definition FramesA : list (Z * FNetSimTickParameters) :=
  [(1, AutonomousFrame); (2, AutonomousFrame)].
Definition FramesB : list (Z * FNetSimTickParameters) :=
  [(10, AutonomousFrame); (20, AutonomousFrame)].

(** [Starved] after its input processing and the pre-tick of the next
    autonomous tick. *)
Definition StarvedNextPreTick : Model false :=
  force (Fresh false)
    (m1 ← @Tick_ProcessInput (Sim false) None Starved;
     @Tick_PreSimTick (Sim false) AutonomousFrame m1).

(** As [Starved], with an Input buffer of capacity 1: the command of 100
    waits at keyframe 1, the only keyframe the buffer holds, and the budget
    is 50. *)
Definition StarvedCap1 : Model false :=
  let m := force (Fresh false) (m ← Spawn false Script 1 4; PreTicks 1 m) in
  @set_TickInfo (Sim false) (RefillBudget 1 50 (@Tick_Info (Sim false) m)) m.

(** [StarvedCap1] after the input processing that defers keyframe 1, and
    after [n] further autonomous ticks. *)
Definition StarvedCap1Deferred : Model false :=
  force (Fresh false) (@Tick_ProcessInput (Sim false) None StarvedCap1).
Definition StarvedCap1Ticked (n : nat) : Model false :=
  force (Fresh false) (Ticks false n StarvedCap1Deferred).

End Example.

(* ===================================================================== *)
(* ===================================================================== *)
(** * Properties *)
(* ===================================================================== *)
(* ===================================================================== *)

(* ===================================================================== *)
(** ** The RPC sending helper *)
(* ===================================================================== *)

Section RPCPacing.

Implicit Types (s : RPCSendState) (dt : Float32.float).

Local Abbreviation Acc := ServerRPCAccumulatedTimeSeconds.
Local Abbreviation Thr := ServerRPCThresholdTimeSeconds.


Lemma ShouldSendServerRPC_flag dt s :
  fst (ShouldSendServerRPC dt s) = Float32.ge (Float32.add (Acc s) dt) (Thr s).
Proof. unfold ShouldSendServerRPC. by destruct (Float32.ge _ _). Qed.





Example quarter_second_threshold :
  Thr quarter_second_pacer = Float32.of_scaled 1 (-2).
Proof. vm_compute. reflexivity. Qed.

(** C1, evaluated on the code.  With a threshold of 0.25 s and an empty
    accumulator, one call with dt = 1 s leaves 0.75 s in the accumulator:
    the whole second was added, not the capped quarter.  The pacing rule
    as specified leaves 0 s. *)
Theorem ShouldSendServerRPC_adds_uncapped_delta :
  FMath_Min Float32.one (Thr quarter_second_pacer) = Float32.of_scaled 1 (-2) /\
  ShouldSendServerRPC Float32.one quarter_second_pacer =
    (true, mkRPCSendState (Float32.of_scaled 3 (-2)) (Float32.of_scaled 1 (-2))) /\
  ShouldSendServerRPC_as_specified Float32.one quarter_second_pacer =
    (true, mkRPCSendState Float32.zero (Float32.of_scaled 1 (-2))) /\
  Acc (snd (ShouldSendServerRPC Float32.one quarter_second_pacer)) <>
  Acc (snd (ShouldSendServerRPC_as_specified Float32.one quarter_second_pacer)).
Proof. vm_compute. repeat split; discriminate. Qed.









End RPCPacing.

(* ===================================================================== *)
(** ** Parent / dependent links *)
(* ===================================================================== *)

Module DependentSimsFacts.
Import DependentSims.

Implicit Types (h : Heap) (this s p x : SimPtr) (T S P X : SimLinks).

Lemma TArray_Remove_elem (Item y : option SimPtr) l :
  y ∈ TArray_Remove Item l <-> y <> Item /\ y ∈ l.
Proof. unfold TArray_Remove. by rewrite list_elem_of_filter. Qed.

Lemma TArray_Remove_absent (Item : option SimPtr) l :
  Item ∉ l -> TArray_Remove Item l = l.
Proof.
  intros Hn. unfold TArray_Remove. induction l as [|a l IH]; [done|].
  rewrite filter_cons. apply not_elem_of_cons in Hn as [Hne Hn].
  rewrite decide_True by congruence. f_equal. by apply IH.
Qed.

Lemma SimLinks_eta X :
  {| ParentSimulation := ParentSimulation X;
     DependentSimulations := DependentSimulations X;
     bDependentSimulationNeedsReconcile := bDependentSimulationNeedsReconcile X |} = X.
Proof. by destruct X. Qed.

(** Compares, instance by instance, a heap built from inserts with the
    relinked heap. *)
Ltac heap_pointwise :=
  f_equal; apply map_eq; intros ?x; rewrite map_lookup_imap;
  repeat (first [ rewrite lookup_insert | case_decide; simplify_eq ]);
  repeat match goal with
         | H : ?h !! ?y = Some _ |- context [ ?h !! ?y ] => rewrite H
         end; cbn;
  try (match goal with |- context [ ?h !! ?y ] => destruct (h !! y) eqn:?; cbn end);
  try done;
  unfold relink, NotifyDependentSimNeedsReconcile, set_DependentSimulations,
         set_ParentSimulation; cbn;
  repeat (case_decide; simplify_eq); rewrite ?app_nil_r, ?SimLinks_eta; try done.

Ltac run_links :=
  unfold AddDepdentSimulation, RemoveDependentSimulation, TArray_Contains;
  unfold mbind, Result_bind; cbn;
  repeat (first [ rewrite lookup_insert
                | match goal with
                  | H : ?h !! ?y = Some _ |- context [ ?h !! ?y ] => rewrite H
                  end
                | case_decide; simplify_eq ]; cbn);
  rewrite ?bool_decide_eq_false_2 by done; try done.

(** The net effect of [SetParentSimulation], when the pointers it
    follows are live and the [check] of [AddDepdentSimulation] holds. *)
Lemma SetParentSimulation_relink h this Simulation T :
  h !! this = Some T ->
  (forall p, ParentSimulation T = Some p -> is_Some (h !! p)) ->
  (forall s, Simulation = Some s ->
     exists S, h !! s = Some S /\
       Some this ∉
         (if decide (ParentSimulation T = Some s)
          then TArray_Remove (Some this) (DependentSimulations S)
          else DependentSimulations S)) ->
  SetParentSimulation this Simulation h =
  Ok (map_imap (fun x X => Some (relink this (ParentSimulation T) Simulation x X)) h).
Proof.
  intros Hthis Hold Hnew. unfold SetParentSimulation. rewrite Hthis.
  destruct (ParentSimulation T) as [p|] eqn:Hp.
  - destruct (Hold p eq_refl) as [P HP].
    destruct Simulation as [s|].
    + destruct (Hnew s eq_refl) as (S & HS & Hchk).
      run_links; heap_pointwise.
    + run_links; heap_pointwise.
  - destruct Simulation as [s|].
    + destruct (Hnew s eq_refl) as (S & HS & Hchk).
      run_links; heap_pointwise.
    + run_links; heap_pointwise.
Qed.

Lemma lookup_relinked h this old Simulation x :
  map_imap (fun x X => Some (relink this old Simulation x X)) h !! x =
  relink this old Simulation x <$> h !! x.
Proof. rewrite map_lookup_imap. by destruct (h !! x). Qed.

Lemma lookup_cleared h this R x :
  map_imap (fun x X => Some (cleared this R x X)) h !! x =
  cleared this R x <$> h !! x.
Proof. rewrite map_lookup_imap. by destruct (h !! x). Qed.

Lemma links_consistent_empty : links_consistent ∅.
Proof.
  split.
  - intros s p. split; intros (X & HX & _); by rewrite lookup_empty in HX.
  - intros p P HP. by rewrite lookup_empty in HP.
Qed.

(** Under consistency, the old parent of [this] is live. *)
Lemma consistent_parent_live h this T p :
  links_consistent h -> h !! this = Some T -> ParentSimulation T = Some p ->
  exists P, h !! p = Some P /\ Some this ∈ DependentSimulations P.
Proof.
  intros [Hsym _] Hthis Hp. apply (Hsym this p). by exists T.
Qed.

(** Under consistency, the [check] of [AddDepdentSimulation] made by
    [SetParentSimulation] holds. *)
Lemma consistent_check_holds h this T s S :
  links_consistent h -> h !! this = Some T -> h !! s = Some S ->
  Some this ∉
    (if decide (ParentSimulation T = Some s)
     then TArray_Remove (Some this) (DependentSimulations S)
     else DependentSimulations S).
Proof.
  intros [Hsym _] Hthis HS. case_decide as Hd.
  - rewrite TArray_Remove_elem. tauto.
  - intros Hin. apply Hd.
    destruct (proj1 (Hsym this s)) as (T' & HT' & Hp); [by exists S|]. congruence.
Qed.

Lemma relink_consistent h this Simulation T :
  links_consistent h -> h !! this = Some T ->
  (forall s, Simulation = Some s -> is_Some (h !! s)) ->
  links_consistent
    (map_imap (fun x X => Some (relink this (ParentSimulation T) Simulation x X)) h).
Proof.
  intros Hc Hthis Hlive. pose proof Hc as [Hsym Hwf]. split.
  - intros y x. unfold listed_in, parent_of. setoid_rewrite lookup_relinked. split.
    + intros (X' & HX' & Hin).
      destruct (h !! x) as [X|] eqn:HX; [|done]. cbn in HX'. simplify_eq.
      cbn in Hin. apply elem_of_app in Hin as [Hin|Hin].
      * assert (Some y ∈ DependentSimulations X /\ y <> this) as [Hy Hne].
        { case_decide as Hd.
          - apply TArray_Remove_elem in Hin as [Hne Hin]. split; [done|congruence].
          - split; [done|]. intros ->. apply Hd.
            destruct (proj1 (Hsym this x)) as (T' & HT' & Hp); [by exists X|].
            congruence. }
        destruct (proj1 (Hsym y x)) as (Y & HY & Hp); [by exists X|].
        exists (relink this (ParentSimulation T) Simulation y Y). rewrite HY. split; [done|].
        cbn. by rewrite decide_False.
      * case_decide as Hd; [|by apply elem_of_nil in Hin].
        apply list_elem_of_singleton in Hin. simplify_eq.
        exists (relink this (ParentSimulation T) (Some x) this T). rewrite Hthis.
        split; [done|]. cbn. by rewrite decide_True.
    + intros (Y' & HY' & Hp).
      destruct (h !! y) as [Y|] eqn:HY; [|done]. cbn in HY'. simplify_eq.
      cbn in Hp. case_decide as Hd.
      * subst y. destruct (Hlive x Hp) as [X HX].
        exists (relink this (ParentSimulation T) Simulation x X). rewrite HX.
        split; [done|]. cbn. apply elem_of_app. right.
        rewrite decide_True by done. by apply list_elem_of_singleton.
      * destruct (proj2 (Hsym y x)) as (X & HX & Hin); [by exists Y|].
        exists (relink this (ParentSimulation T) Simulation x X). rewrite HX.
        split; [done|]. cbn. apply elem_of_app. left.
        case_decide; [|done]. apply TArray_Remove_elem. split; [congruence|done].
  - intros x X' HX'. rewrite lookup_relinked in HX'.
    destruct (h !! x) as [X|] eqn:HX; [|done]. cbn in HX'. simplify_eq.
    destruct (Hwf x X HX) as [Hnd Hel]. cbn. split.
    + apply NoDup_app. split; [|split].
      * case_decide; [|done]. by apply NoDup_filter.
      * intros z Hz Hz'. case_decide as Hs; [|by apply elem_of_nil in Hz'].
        apply list_elem_of_singleton in Hz'. subst z.
        case_decide as Hd.
        -- apply TArray_Remove_elem in Hz. tauto.
        -- apply Hd. destruct (proj1 (Hsym this x)) as (T' & HT' & Hp); [by exists X|].
           congruence.
      * case_decide; [apply NoDup_singleton|apply NoDup_nil_2].
    + intros z Hz. apply elem_of_app in Hz as [Hz|Hz].
      * assert (z ∈ DependentSimulations X) as Hz'.
        { case_decide; [|done]. by apply TArray_Remove_elem in Hz as [_ Hz]. }
        destruct (Hel z Hz') as (s & -> & [S HS]). exists s. split; [done|].
        rewrite lookup_relinked, HS. by eexists.
      * case_decide as Hs; [|by apply elem_of_nil in Hz].
        apply list_elem_of_singleton in Hz. subst z. exists this. split; [done|].
        rewrite lookup_relinked, Hthis. by eexists.
Qed.

Lemma SetParentSimulation_consistent h this Simulation :
  links_consistent h -> is_Some (h !! this) ->
  (forall s, Simulation = Some s -> is_Some (h !! s)) ->
  exists h', SetParentSimulation this Simulation h = Ok h' /\ links_consistent h' /\
             (forall x, is_Some (h' !! x) <-> is_Some (h !! x)) /\
             (exists T', h' !! this = Some T' /\ ParentSimulation T' = Simulation).
Proof.
  intros Hc [T Hthis] Hlive. eexists. split; [|split; [|split]].
  - apply (SetParentSimulation_relink h this Simulation T Hthis).
    + intros p Hp. destruct (consistent_parent_live h this T p Hc Hthis Hp) as (P & HP & _).
      by eexists.
    + intros s ->. destruct (Hlive s eq_refl) as [S HS]. exists S. split; [done|].
      by apply (consistent_check_holds h this T s S).
  - by apply relink_consistent.
  - intros x. rewrite lookup_relinked. by rewrite fmap_is_Some.
  - rewrite lookup_relinked, Hthis. eexists. split; [done|]. cbn. by rewrite decide_True.
Qed.

(** The loop of [ClearAllDependentSimulations], entry by entry. *)
Lemma ClearAll_loop_cleared h this T :
  links_consistent h -> h !! this = Some T ->
  forall R visited, DependentSimulations T = visited ++ R ->
    ClearAll_loop R (map_imap (fun x X => Some (cleared this R x X)) h) =
    Ok (map_imap (fun x X => Some (cleared this [] x X)) h).
Proof.
  intros Hc Hthis. pose proof Hc as [Hsym Hwf].
  destruct (Hwf this T Hthis) as [Hnd Hel].
  induction R as [|a R IH]; intros visited Hsplit; [done|].
  assert (a ∈ DependentSimulations T) as Ha.
  { rewrite Hsplit. apply elem_of_app. right. by left. }
  destruct (Hel a Ha) as (d & -> & [D HD]).
  assert (ParentSimulation D = Some this) as HpD.
  { destruct (proj1 (Hsym d this)) as (D' & HD' & Hp); [by exists T|]. congruence. }
  assert (Some d ∉ R) as HdR.
  { rewrite Hsplit in Hnd. apply NoDup_app in Hnd as (_ & _ & Hnd).
    by apply NoDup_cons in Hnd as [Hnd _]. }
  assert (ParentSimulation (cleared this (Some d :: R) d D) = Some this) as Hold.
  { cbn. rewrite decide_False by (intros [_ Hn]; apply Hn; by left). done. }
  cbn [ClearAll_loop].
  rewrite (SetParentSimulation_relink _ d None (cleared this (Some d :: R) d D)).
  - cbn [mbind Result_bind]. rewrite Hold.
    replace (map_imap _ (map_imap _ h))
      with (map_imap (fun x X => Some (cleared this R x X)) h).
    { apply (IH (visited ++ [Some d])). by rewrite <- app_assoc. }
    apply map_eq. intros x. rewrite lookup_relinked, !lookup_cleared.
    destruct (h !! x) as [X|] eqn:HX; [|done]. cbn. f_equal.
    unfold relink, cleared; cbn. f_equal.
    + destruct (decide (x = d)) as [->|Hxd].
      * simplify_eq. by rewrite decide_True.
      * apply decide_ext. rewrite not_elem_of_cons.
        split; [intros [? ?]; repeat split; [done|congruence|done]|].
        intros (? & _ & ?). done.
    + repeat case_decide; simplify_eq; by rewrite ?app_nil_r.
  - rewrite lookup_cleared, HD. done.
  - intros p. rewrite Hold. intros [= <-]. rewrite lookup_cleared, Hthis. by eexists.
  - done.
Qed.

Lemma cleared_consistent h this :
  links_consistent h ->
  links_consistent (map_imap (fun x X => Some (cleared this [] x X)) h).
Proof.
  intros [Hsym Hwf]. split.
  - intros y x. unfold listed_in, parent_of. setoid_rewrite lookup_cleared. split.
    + intros (X' & HX' & Hin).
      destruct (h !! x) as [X|] eqn:HX; [|done]. cbn in HX'. simplify_eq.
      cbn in Hin. case_decide as Hx; [by apply elem_of_nil in Hin|].
      destruct (proj1 (Hsym y x)) as (Y & HY & Hp); [by exists X|].
      exists (cleared this [] y Y). rewrite HY. split; [done|]. cbn.
      rewrite decide_False; [done|]. intros [Hpt _]. congruence.
    + intros (Y' & HY' & Hp).
      destruct (h !! y) as [Y|] eqn:HY; [|done]. cbn in HY'. simplify_eq.
      cbn in Hp. case_decide as Hd; [done|].
      destruct (proj2 (Hsym y x)) as (X & HX & Hin); [by exists Y|].
      exists (cleared this [] x X). rewrite HX. split; [done|]. cbn.
      rewrite decide_False; [done|]. intros ->. apply Hd. split; [done|].
      apply not_elem_of_nil.
  - intros x X' HX'. rewrite lookup_cleared in HX'.
    destruct (h !! x) as [X|] eqn:HX; [|done]. cbn in HX'. simplify_eq.
    destruct (Hwf x X HX) as [Hnd Hel]. cbn. case_decide.
    + split; [apply NoDup_nil_2|]. intros z Hz. by apply elem_of_nil in Hz.
    + split; [done|]. intros z Hz. destruct (Hel z Hz) as (s & -> & [S HS]).
      exists s. split; [done|]. rewrite lookup_cleared, HS. by eexists.
Qed.

Lemma ClearAllDependentSimulations_consistent h this :
  links_consistent h -> is_Some (h !! this) ->
  exists h', ClearAllDependentSimulations this h = Ok h' /\ links_consistent h' /\
             (forall x, is_Some (h' !! x) <-> is_Some (h !! x)) /\
             (forall T, h !! this = Some T ->
                exists T', h' !! this = Some T' /\ DependentSimulations T' = [] /\
                  (ParentSimulation T = None -> ParentSimulation T' = None)).
Proof.
  intros Hc [T Hthis]. exists (map_imap (fun x X => Some (cleared this [] x X)) h).
  split; [|split; [|split]].
  - unfold ClearAllDependentSimulations. rewrite Hthis.
    rewrite <- (ClearAll_loop_cleared h this T Hc Hthis (DependentSimulations T) []) by done.
    f_equal. apply map_eq. intros x. rewrite lookup_cleared, lookup_insert.
    pose proof Hc as [Hsym Hwf].
    case_decide as Hx.
    + subst x. rewrite Hthis. cbn. f_equal. unfold cleared, set_DependentSimulations. cbn.
      rewrite (decide_True (P := this = this)) by done. f_equal.
      case_decide as Hd; [|done]. destruct Hd as [Hp Hn]. exfalso. apply Hn.
      destruct (proj2 (Hsym this this)) as (T' & HT' & Hin); [by exists T|]. congruence.
    + destruct (h !! x) as [X|] eqn:HX; [|done]. cbn. f_equal.
      unfold cleared. cbn. rewrite (decide_False (P := x = this)) by done.
      case_decide as Hd; [|by destruct X]. destruct Hd as [Hp Hn]. exfalso. apply Hn.
      destruct (proj2 (Hsym x this)) as (T' & HT' & Hin); [by exists X|]. congruence.
  - by apply cleared_consistent.
  - intros x. rewrite lookup_cleared. by rewrite fmap_is_Some.
  - intros T0 HT0. simplify_eq. rewrite lookup_cleared, Hthis. eexists. split; [done|].
    cbn. rewrite (decide_True (P := this = this)) by done.
    split; [done|]. intros ->. by case_decide.
Qed.

(** An instance without parent and without dependents can go. *)
Lemma delete_unlinked_consistent h this T :
  links_consistent h -> h !! this = Some T ->
  ParentSimulation T = None -> DependentSimulations T = [] ->
  links_consistent (delete this h).
Proof.
  intros [Hsym Hwf] Hthis Hp Hd.
  assert (Hnp : forall y, ~ parent_of h y this).
  { intros y Hy. apply Hsym in Hy as (T' & HT' & Hin). simplify_eq.
    rewrite Hd in Hin. by apply elem_of_nil in Hin. }
  assert (Hnl : forall x, ~ parent_of h this x).
  { intros x (T' & HT' & Hp'). congruence. }
  split.
  - intros y x. unfold listed_in, parent_of. setoid_rewrite lookup_delete. split.
    + intros (X & HX & Hin). case_decide; [done|].
      destruct (proj1 (Hsym y x)) as (Y & HY & HpY); [by exists X|].
      exists Y. split; [|done]. rewrite decide_False; [done|].
      intros <-. apply (Hnl x). by exists Y.
    + intros (Y & HY & HpY). case_decide; [done|].
      destruct (proj2 (Hsym y x)) as (X & HX & Hin); [by exists Y|].
      exists X. split; [|done]. rewrite decide_False; [done|].
      intros <-. apply (Hnp y). by exists Y.
  - intros x X HX. rewrite lookup_delete in HX. case_decide as Hx; [done|].
    destruct (Hwf x X HX) as [Hnd Hel]. split; [done|].
    intros z Hz. destruct (Hel z Hz) as (s & -> & HS). exists s. split; [done|].
    rewrite lookup_delete. rewrite decide_False; [done|].
    intros <-. apply (Hnl x). apply Hsym. by exists X.
Qed.

Lemma Destroy_consistent h this :
  links_consistent h -> is_Some (h !! this) ->
  exists h', Destroy this h = Ok h' /\ links_consistent h'.
Proof.
  intros Hc Hlive. unfold Destroy.
  destruct (SetParentSimulation_consistent h this None Hc Hlive)
    as (h1 & -> & Hc1 & Hdom1 & T1 & HT1 & Hp1); [done|].
  cbn [mbind Result_bind].
  destruct (ClearAllDependentSimulations_consistent h1 this Hc1)
    as (h2 & -> & Hc2 & Hdom2 & Hthis2); [by eexists|].
  cbn [mbind Result_bind].
  destruct (Hthis2 T1 HT1) as (T2 & HT2 & Hd2 & Hp2).
  eexists. split; [done|].
  apply (delete_unlinked_consistent h2 this T2); auto.
Qed.

Lemma Construct_consistent h this :
  links_consistent h -> h !! this = None ->
  links_consistent (<[this := SimLinks_init]> h).
Proof.
  intros [Hsym Hwf] Hfree. split.
  - intros y x. unfold listed_in, parent_of. setoid_rewrite lookup_insert. split.
    + intros (X & HX & Hin). case_decide; simplify_eq.
      { by apply elem_of_nil in Hin. }
      destruct (proj1 (Hsym y x)) as (Y & HY & HpY); [by exists X|].
      exists Y. split; [|done]. case_decide; [congruence|done].
    + intros (Y & HY & HpY). case_decide; simplify_eq.
      destruct (proj2 (Hsym y x)) as (X & HX & Hin); [by exists Y|].
      exists X. split; [|done]. case_decide; [congruence|done].
  - intros x X HX. rewrite lookup_insert in HX. case_decide; simplify_eq.
    + split; [apply NoDup_nil_2|]. intros z Hz. by apply elem_of_nil in Hz.
    + destruct (Hwf x X HX) as [Hnd Hel]. split; [done|].
      intros z Hz. destruct (Hel z Hz) as (s & -> & HS). exists s. split; [done|].
      rewrite lookup_insert. case_decide; [by eexists|done].
Qed.

(** One call of the protocol on a consistent heap: it succeeds and
    leaves a consistent heap when its pointers are live, and has no
    defined behaviour otherwise.  No [check] fails. *)
Lemma exec_protocol_call h c :
  links_consistent h -> protocol_call c = true ->
  if call_live h c
  then exists h', exec c h = Ok h' /\ links_consistent h'
  else exec c h = Undefined.
Proof.
  intros Hc Hproto. destruct c as [this|this Sim|this Sim|this Sim|this|this];
    try discriminate; cbn [call_live exec].
  - unfold Construct. case_bool_decide as Hl.
    + rewrite Hl. eexists. split; [done|]. by apply Construct_consistent.
    + destruct (h !! this); [done|congruence].
  - destruct Sim as [p|].
    + case_bool_decide as Hl; cbn [andb].
      * case_bool_decide as Hlp.
        -- destruct (SetParentSimulation_consistent h this (Some p) Hc Hl)
             as (h' & -> & Hc' & _); [by intros ? [= <-]|]. by eexists.
        -- destruct Hl as [T Hthis]. unfold SetParentSimulation. rewrite Hthis.
           assert (h !! p = None) as Hp.
           { destruct (h !! p) eqn:E; [|done]. destruct Hlp. by eexists. }
           assert (p <> this) by congruence.
           destruct (ParentSimulation T) as [q|] eqn:Hq.
           ++ destruct (consistent_parent_live h this T q Hc Hthis Hq) as (Q & HQ & _).
              unfold RemoveDependentSimulation. rewrite HQ. cbn [mbind Result_bind].
              rewrite lookup_insert. case_decide; simplify_eq.
              ** unfold AddDepdentSimulation.
                 rewrite !lookup_insert_ne, Hp by done. done.
              ** rewrite Hthis. unfold AddDepdentSimulation.
                 rewrite lookup_insert_ne by done.
                 rewrite lookup_insert_ne by congruence. by rewrite Hp.
           ++ cbn [mbind Result_bind]. rewrite Hthis. unfold AddDepdentSimulation.
              rewrite lookup_insert_ne by done. by rewrite Hp.
      * unfold SetParentSimulation. destruct (h !! this) eqn:E; [|done].
        destruct Hl. by eexists.
    + case_bool_decide as Hl.
      * destruct (SetParentSimulation_consistent h this None Hc Hl)
          as (h' & -> & Hc' & _); [done|]. by eexists.
      * unfold SetParentSimulation. destruct (h !! this) eqn:E; [|done].
        destruct Hl. by eexists.
  - case_bool_decide as Hl.
    + destruct (ClearAllDependentSimulations_consistent h this Hc Hl)
        as (h' & -> & Hc' & _). by eexists.
    + unfold ClearAllDependentSimulations. destruct (h !! this) eqn:E; [|done].
      destruct Hl. by eexists.
  - case_bool_decide as Hl.
    + by apply Destroy_consistent.
    + unfold Destroy, SetParentSimulation. destruct (h !! this) eqn:E; [|done].
      destruct Hl. by eexists.
Qed.

(** C2, as the code has it.  From a consistent heap (the empty heap is
    one), any sequence of constructions, [SetParentSimulation],
    [ClearAllDependentSimulations] and destructions leaves a heap in which
    [p]'s dependents list holds [s] exactly when [s]'s parent link is [p],
    the lists hold live, distinct, non-null pointers, and no [check] has
    failed; the sequence can only go wrong by using a pointer that is not
    live. *)
Theorem protocol_calls_keep_links_consistent (cs : list GraphCall) h :
  links_consistent h -> forallb protocol_call cs = true ->
  match run cs h with
  | Ok h' => links_consistent h'
  | Undefined => calls_live cs h = false
  | AssertFailed _ | OutOfFuel => False
  end.
Proof.
  revert h. induction cs as [|c cs IH]; intros h Hc Hp; [done|].
  cbn [forallb] in Hp. apply andb_prop in Hp as [Hpc Hp].
  pose proof (exec_protocol_call h c Hc Hpc) as Hstep.
  cbn [run calls_live]. destruct (call_live h c).
  - destruct Hstep as (h1 & -> & Hc1). cbn [mbind Result_bind andb].
    by apply IH.
  - rewrite Hstep. done.
Qed.

Lemma protocol_calls_keep_links_consistent_witness :
  exists h',
    run [CallConstruct 1; CallConstruct 2; CallConstruct 3;
         CallSetParentSimulation 1 (Some 3); CallSetParentSimulation 2 (Some 3);
         CallSetParentSimulation 1 (Some 2); CallClearAllDependentSimulations 3;
         CallDestroy 2]%nat ∅ = Ok h' /\
    links_consistent h'.
Proof.
  eexists. split.
  - vm_compute. reflexivity.
  - exact (protocol_calls_keep_links_consistent
             [CallConstruct 1; CallConstruct 2; CallConstruct 3;
              CallSetParentSimulation 1 (Some 3); CallSetParentSimulation 2 (Some 3);
              CallSetParentSimulation 1 (Some 2); CallClearAllDependentSimulations 3;
              CallDestroy 2]%nat ∅ links_consistent_empty eq_refl).
Defined.

(** C2, as stated, fails on two counts.  Two calls of
    [SetParentSimulation] make two instances each other's parent: nothing
    looks for a cycle.  And [RemoveDependentSimulation], called on its
    own, takes a child off its parent's list while the child's parent
    link stays. *)
Lemma dependent_graph_cycle_and_one_sided_link :
  (exists h,
      run [CallConstruct 1; CallConstruct 2;
           CallSetParentSimulation 1 (Some 2);
           CallSetParentSimulation 2 (Some 1)]%nat ∅ = Ok h /\
      ~ acyclic h) /\
  (exists h,
      run [CallConstruct 1; CallConstruct 2;
           CallSetParentSimulation 1 (Some 2);
           CallRemoveDependentSimulation 2 (Some 1)]%nat ∅ = Ok h /\
      parent_of h 1%nat 2%nat /\ ~ listed_in h 1%nat 2%nat).
Proof.
  split.
  - eexists. split; [vm_compute; reflexivity|].
    intros Hac. apply (Hac 1%nat).
    apply (path_step _ 1%nat 2%nat 1%nat).
    + eexists. split; [vm_compute; reflexivity|reflexivity].
    + apply path_one. eexists. split; [vm_compute; reflexivity|reflexivity].
  - eexists. split; [vm_compute; reflexivity|]. split.
    + eexists. split; [vm_compute; reflexivity|reflexivity].
    + intros (P & HP & Hin). vm_compute in HP. simplify_eq.
      cbn in Hin. by apply elem_of_nil in Hin.
Qed.

End DependentSimsFacts.

(* ===================================================================== *)
(** ** The keyframed buffer *)
(* ===================================================================== *)

Section BufferFacts.
Context {T : Type}.
Implicit Types (b : TReplicationBuffer T).

Lemma SlotOfKeyframe_lt b k :
  (0 < GetMaxNumElements b)%nat -> (SlotOfKeyframe b k < length (Data b))%nat.
Proof.
  unfold SlotOfKeyframe, GetMaxNumElements. intros Hc.
  pose proof (Z.mod_pos_bound k (Z.of_nat (length (Data b)))). lia.
Qed.

Lemma Deref_in_range b Ptr :
  (Ptr < length (Data b))%nat -> exists v, Deref b Ptr = Ok v /\ Data b !! Ptr = Some v.
Proof.
  intros Hlt. unfold Deref. destruct (lookup_lt_is_Some_2 _ _ Hlt) as [v Hv].
  rewrite Hv. by exists v.
Qed.

Lemma Deref_Ok b Ptr v : Deref b Ptr = Ok v <-> Data b !! Ptr = Some v.
Proof. unfold Deref. destruct (Data b !! Ptr); split; congruence. Qed.

Lemma GetWriteNext_Ok b :
  (0 < GetMaxNumElements b)%nat ->
  GetWriteNext b =
  Ok (mkBuffer (Data b) (Head b + 1) (Nat.min (S (NumValidElements b)) (GetMaxNumElements b)),
      SlotOfKeyframe b (Head b + 1)).
Proof.
  intros Hc. unfold GetWriteNext.
  destruct (Nat.eqb_spec (GetMaxNumElements b) 0) as [E|_]; [lia|done].
Qed.

Lemma GetWriteNext_inv b b' Ptr :
  GetWriteNext b = Ok (b', Ptr) ->
  (0 < GetMaxNumElements b)%nat /\
  b' = mkBuffer (Data b) (Head b + 1)
                (Nat.min (S (NumValidElements b)) (GetMaxNumElements b)) /\
  Ptr = SlotOfKeyframe b (Head b + 1).
Proof.
  unfold GetWriteNext.
  destruct (Nat.eqb_spec (GetMaxNumElements b) 0) as [E|Hne]; [done|].
  intros [= <- <-]. split; [lia|done].
Qed.

Lemma FindElementByKeyframe_Some k b Ptr :
  FindElementByKeyframe k b = Some Ptr <->
  GetTailKeyframe b <= k <= GetHeadKeyframe b /\ Ptr = SlotOfKeyframe b k.
Proof.
  unfold FindElementByKeyframe.
  destruct (Z.leb_spec (GetTailKeyframe b) k), (Z.leb_spec k (GetHeadKeyframe b));
    cbn; (split; [intros E|intros [? ->]]); simplify_eq; try done; try lia.
Qed.

Lemma FindElementByKeyframe_head b :
  (1 <= NumValidElements b)%nat ->
  FindElementByKeyframe (GetHeadKeyframe b) b = Some (SlotOfKeyframe b (Head b)).
Proof.
  intros Hn. apply FindElementByKeyframe_Some. unfold GetTailKeyframe, GetHeadKeyframe.
  split; [lia|done].
Qed.

(** Well-formed buffers hold what their window promises. *)
Lemma ElementAt_in_window k b :
  BufferWf b -> GetTailKeyframe b <= k <= GetHeadKeyframe b -> is_Some (ElementAt k b).
Proof.
  intros Hwf Hk. unfold ElementAt.
  rewrite (proj2 (FindElementByKeyframe_Some k b _) (conj Hk eq_refl)).
  apply lookup_lt_is_Some_2. apply SlotOfKeyframe_lt.
  unfold BufferWf, GetTailKeyframe, GetHeadKeyframe in *. lia.
Qed.

End BufferFacts.

(* ===================================================================== *)
(** ** Tick *)
(* ===================================================================== *)

Section TickFacts.
Context `{NetSimTemplate}.
Implicit Types (m : TNetworkedSimulationModel) (D : option nat).

Local Abbreviation LPIK m := (LastProcessedInputKeyframe (Tick_Info m)).
Local Abbreviation MaxKF m := (MaxAllowedInputKeyframe (Tick_Info m)).
Local Abbreviation Total m := (TotalProcessedSimulationTime (Tick_Info m)).
Local Abbreviation Remaining m := (RemainingAllowedSimulationTime (Tick_Info m)).

(** Takes a successful run of the update block apart. *)
Ltac open_block Hrun :=
  unfold Tick_UpdateBlock in Hrun;
  let Sync1 := fresh "Sync1" in let NextPtr := fresh "NextPtr" in
  let PrevPtr := fresh "PrevPtr" in
  destruct (GetWriteNext (SyncBuffer _)) as [[Sync1 NextPtr]| | |] eqn:HWrite;
    cbn [mbind Result_bind] in Hrun; try discriminate Hrun;
  destruct (FindElementByKeyframe _ (SyncBuffer _)) as [PrevPtr|] eqn:HPrev;
    try discriminate Hrun;
  destruct (negb (GetHeadKeyframe Sync1 =? _)) eqn:HHead; try discriminate Hrun;
  destruct (Deref Sync1 PrevPtr) as [Prev| | |] eqn:HPrevV;
    cbn [mbind Result_bind] in Hrun; try discriminate Hrun;
  destruct (Deref Sync1 NextPtr) as [Next| | |] eqn:HNextV;
    cbn [mbind Result_bind] in Hrun; try discriminate Hrun;
  destruct (Update _ _ _ Prev Next _) as [Driver1 Next1] eqn:HUpd;
  injection Hrun as Hrun.

Lemma Tick_UpdateBlock_spec D K cmd m m' :
  Tick_UpdateBlock D K cmd m = Ok m' ->
  InputBuffer m' = InputBuffer m /\
  AuxBuffer m' = AuxBuffer m /\
  Tick_Info m' =
    set_LastProcessedInputKeyframe K
      (IncrementTotalProcessedSimulationTime (GetFrameDeltaTime cmd) K (Tick_Info m)) /\
  K = GetHeadKeyframe (SyncBuffer m) + 1 /\
  GetHeadKeyframe (SyncBuffer m') = K /\
  GetMaxNumElements (SyncBuffer m') = GetMaxNumElements (SyncBuffer m) /\
  (0 < GetMaxNumElements (SyncBuffer m))%nat /\
  (1 <= NumValidElements (SyncBuffer m'))%nat /\
  exists Prev Next,
    Trace m' =
    Trace m ++ [CallUpdate (mkUpdateCall K (ToRealTimeSeconds (GetFrameDeltaTime cmd))
                                         cmd Prev Next TAuxState_ctor)].
Proof.
  intros Hrun. open_block Hrun.
  apply GetWriteNext_inv in HWrite as (Hcap & -> & ->).
  apply negb_false_iff, Z.eqb_eq in HHead. cbn in HHead.
  subst m'. destruct D; cbn.
  all: repeat split; try done; try lia.
  all: try (unfold GetMaxNumElements; cbn; by rewrite length_insert).
  all: try (destruct (GetMaxNumElements (SyncBuffer m)); lia).
  all: eauto.
Qed.

(** The update block takes no notice of the Aux buffer. *)
Lemma Tick_UpdateBlock_set_Aux D K cmd a m :
  Tick_UpdateBlock D K cmd (set_Aux a m) = set_Aux a <$> Tick_UpdateBlock D K cmd m.
Proof.
  unfold Tick_UpdateBlock, SyncBuffer, Tick_Info. cbn.
  destruct (GetWriteNext (Sync (Buffers (Core m)))) as [[Sync1 NextPtr]| | |]; try done.
  cbn. destruct (FindElementByKeyframe _ _); [|done].
  destruct (negb _); [done|].
  destruct (Deref Sync1 n); try done. cbn.
  destruct (Deref Sync1 NextPtr); try done. cbn.
  destruct D; cbn; destruct (Update _ _ _ _ _ _); done.
Qed.

(** What the update block does to the simulation proper is a function of
    the simulation proper. *)
Lemma Tick_UpdateBlock_view D1 D2 K cmd m1 m2 :
  SimulationView m1 = SimulationView m2 ->
  SimulationView <$> Tick_UpdateBlock D1 K cmd m1 =
  SimulationView <$> Tick_UpdateBlock D2 K cmd m2.
Proof.
  unfold SimulationView, SyncBuffer, InputBuffer, Tick_Info.
  intros [= Hd Hi Hs Ht Hp1 Hp2 Hp3]. unfold Tick_UpdateBlock, SyncBuffer, Tick_Info.
  rewrite Hs, Ht.
  destruct (GetWriteNext (Sync (Buffers (Core m2)))) as [[Sync1 NextPtr]| | |]; try done.
  cbn. destruct (FindElementByKeyframe _ _); [|done].
  destruct (negb _); [done|].
  destruct (Deref Sync1 n); try done. cbn.
  destruct (Deref Sync1 NextPtr); try done. cbn.
  destruct D1, D2; cbn; rewrite Hd; destruct (Update _ _ _ _ _ _); cbn;
    unfold SimulationView; cbn; by rewrite Hi, Ht, Hp1, Hp2, Hp3.
Qed.

Lemma Tick_UpdateBlock_succeeds D cmd m :
  SyncReady m ->
  exists m', Tick_UpdateBlock D (LPIK m + 1) cmd m = Ok m' /\ SyncReady m'.
Proof.
  intros (Hcap & Hhead & Hn).
  assert (exists m', Tick_UpdateBlock D (LPIK m + 1) cmd m = Ok m') as [m' Hrun].
  { unfold Tick_UpdateBlock. rewrite GetWriteNext_Ok by done. cbn [mbind Result_bind].
    rewrite <- Hhead, FindElementByKeyframe_head by done.
    unfold GetHeadKeyframe at 1. cbn [Head]. unfold GetHeadKeyframe. rewrite Z.eqb_refl.
    cbn [negb].
    destruct (Deref_in_range
                (mkBuffer (Data (SyncBuffer m)) (Head (SyncBuffer m) + 1)
                   (Nat.min (S (NumValidElements (SyncBuffer m)))
                            (GetMaxNumElements (SyncBuffer m))))
                (SlotOfKeyframe (SyncBuffer m) (Head (SyncBuffer m))))
      as (Prev & -> & _); [cbn; by apply SlotOfKeyframe_lt|].
    destruct (Deref_in_range
                (mkBuffer (Data (SyncBuffer m)) (Head (SyncBuffer m) + 1)
                   (Nat.min (S (NumValidElements (SyncBuffer m)))
                            (GetMaxNumElements (SyncBuffer m))))
                (SlotOfKeyframe (SyncBuffer m) (Head (SyncBuffer m) + 1)))
      as (Next & -> & _); [cbn; by apply SlotOfKeyframe_lt|].
    cbn [mbind Result_bind]. destruct (Update _ _ _ _ _ _). by eexists. }
  exists m'. split; [done|].
  apply Tick_UpdateBlock_spec in Hrun as (_ & _ & Ht & _ & Hh & Hc & _ & Hv & _).
  unfold SyncReady. rewrite Hc, Hh, Ht. done.
Qed.

Lemma Tick_InputLoop_unfold fuel D m :
  Tick_InputLoop fuel D m =
  if MaxKF m <? LPIK m + 1
  then Ok m
  else
    match FindElementByKeyframe (LPIK m + 1) (InputBuffer m) with
    | Some NextCmdPtr =>
        NextCmd ← Deref (InputBuffer m) NextCmdPtr;
        if GetFrameDeltaTime NextCmd <=? Remaining m
        then
          match fuel with
          | O => OutOfFuel
          | S fuel' =>
              m1 ← Tick_UpdateBlock D (LPIK m + 1) NextCmd m;
              Tick_InputLoop fuel' D m1
          end
        else Ok m
    | None => Ok m
    end.
Proof. by destruct fuel. Qed.

(** The loop, seen from outside. *)
Lemma Tick_InputLoop_spec fuel D m m' :
  Tick_InputLoop fuel D m = Ok m' ->
  InputBuffer m' = InputBuffer m /\
  AuxBuffer m' = AuxBuffer m /\
  MaxKF m' = MaxKF m /\
  LPIK m <= LPIK m' /\
  LoopAtRest m' /\
  exists calls,
    Trace m' = Trace m ++ (CallUpdate <$> calls) /\
    uc_Keyframe <$> calls = seqZ (LPIK m + 1) (LPIK m' - LPIK m) /\
    Forall (fun c => uc_AuxState c = TAuxState_ctor /\
                     ElementAt (uc_Keyframe c) (InputBuffer m) = Some (uc_InputCmd c)) calls /\
    Total m' = Total m + foldr Z.add 0 ((GetFrameDeltaTime ∘ uc_InputCmd) <$> calls).
Proof.
  revert m. induction fuel as [|fuel IH]; intros m; rewrite Tick_InputLoop_unfold.
  all: destruct (Z.ltb_spec (MaxKF m) (LPIK m + 1)) as [Hmax|Hmax].
  all: try (intros [= <-]; repeat split; try done; try lia;
            [by left | exists []; rewrite app_nil_r, Z.sub_diag; cbn;
                       repeat split; try done; lia]).
  all: destruct (FindElementByKeyframe _ _) as [Ptr|] eqn:HFind.
  all: try (intros [= <-]; repeat split; try done; try lia;
            [right; by left | exists []; rewrite app_nil_r, Z.sub_diag; cbn;
                       repeat split; try done; lia]).
  all: destruct (Deref (InputBuffer m) Ptr) as [cmd| | |] eqn:HCmd;
    cbn [mbind Result_bind]; try done.
  all: assert (ElementAt (LPIK m + 1) (InputBuffer m) = Some cmd) as HEl
      by (unfold ElementAt; rewrite HFind; by apply Deref_Ok).
  all: destruct (Z.leb_spec (GetFrameDeltaTime cmd) (Remaining m)) as [Hdt|Hdt].
  all: try (intros [= <-]; repeat split; try done; try lia;
            [right; right; by exists cmd | exists []; rewrite app_nil_r, Z.sub_diag; cbn;
                       repeat split; try done; lia]).
  1: done.
  destruct (Tick_UpdateBlock D (LPIK m + 1) cmd m) as [m1| | |] eqn:HBlock;
    cbn [mbind Result_bind]; try done.
  intros Hrest. apply IH in Hrest as (Hi & Ha & Hm & Hl & Hrest & calls & Htr & Hks & Hall & Htot).
  apply Tick_UpdateBlock_spec in HBlock
    as (Hi1 & Ha1 & Ht1 & _ & _ & _ & _ & _ & Prev & Next & Htr1).
  assert (LPIK m1 = LPIK m + 1) as Hl1 by (by rewrite Ht1).
  assert (MaxKF m1 = MaxKF m) as Hm1 by (by rewrite Ht1).
  assert (Total m1 = Total m + GetFrameDeltaTime cmd) as Htot1 by (by rewrite Ht1).
  repeat split; try congruence; try lia; try done.
  eexists (_ :: calls). repeat split.
  - rewrite Htr, Htr1, <- app_assoc. done.
  - cbn [fmap list_fmap uc_Keyframe]. rewrite Hks, Hl1.
    rewrite (seqZ_cons (LPIK m + 1)) by lia. f_equal. f_equal; lia.
  - constructor; [done|]. by rewrite <- Hi1.
  - rewrite Htot, Htot1. cbn. lia.
Qed.

Lemma Tick_InputLoop_set_Aux fuel D a m :
  Tick_InputLoop fuel D (set_Aux a m) = set_Aux a <$> Tick_InputLoop fuel D m.
Proof.
  revert m. induction fuel as [|fuel IH]; intros m; rewrite !Tick_InputLoop_unfold.
  all: unfold Tick_Info, InputBuffer; cbn [set_Aux set_Buffers set_Core Core TickInfo
                                           Buffers Input].
  all: destruct (_ <? _); [done|].
  all: destruct (FindElementByKeyframe _ _); [|done].
  all: destruct (Deref _ _); try done; cbn [mbind Result_bind].
  all: destruct (_ <=? _); [|done].
  1: done.
  rewrite Tick_UpdateBlock_set_Aux.
  destruct (Tick_UpdateBlock _ _ _ _); try done. cbn. apply IH.
Qed.

Lemma SimulationView_inv m1 m2 :
  SimulationView m1 = SimulationView m2 ->
  Driver (Core m1) = Driver (Core m2) /\ InputBuffer m1 = InputBuffer m2 /\
  SyncBuffer m1 = SyncBuffer m2 /\ Tick_Info m1 = Tick_Info m2 /\
  RepProxy_ServerRPC m1 = RepProxy_ServerRPC m2 /\
  RepProxy_Autonomous m1 = RepProxy_Autonomous m2 /\
  RepProxy_Simulated m1 = RepProxy_Simulated m2.
Proof. unfold SimulationView. by intros [= -> -> -> -> -> -> ->]. Qed.

(** Two results that agree on the simulation proper, failures included. *)
Lemma view_results_inv (r1 r2 : Result TNetworkedSimulationModel) m1 m2 :
  SimulationView <$> r1 = SimulationView <$> r2 ->
  r1 = Ok m1 -> r2 = Ok m2 -> SimulationView m1 = SimulationView m2.
Proof. intros Hv -> ->. cbn in Hv. congruence. Qed.

Lemma Tick_InputLoop_view fuel D1 D2 m1 m2 :
  SimulationView m1 = SimulationView m2 ->
  SimulationView <$> Tick_InputLoop fuel D1 m1 =
  SimulationView <$> Tick_InputLoop fuel D2 m2.
Proof.
  revert m1 m2. induction fuel as [|fuel IH]; intros m1 m2 Hv;
    rewrite !Tick_InputLoop_unfold.
  all: pose proof (SimulationView_inv _ _ Hv) as (Hd & Hi & Hs & Ht & _).
  all: rewrite Hi, Ht.
  all: destruct (_ <? _); [by cbn; f_equal|].
  all: destruct (FindElementByKeyframe _ _); [|by cbn; f_equal].
  all: destruct (Deref _ _); try done; cbn [mbind Result_bind].
  all: destruct (_ <=? _); [|by cbn; f_equal].
  1: done.
  pose proof (Tick_UpdateBlock_view D1 D2 (LPIK m2 + 1) a m1 m2 Hv) as Hb.
  destruct (Tick_UpdateBlock D1 _ _ m1), (Tick_UpdateBlock D2 _ _ m2);
    cbn in Hb; try discriminate Hb; try done.
  cbn [mbind Result_bind]. apply IH. congruence.
Qed.

Lemma Tick_UpdateBlock_not_OutOfFuel D K cmd m :
  Tick_UpdateBlock D K cmd m <> OutOfFuel.
Proof.
  unfold Tick_UpdateBlock, GetWriteNext, Deref.
  destruct (Nat.eqb _ 0); [done|]. cbn [mbind Result_bind].
  destruct (FindElementByKeyframe _ _); [|done].
  destruct (negb _); [done|]. cbn [Data].
  destruct (_ !! n); cbn [mbind Result_bind]; [|done].
  destruct (_ !! _); cbn [mbind Result_bind]; [|done].
  by destruct (Update _ _ _ _ _ _).
Qed.

(** With the fuel [Tick] gives it, the loop reaches one of its breaks. *)
Lemma Tick_fuel_sufficient fuel D m :
  (Tick_fuel m <= fuel)%nat -> Tick_InputLoop fuel D m <> OutOfFuel.
Proof.
  revert m. induction fuel as [|fuel IH]; intros m Hf; rewrite Tick_InputLoop_unfold.
  all: destruct (Z.ltb_spec (MaxKF m) (LPIK m + 1)) as [Hmax|Hmax]; [done|].
  { unfold Tick_fuel in Hf. lia. }
  destruct (FindElementByKeyframe _ _); [|done].
  unfold Deref at 1. destruct (_ !! _) as [cmd|]; cbn [mbind Result_bind]; [|done].
  destruct (_ <=? _); [|done].
  pose proof (Tick_UpdateBlock_not_OutOfFuel D (LPIK m + 1) cmd m) as Hno.
  destruct (Tick_UpdateBlock D _ cmd m) as [m1| | |] eqn:HBlock; try done.
  cbn [mbind Result_bind]. apply IH.
  apply Tick_UpdateBlock_spec in HBlock as (_ & _ & Ht & _).
  unfold Tick_fuel in *. rewrite Ht. cbn. lia.
Qed.

(** From a ready sync buffer the loop runs to a break without failing. *)
Lemma Tick_InputLoop_succeeds fuel D m :
  SyncReady m -> BufferWf (InputBuffer m) -> (Tick_fuel m <= fuel)%nat ->
  exists m', Tick_InputLoop fuel D m = Ok m' /\ SyncReady m'.
Proof.
  revert m. induction fuel as [|fuel IH]; intros m Hr Hwf Hf;
    rewrite Tick_InputLoop_unfold.
  all: destruct (Z.ltb_spec (MaxKF m) (LPIK m + 1)) as [Hmax|Hmax]; [by exists m|].
  { unfold Tick_fuel in Hf. lia. }
  destruct (FindElementByKeyframe _ _) as [Ptr|] eqn:HFind; [|by exists m].
  apply FindElementByKeyframe_Some in HFind as [Hwin ->].
  destruct (Deref_in_range (InputBuffer m) (SlotOfKeyframe (InputBuffer m) (LPIK m + 1)))
    as (cmd & -> & _).
  { apply SlotOfKeyframe_lt.
    unfold BufferWf, GetTailKeyframe, GetHeadKeyframe in *. lia. }
  cbn [mbind Result_bind].
  destruct (_ <=? _); [|by exists m].
  destruct (Tick_UpdateBlock_succeeds D cmd m Hr) as (m1 & HBlock & Hr1).
  rewrite HBlock. cbn [mbind Result_bind].
  apply Tick_UpdateBlock_spec in HBlock as (Hi & _ & Ht & _).
  apply IH; [done|by rewrite Hi|].
  unfold Tick_fuel in *. rewrite Ht. cbn. lia.
Qed.

(** *** Reading the events *)

Lemma UpdateCalls_app tr1 tr2 :
  UpdateCalls (tr1 ++ tr2) = UpdateCalls tr1 ++ UpdateCalls tr2.
Proof. apply omap_app. Qed.

Lemma UpdateCalls_of_calls (calls : list UpdateCall) :
  UpdateCalls (CallUpdate <$> calls) = calls.
Proof.
  unfold UpdateCalls. induction calls as [|c calls IH]; [done|]. cbn. by rewrite IH.
Qed.

Lemma UpdateKeyframes_calls tr : UpdateKeyframes tr = uc_Keyframe <$> UpdateCalls tr.
Proof.
  unfold UpdateKeyframes, UpdateCalls.
  induction tr as [|e tr IH]; [done|]. destruct e; cbn; try done. by rewrite IH.
Qed.

(** *** Bringing the sync buffer in line *)

Lemma Tick_ResetSyncState_aligned m :
  GetHeadKeyframe (SyncBuffer m) = LPIK m -> Tick_ResetSyncState m = Ok m.
Proof. intros Hh. unfold Tick_ResetSyncState. by rewrite Hh, Z.eqb_refl. Qed.

Lemma Tick_ResetSyncState_reseeds m :
  GetHeadKeyframe (SyncBuffer m) <> LPIK m ->
  (0 < GetMaxNumElements (SyncBuffer m))%nat ->
  exists Sync2 Ptr Element m1,
    GetWriteNext (ResetNextHeadKeyframe (LPIK m) (SyncBuffer m)) = Ok (Sync2, Ptr) /\
    Deref Sync2 Ptr = Ok Element /\
    Tick_ResetSyncState m = Ok m1 /\
    SyncBuffer m1 = Store Ptr (InitSyncState (Driver (Core m)) Element) Sync2 /\
    Tick_Info m1 = SetTotalProcessedSimulationTime (Total m) (LPIK m) (Tick_Info m) /\
    Trace m1 =
      Trace m ++
      (if LPIK m =? 0 then []
       else [LogWarning_SyncContinuity (GetDebugName (Driver (Core m))) (LPIK m)
                                       (GetHeadKeyframe (SyncBuffer m))]) ++
      [CallInitSyncState (LPIK m)] /\
    InputBuffer m1 = InputBuffer m /\
    AuxBuffer m1 = AuxBuffer m /\
    Driver (Core m1) = Driver (Core m) /\
    GetHeadKeyframe (SyncBuffer m1) = LPIK m /\
    ElementAt (LPIK m) (SyncBuffer m1) = Some (InitSyncState (Driver (Core m)) Element) /\
    SyncReady m1.
Proof.
  intros Hne Hcap.
  set (Sync1 := ResetNextHeadKeyframe (LPIK m) (SyncBuffer m)).
  assert (GetMaxNumElements Sync1 = GetMaxNumElements (SyncBuffer m)) as Hcap1 by done.
  assert (Head Sync1 + 1 = LPIK m) as Hhead1 by (cbn; lia).
  pose proof (GetWriteNext_Ok Sync1) as HW. rewrite Hcap1 in HW. specialize (HW Hcap).
  set (Sync2 := mkBuffer (Data Sync1) (Head Sync1 + 1)
                         (Nat.min (S (NumValidElements Sync1))
                                  (GetMaxNumElements (SyncBuffer m)))) in *.
  set (Ptr := SlotOfKeyframe Sync1 (Head Sync1 + 1)) in *.
  assert (Ptr < length (Data Sync2))%nat as HPtr by (by apply (SlotOfKeyframe_lt Sync1)).
  destruct (Deref_in_range Sync2 Ptr HPtr) as (Element & HEl & HElD).
  exists Sync2, Ptr, Element.
  assert (forall m0 : TNetworkedSimulationModel,
             SyncBuffer m0 = SyncBuffer m -> Tick_Info m0 = Tick_Info m ->
             Driver (Core m0) = Driver (Core m) ->
             GetWriteNext (ResetNextHeadKeyframe (LPIK m) (SyncBuffer m0))
             ≫= (fun '(S2, P) =>
                   E ← Deref S2 P;
                   let S3 := Store P (InitSyncState (Driver (Core m0)) E) S2 in
                   let m2 := emit (CallInitSyncState (GetHeadKeyframe S3)) (set_Sync S3 m0) in
                   Ok (set_TickInfo
                         (SetTotalProcessedSimulationTime
                            (GetTotalProcessedSimulationTime (Tick_Info m2))
                            (GetHeadKeyframe (SyncBuffer m2)) (Tick_Info m2)) m2)) =
             Ok (set_TickInfo
                   (SetTotalProcessedSimulationTime (Total m) (LPIK m) (Tick_Info m))
                   (emit (CallInitSyncState (LPIK m))
                      (set_Sync (Store Ptr (InitSyncState (Driver (Core m)) Element) Sync2) m0))))
    as Hrun.
  { intros m0 Hs Ht Hd. rewrite Hs. fold Sync1. rewrite HW. cbn [mbind Result_bind].
    rewrite HEl. cbn [mbind Result_bind]. rewrite Hd.
    unfold GetHeadKeyframe, SyncBuffer, Tick_Info in *. cbn. rewrite Ht.
    unfold GetTotalProcessedSimulationTime.
    by replace (LastProcessedInputKeyframe (TickInfo (Core m)) - 1 + 1)
      with (LastProcessedInputKeyframe (TickInfo (Core m))) by lia. }
  unfold Tick_ResetSyncState.
  rewrite (proj2 (Z.eqb_neq _ _) Hne). cbn [negb].
  assert (ElementAt (LPIK m) (Store Ptr (InitSyncState (Driver (Core m)) Element) Sync2) =
          Some (InitSyncState (Driver (Core m)) Element)) as HAt.
  { unfold ElementAt.
    rewrite (proj2 (FindElementByKeyframe_Some (LPIK m) _ Ptr)).
    - cbn. by apply list_lookup_insert_eq.
    - unfold GetTailKeyframe, GetHeadKeyframe, SlotOfKeyframe, GetMaxNumElements. cbn.
      rewrite length_insert. split.
      + destruct (GetMaxNumElements (SyncBuffer m)); lia.
      + subst Ptr. unfold SlotOfKeyframe, GetMaxNumElements. cbn.
        do 2 f_equal. lia. }
  assert (forall msync : TNetworkedSimulationModel,
             SyncBuffer msync = Store Ptr (InitSyncState (Driver (Core m)) Element) Sync2 ->
             LPIK msync = LPIK m -> SyncReady msync) as HReady.
  { intros msync Hs Hl. unfold SyncReady. rewrite Hs, Hl.
    unfold GetMaxNumElements, GetHeadKeyframe, Store in *.
    cbn [Data Head NumValidElements]. rewrite length_insert.
    subst Sync2. cbn [Data Head NumValidElements].
    repeat split; [done|lia|].
    unfold GetMaxNumElements. lia. }
  destruct (LPIK m =? 0) eqn:Hz; cbn [negb].
  - eexists. split; [done|]. split; [done|]. split; [by apply Hrun|].
    cbn. rewrite HAt. do 8 (split; [try done; try lia|]). by apply HReady.
  - eexists. split; [done|]. split; [done|]. split; [by apply Hrun|].
    cbn. rewrite HAt, <- app_assoc. do 8 (split; [try done; try lia|]). by apply HReady.
Qed.

Lemma Tick_ResetSyncState_spec m m1 :
  Tick_ResetSyncState m = Ok m1 ->
  InputBuffer m1 = InputBuffer m /\
  AuxBuffer m1 = AuxBuffer m /\
  LPIK m1 = LPIK m /\ MaxKF m1 = MaxKF m /\ Total m1 = Total m /\
  Remaining m1 = Remaining m /\
  UpdateCalls (Trace m1) = UpdateCalls (Trace m) /\
  (GetHeadKeyframe (SyncBuffer m) = LPIK m -> m1 = m) /\
  (GetHeadKeyframe (SyncBuffer m) <> LPIK m -> SyncReady m1).
Proof.
  intros Hrun. destruct (decide (GetHeadKeyframe (SyncBuffer m) = LPIK m)) as [Heq|Hne].
  - rewrite Tick_ResetSyncState_aligned in Hrun by done. simplify_eq. by repeat split.
  - assert (0 < GetMaxNumElements (SyncBuffer m))%nat as Hcap.
    { destruct (GetMaxNumElements (SyncBuffer m)) eqn:Hc; [|lia]. exfalso.
      unfold Tick_ResetSyncState in Hrun.
      rewrite (proj2 (Z.eqb_neq _ _) Hne) in Hrun. cbn [negb] in Hrun.
      unfold GetWriteNext in Hrun.
      replace (GetMaxNumElements (ResetNextHeadKeyframe (LPIK m) _)) with 0%nat in Hrun;
        [done|].
      by destruct (negb (LPIK m =? 0)). }
    destruct (Tick_ResetSyncState_reseeds m Hne Hcap)
      as (S2 & P & E & m1' & _ & _ & Hrun' & _ & Ht & Htr & Hi & Ha & _ & _ & _ & Hr).
    rewrite Hrun in Hrun'. simplify_eq.
    do 2 (split; [done|]). do 4 (split; [by rewrite Ht|]).
    split; [|split; [done|by intros _]].
    rewrite Htr, !UpdateCalls_app. destruct (LPIK m =? 0); cbn; by rewrite app_nil_r.
Qed.

Lemma Tick_ResetSyncState_set_Aux a m :
  Tick_ResetSyncState (set_Aux a m) = set_Aux a <$> Tick_ResetSyncState m.
Proof.
  unfold Tick_ResetSyncState, SyncBuffer, Tick_Info. cbn.
  destruct (negb (_ =? _)); [|done].
  destruct (negb (_ =? 0)); cbn.
  all: destruct (GetWriteNext _) as [[S2 P]| | |]; try done; cbn.
  all: destruct (Deref S2 P); try done.
Qed.

Lemma Tick_ResetSyncState_view m1 m2 :
  SimulationView m1 = SimulationView m2 ->
  SimulationView <$> Tick_ResetSyncState m1 = SimulationView <$> Tick_ResetSyncState m2.
Proof.
  intros Hv. pose proof (SimulationView_inv _ _ Hv) as (Hd & Hi & Hs & Ht & Hp1 & Hp2 & Hp3).
  unfold Tick_ResetSyncState. rewrite Hs, Ht.
  destruct (negb (_ =? _)); [|by cbn; f_equal].
  unfold SimulationView, SyncBuffer, InputBuffer, Tick_Info in *.
  destruct (negb (_ =? 0)); cbn; rewrite Hs.
  all: destruct (GetWriteNext _) as [[S2 P]| | |]; try done; cbn.
  all: destruct (Deref S2 P); try done; cbn.
  all: by rewrite Hd, Hi, Ht, Hp1, Hp2, Hp3.
Qed.

(** *** Input processing as a whole *)

Lemma Tick_ProcessInput_not_OutOfFuel D m : Tick_ProcessInput D m <> OutOfFuel.
Proof.
  unfold Tick_ProcessInput. destruct (_ <? _); [|done].
  destruct (Tick_ResetSyncState m) as [m1| | |] eqn:Hreset; try done.
  - cbn [mbind Result_bind]. by apply Tick_fuel_sufficient.
  - exfalso. revert Hreset. unfold Tick_ResetSyncState, GetWriteNext, Deref.
    destruct (negb (_ =? _)); [|done].
    destruct (Nat.eqb _ 0); [done|]. cbn [mbind Result_bind].
    by destruct (_ !! _).
Qed.


Lemma Tick_ProcessInput_set_Aux D a m :
  Tick_ProcessInput D (set_Aux a m) = set_Aux a <$> Tick_ProcessInput D m.
Proof.
  unfold Tick_ProcessInput. rewrite Tick_ResetSyncState_set_Aux.
  change (GetHeadKeyframe (SyncBuffer (set_Aux a m))) with (GetHeadKeyframe (SyncBuffer m)).
  change (GetHeadKeyframe (InputBuffer (set_Aux a m))) with (GetHeadKeyframe (InputBuffer m)).
  destruct (_ <? _); [|done].
  destruct (Tick_ResetSyncState m) as [m1| | |]; try done. cbn [fmap Result_fmap mbind Result_bind].
  change (Tick_fuel (set_Aux a m1)) with (Tick_fuel m1).
  apply Tick_InputLoop_set_Aux.
Qed.

Lemma Tick_ProcessInput_view D1 D2 m1 m2 :
  SimulationView m1 = SimulationView m2 ->
  SimulationView <$> Tick_ProcessInput D1 m1 = SimulationView <$> Tick_ProcessInput D2 m2.
Proof.
  intros Hv. pose proof (SimulationView_inv _ _ Hv) as (_ & Hi & Hs & _).
  unfold Tick_ProcessInput. rewrite Hi, Hs.
  destruct (_ <? _); [|by cbn; f_equal].
  pose proof (Tick_ResetSyncState_view m1 m2 Hv) as Hr.
  destruct (Tick_ResetSyncState m1) as [m1'| | |], (Tick_ResetSyncState m2) as [m2'| | |];
    cbn in Hr; try discriminate Hr; try done.
  cbn [mbind Result_bind].
  assert (SimulationView m1' = SimulationView m2') as Hv' by congruence.
  pose proof (SimulationView_inv _ _ Hv') as (_ & _ & _ & Ht & _).
  unfold Tick_fuel. rewrite Ht. by apply Tick_InputLoop_view.
Qed.

Lemma Tick_ProcessInput_spec D m m' :
  Tick_ProcessInput D m = Ok m' ->
  InputBuffer m' = InputBuffer m /\
  AuxBuffer m' = AuxBuffer m /\
  MaxKF m' = MaxKF m /\
  LPIK m <= LPIK m' /\
  exists calls,
    UpdateCalls (Trace m') = UpdateCalls (Trace m) ++ calls /\
    uc_Keyframe <$> calls = seqZ (LPIK m + 1) (LPIK m' - LPIK m) /\
    Forall (fun c => uc_AuxState c = TAuxState_ctor /\
                     ElementAt (uc_Keyframe c) (InputBuffer m) = Some (uc_InputCmd c)) calls /\
    Total m' = Total m + foldr Z.add 0 ((GetFrameDeltaTime ∘ uc_InputCmd) <$> calls).
Proof.
  unfold Tick_ProcessInput. destruct (_ <? _).
  - destruct (Tick_ResetSyncState m) as [m1| | |] eqn:Hreset; try done.
    cbn [mbind Result_bind]. intros Hloop.
    apply Tick_ResetSyncState_spec in Hreset as (Hi & Ha & Hl & Hm & Ht & _ & Hc & _).
    apply Tick_InputLoop_spec in Hloop
      as (Hi' & Ha' & Hm' & Hl' & _ & calls & Htr & Hks & Hall & Htot).
    repeat split; try congruence; try lia.
    exists calls. rewrite Htr, UpdateCalls_app, UpdateCalls_of_calls, Hc.
    rewrite <- Hl, <- Hi, <- Ht. done.
  - intros [= <-]. repeat split; try done; try lia.
    exists []. rewrite app_nil_r, Z.sub_diag. cbn. repeat split; try done. lia.
Qed.

(** *** Sums of frame delta times *)




(** *** The input loop and the keyframes it consumes *)



(** C8.  Every [Update] call of a tick is handed [TAuxState()]; and with
    any other Aux buffer in place the tick makes the same calls with the same
    arguments and ends in the same state, the Aux buffer apart, which it
    leaves alone. *)
Theorem Tick_Update_gets_fresh_AuxState D m m' :
  Tick_ProcessInput D m = Ok m' ->
  (exists calls,
      UpdateCalls (Trace m') = UpdateCalls (Trace m) ++ calls /\
      Forall (fun c => uc_AuxState c = TAuxState_ctor) calls) /\
  AuxBuffer m' = AuxBuffer m /\
  (forall a, Tick_ProcessInput D (set_Aux a m) = Ok (set_Aux a m')).
Proof.
  intros Hrun. split; [|split].
  - apply Tick_ProcessInput_spec in Hrun as (_ & _ & _ & _ & calls & Hc & _ & Hall & _).
    exists calls. split; [done|]. eapply Forall_impl; [exact Hall|]. by intros c [? _].
  - by apply Tick_ProcessInput_spec in Hrun as (_ & Ha & _).
  - intros a. by rewrite Tick_ProcessInput_set_Aux, Hrun.
Qed.

(** *** Recovery from a break in continuity *)

(** C3.  When input is ahead of the sync buffer and the sync head is not
    the last processed keyframe, the tick resets the next sync head to that
    keyframe, takes the next element to write and has the driver fill it, so
    that the sync head is the last processed keyframe and holds the driver's
    state; stamps the unchanged total at that keyframe; logs one warning
    unless the last processed keyframe is 0; then runs the input loop from
    there, and the tick's input processing ends without failure. *)
Theorem Tick_recovers_from_sync_continuity_break D m :
  GetHeadKeyframe (SyncBuffer m) < GetHeadKeyframe (InputBuffer m) ->
  GetHeadKeyframe (SyncBuffer m) <> LPIK m ->
  (0 < GetMaxNumElements (SyncBuffer m))%nat ->
  BufferWf (InputBuffer m) ->
  exists Sync2 Ptr Element m1,
    GetWriteNext (ResetNextHeadKeyframe (LPIK m) (SyncBuffer m)) = Ok (Sync2, Ptr) /\
    Deref Sync2 Ptr = Ok Element /\
    SyncBuffer m1 = Store Ptr (InitSyncState (Driver (Core m)) Element) Sync2 /\
    GetHeadKeyframe (SyncBuffer m1) = LPIK m /\
    ElementAt (LPIK m) (SyncBuffer m1) = Some (InitSyncState (Driver (Core m)) Element) /\
    Tick_Info m1 = SetTotalProcessedSimulationTime (Total m) (LPIK m) (Tick_Info m) /\
    Trace m1 =
      Trace m ++
      (if LPIK m =? 0 then []
       else [LogWarning_SyncContinuity (GetDebugName (Driver (Core m))) (LPIK m)
                                       (GetHeadKeyframe (SyncBuffer m))]) ++
      [CallInitSyncState (LPIK m)] /\
    Warnings (Trace m1) =
      Warnings (Trace m) ++
      (if LPIK m =? 0 then [] else [(LPIK m, GetHeadKeyframe (SyncBuffer m))]) /\
    Tick_ProcessInput D m = Tick_InputLoop (Tick_fuel m1) D m1 /\
    exists m', Tick_ProcessInput D m = Ok m'.
Proof.
  intros Hahead Hne Hcap Hwf.
  destruct (Tick_ResetSyncState_reseeds m Hne Hcap)
    as (Sync2 & Ptr & Element & m1 & HW & HE & Hrun & Hs & Ht & Htr & Hi & _ & _ & Hh & HAt & Hr).
  exists Sync2, Ptr, Element, m1. do 7 (split; [done|]).
  assert (Tick_ProcessInput D m = Tick_InputLoop (Tick_fuel m1) D m1) as Hgo.
  { unfold Tick_ProcessInput. rewrite (proj2 (Z.ltb_lt _ _) Hahead), Hrun. done. }
  split; [|split; [done|]].
  - rewrite Htr. unfold Warnings. rewrite !omap_app.
    by destruct (LPIK m =? 0).
  - rewrite Hgo.
    destruct (Tick_InputLoop_succeeds (Tick_fuel m1) D m1) as (m' & Hm' & _);
      [done|by rewrite Hi|done|]. by exists m'.
Qed.

(** *** The time budget *)

Lemma ElementAt_inv {T : Type} k (b : TReplicationBuffer T) v :
  ElementAt k b = Some v ->
  FindElementByKeyframe k b = Some (SlotOfKeyframe b k) /\
  Deref b (SlotOfKeyframe b k) = Ok v /\
  k <= GetHeadKeyframe b.
Proof.
  unfold ElementAt. destruct (FindElementByKeyframe k b) as [Ptr|] eqn:HF; [|done].
  apply FindElementByKeyframe_Some in HF as [Hwin ->]. intros Hd.
  split; [done|]. split; [by apply Deref_Ok|lia].
Qed.

(** When the budget does not cover the next command the loop breaks at
    once. *)
Lemma Tick_InputLoop_budget_short fuel D m cmd :
  ElementAt (LPIK m + 1) (InputBuffer m) = Some cmd ->
  Remaining m < GetFrameDeltaTime cmd ->
  Tick_InputLoop fuel D m = Ok m.
Proof.
  intros HEl Hshort. apply ElementAt_inv in HEl as (HF & HD & _).
  rewrite Tick_InputLoop_unfold. destruct (_ <? _); [done|].
  rewrite HF, HD. cbn [mbind Result_bind].
  unfold GetRemainingAllowedSimulationTime.
  by rewrite (proj2 (Z.leb_gt _ _) Hshort).
Qed.

(** When the budget covers it, a ready tick processes the next command
    first. *)
Lemma Tick_InputLoop_budget_covers D m cmd :
  ElementAt (LPIK m + 1) (InputBuffer m) = Some cmd ->
  GetFrameDeltaTime cmd <= Remaining m ->
  LPIK m + 1 <= MaxKF m ->
  SyncReady m -> BufferWf (InputBuffer m) ->
  exists m2 c calls,
    Tick_InputLoop (Tick_fuel m) D m = Ok m2 /\
    UpdateCalls (Trace m2) = UpdateCalls (Trace m) ++ c :: calls /\
    uc_Keyframe c = LPIK m + 1 /\ uc_InputCmd c = cmd /\
    LPIK m + 1 <= LPIK m2.
Proof.
  intros HEl Hdt Hmax Hr Hwf. apply ElementAt_inv in HEl as (HF & HD & _).
  destruct (Tick_fuel m) as [|fuel] eqn:Hfuel; [unfold Tick_fuel in Hfuel; lia|].
  rewrite Tick_InputLoop_unfold.
  rewrite (proj2 (Z.ltb_ge _ _)) by lia.
  rewrite HF, HD. cbn [mbind Result_bind].
  unfold GetRemainingAllowedSimulationTime. rewrite (proj2 (Z.leb_le _ _) Hdt).
  destruct (Tick_UpdateBlock_succeeds D cmd m Hr) as (mb & HBlock & Hrb).
  rewrite HBlock. cbn [mbind Result_bind].
  apply Tick_UpdateBlock_spec in HBlock
    as (Hi & _ & Ht & _ & _ & _ & _ & _ & Prev & Next & Htr).
  destruct (Tick_InputLoop_succeeds fuel D mb) as (m2 & Hloop & _);
    [done|by rewrite Hi| |].
  { unfold Tick_fuel in *. rewrite Ht. cbn. lia. }
  exists m2. eexists. rewrite Hloop.
  apply Tick_InputLoop_spec in Hloop as (_ & _ & _ & Hl & _ & calls & Htr2 & _).
  exists calls. split; [done|].
  rewrite Htr2, Htr, !UpdateCalls_app, UpdateCalls_of_calls, <- app_assoc. cbn.
  split; [done|]. split; [done|]. split; [done|].
  rewrite Ht in Hl. cbn in Hl. lia.
Qed.

(** When the budget covers the next command and the command is in the
    Input buffer, input processing processes it first. *)
Lemma Tick_ProcessInput_budget_covers D m cmd :
  ElementAt (LPIK m + 1) (InputBuffer m) = Some cmd ->
  GetFrameDeltaTime cmd <= Remaining m ->
  LPIK m + 1 <= MaxKF m ->
  BufferWf (InputBuffer m) ->
  (0 < GetMaxNumElements (SyncBuffer m))%nat ->
  GetHeadKeyframe (SyncBuffer m) < GetHeadKeyframe (InputBuffer m) ->
  (GetHeadKeyframe (SyncBuffer m) = LPIK m -> (1 <= NumValidElements (SyncBuffer m))%nat) ->
  exists m2 c calls,
    Tick_ProcessInput D m = Ok m2 /\
    UpdateCalls (Trace m2) = UpdateCalls (Trace m) ++ c :: calls /\
    uc_Keyframe c = LPIK m + 1 /\ uc_InputCmd c = cmd /\
    LPIK m + 1 <= LPIK m2.
Proof.
  intros HEl Hdt Hmax Hwf Hcap Hahead Hhead.
  assert (exists m1, Tick_ResetSyncState m = Ok m1 /\ SyncReady m1) as (m1 & Hreset & Hr1).
  { destruct (decide (GetHeadKeyframe (SyncBuffer m) = LPIK m)) as [Heq|Hne].
    - exists m. split; [by apply Tick_ResetSyncState_aligned|]. split; [done|]. split; auto.
    - destruct (Tick_ResetSyncState_reseeds m Hne Hcap)
        as (? & ? & ? & m1 & _ & _ & Hrun & _ & _ & _ & _ & _ & _ & _ & _ & Hr).
      by exists m1. }
  pose proof (Tick_ResetSyncState_spec m m1 Hreset)
    as (Hi & _ & Hl & Hm & Ht & Hrem & Hc & _ & _).
  unfold Tick_ProcessInput. rewrite (proj2 (Z.ltb_lt _ _) Hahead), Hreset.
  cbn [mbind Result_bind].
  destruct (Tick_InputLoop_budget_covers D m1 cmd)
    as (m2 & c & calls & Hrun & Hcalls & Hk & Hcmd & Hl2).
  - by rewrite Hl, Hi.
  - by rewrite Hrem.
  - rewrite Hl, Hm. done.
  - done.
  - by rewrite Hi.
  - exists m2, c, calls. rewrite Hl, Hc in *. done.
Qed.

(** A keyframe that is not in the Input buffer is not processed. *)
Lemma Tick_ProcessInput_input_gone D m m' :
  ElementAt (LPIK m + 1) (InputBuffer m) = None ->
  Tick_ProcessInput D m = Ok m' ->
  LPIK m' = LPIK m /\ UpdateCalls (Trace m') = UpdateCalls (Trace m).
Proof.
  intros Hgone Hrun.
  apply Tick_ProcessInput_spec in Hrun as (_ & _ & _ & Hle & calls & Htr & Hks & Hall & _).
  destruct (decide (LPIK m' = LPIK m)) as [Heq|Hne].
  - split; [done|]. rewrite Htr. rewrite Heq, Z.sub_diag in Hks.
    destruct calls; [by rewrite app_nil_r|done].
  - exfalso. rewrite (seqZ_cons (LPIK m + 1)) in Hks by lia.
    destruct calls as [|c calls]; [done|]. injection Hks as Hk _.
    apply Forall_cons in Hall as [[_ Hc] _]. rewrite Hk in Hc. congruence.
Qed.

(** C6, as the code has it.  When the next command is there and allowed
    but the remaining simulation time is less than its frame delta time, the
    loop stops without error and without touching anything; the tick's input
    processing leaves the last processed keyframe, the total and the Input
    buffer as they were, calls no [Update], and leaves the whole state as it
    was unless it had to bring the sync buffer in line.  The command is
    processed, and processed first, by the input processing of a later tick
    for which it is still at its keyframe in the Input buffer, the budget
    covers it and the ceiling allows it, the refilled state at hand being one
    case; a tick that no longer finds the keyframe in the Input buffer
    processes nothing, whatever its budget. *)
Theorem Tick_budget_underflow_defers_input D m cmd :
  LPIK m + 1 <= MaxKF m ->
  ElementAt (LPIK m + 1) (InputBuffer m) = Some cmd ->
  Remaining m < GetFrameDeltaTime cmd ->
  BufferWf (InputBuffer m) ->
  (0 < GetMaxNumElements (SyncBuffer m))%nat ->
  GetHeadKeyframe (SyncBuffer m) < GetHeadKeyframe (InputBuffer m) ->
  (GetHeadKeyframe (SyncBuffer m) = LPIK m -> (1 <= NumValidElements (SyncBuffer m))%nat) ->
  (forall fuel, Tick_InputLoop fuel D m = Ok m) /\
  (exists m1,
    Tick_ProcessInput D m = Ok m1 /\
    LPIK m1 = LPIK m /\ Total m1 = Total m /\
    InputBuffer m1 = InputBuffer m /\
    UpdateCalls (Trace m1) = UpdateCalls (Trace m) /\
    (GetHeadKeyframe (SyncBuffer m) = LPIK m -> m1 = m) /\
    forall D' MaxKeyframe Allowance,
      LPIK m + 1 <= MaxKeyframe -> GetFrameDeltaTime cmd <= Allowance ->
      exists m2 c calls,
        Tick_ProcessInput D'
          (set_TickInfo (RefillBudget MaxKeyframe Allowance (Tick_Info m1)) m1) = Ok m2 /\
        UpdateCalls (Trace m2) = UpdateCalls (Trace m1) ++ c :: calls /\
        uc_Keyframe c = LPIK m + 1 /\ uc_InputCmd c = cmd /\
        LPIK m + 1 <= LPIK m2) /\
  (forall D' later,
      LPIK later = LPIK m ->
      ElementAt (LPIK m + 1) (InputBuffer later) = Some cmd ->
      GetFrameDeltaTime cmd <= Remaining later ->
      LPIK m + 1 <= MaxKF later ->
      BufferWf (InputBuffer later) ->
      (0 < GetMaxNumElements (SyncBuffer later))%nat ->
      GetHeadKeyframe (SyncBuffer later) < GetHeadKeyframe (InputBuffer later) ->
      (GetHeadKeyframe (SyncBuffer later) = LPIK later ->
       (1 <= NumValidElements (SyncBuffer later))%nat) ->
      exists m2 c calls,
        Tick_ProcessInput D' later = Ok m2 /\
        UpdateCalls (Trace m2) = UpdateCalls (Trace later) ++ c :: calls /\
        uc_Keyframe c = LPIK m + 1 /\ uc_InputCmd c = cmd /\
        LPIK m + 1 <= LPIK m2) /\
  (forall D' later m2,
      LPIK later = LPIK m ->
      ElementAt (LPIK m + 1) (InputBuffer later) = None ->
      Tick_ProcessInput D' later = Ok m2 ->
      LPIK m2 = LPIK m /\ UpdateCalls (Trace m2) = UpdateCalls (Trace later)).
Proof.
  intros Hmax HEl Hshort Hwf Hcap Hahead Hhead.
  split; [intros fuel; by apply (Tick_InputLoop_budget_short fuel D m cmd)|].
  split; [|split].
  2:{ intros D' later Hl HEl' Hdt' Hmax' Hwf' Hcap' Hahead' Hhead'.
      rewrite <- Hl in *. by apply Tick_ProcessInput_budget_covers. }
  2:{ intros D' later m2 Hl Hgone Hrun. rewrite <- Hl in *.
      by apply (Tick_ProcessInput_input_gone D'). }
  assert (exists m1, Tick_ResetSyncState m = Ok m1 /\ SyncReady m1) as (m1 & Hreset & Hr1).
  { destruct (decide (GetHeadKeyframe (SyncBuffer m) = LPIK m)) as [Heq|Hne].
    - exists m. split; [by apply Tick_ResetSyncState_aligned|]. split; [done|]. split; auto.
    - destruct (Tick_ResetSyncState_reseeds m Hne Hcap)
        as (? & ? & ? & m1 & _ & _ & Hrun & _ & _ & _ & _ & _ & _ & _ & _ & Hr).
      by exists m1. }
  pose proof (Tick_ResetSyncState_spec m m1 Hreset)
    as (Hi & _ & Hl & Hm & Ht & Hrem & Hc & Hsame & _).
  exists m1.
  assert (ElementAt (LPIK m1 + 1) (InputBuffer m1) = Some cmd) as HEl1 by (by rewrite Hl, Hi).
  split.
  { unfold Tick_ProcessInput. rewrite (proj2 (Z.ltb_lt _ _) Hahead), Hreset.
    cbn [mbind Result_bind].
    apply (Tick_InputLoop_budget_short _ D m1 cmd); [done|by rewrite Hrem]. }
  do 5 (split; [done|]).
  intros D' MaxKeyframe Allowance HmaxK Hallow.
  set (mr := set_TickInfo (RefillBudget MaxKeyframe Allowance (Tick_Info m1)) m1).
  assert (SyncReady mr) as Hrr by exact Hr1.
  assert (GetHeadKeyframe (SyncBuffer mr) = LPIK mr) as Hal by apply Hrr.
  pose proof (ElementAt_inv _ _ _ HEl1) as (_ & _ & Hle).
  unfold Tick_ProcessInput.
  rewrite (proj2 (Z.ltb_lt (GetHeadKeyframe (SyncBuffer mr)) (GetHeadKeyframe (InputBuffer mr)))).
  2: { rewrite Hal. change (LPIK mr) with (LPIK m1).
       change (InputBuffer mr) with (InputBuffer m1). lia. }
  rewrite Tick_ResetSyncState_aligned by done. cbn [mbind Result_bind].
  destruct (Tick_InputLoop_budget_covers D' mr cmd) as (m2 & c & calls & Hrun & Hcalls & Hk & Hcmd & Hl2);
    [exact HEl1|exact Hallow|change (LPIK m1 + 1 <= MaxKeyframe); lia|done
    |by rewrite <- Hi in Hwf|].
  exists m2, c, calls. split; [done|]. split; [done|].
  change (LPIK mr) with (LPIK m1) in *. rewrite Hl in *. done.
Qed.

(** *** Determinism *)

Lemma DebugAssign_view D f m : SimulationView (DebugAssign D f m) = SimulationView m.
Proof. by destruct D. Qed.

Lemma Tick_PrevDebugState_view Parameters m :
  SimulationView (Tick_PrevDebugState Parameters m) = SimulationView m.
Proof.
  unfold Tick_PrevDebugState. destruct (GetLocalDebugBuffer m); [|done].
  destruct (FindElementByKeyframe _ _); [|done]. by destruct (Role Parameters).
Qed.

Lemma Tick_NewDebugState_view GFrameNumber Parameters m m1 D :
  Tick_NewDebugState GFrameNumber Parameters m = Ok (m1, D) ->
  SimulationView m1 = SimulationView m.
Proof.
  unfold Tick_NewDebugState, GetNextLocalDebugStateWrite.
  destruct NETSIM_MODEL_DEBUG.
  - destruct (GetWriteNext (DebugBuffer m)) as [[d Ptr]| | |]; try done.
    cbn [mbind Result_bind]. destruct (Role Parameters); by intros [= <- <-].
  - cbn [mbind Result_bind]. by intros [= <- <-].
Qed.

Lemma Tick_FinishDebugState_view D m :
  SimulationView (Tick_FinishDebugState D m) = SimulationView m.
Proof. apply DebugAssign_view. Qed.

Lemma Tick_HistoricData_view m : SimulationView (Tick_HistoricData m) = SimulationView m.
Proof.
  unfold Tick_HistoricData, GetHistoricBuffers.
  destruct NETSIM_MODEL_DEBUG; [|done]. by destruct (HistoricBuffers m).
Qed.

Lemma CoreView_of_view m1 m2 :
  SimulationView m1 = SimulationView m2 -> CoreView (Core m1) = CoreView (Core m2).
Proof.
  intros Hv. apply SimulationView_inv in Hv as (Hd & Hi & Hs & Ht & _).
  unfold CoreView, InputBuffer, SyncBuffer, Tick_Info in *. congruence.
Qed.

Lemma Tick_PreSimTick_view Parameters m1 m2 m1' m2' :
  ProxiesKeepToSimulation ->
  SimulationView m1 = SimulationView m2 ->
  Tick_PreSimTick Parameters m1 = Ok m1' ->
  Tick_PreSimTick Parameters m2 = Ok m2' ->
  SimulationView m1' = SimulationView m2'.
Proof.
  intros (K1 & _ & K2 & _ & K3 & _) Hv.
  pose proof (CoreView_of_view _ _ Hv) as Hc.
  pose proof (SimulationView_inv _ _ Hv) as (_ & _ & _ & _ & Hp1 & Hp2 & Hp3).
  unfold Tick_PreSimTick. destruct (Role Parameters).
  - by intros [= <-] [= <-].
  - rewrite Hp3.
    destruct (PreSimTick Simulated_ops _ (Core m1) _) as [[p1 c1]| | |] eqn:E1; try done.
    destruct (PreSimTick Simulated_ops _ (Core m2) _) as [[p2 c2]| | |] eqn:E2; try done.
    cbn [mbind Result_bind]. intros [= <-] [= <-].
    destruct (K3 _ _ _ _ _ _ _ _ Hc E1 E2) as [-> Hc'].
    unfold CoreView in Hc'. unfold SimulationView, InputBuffer, SyncBuffer, Tick_Info. cbn.
    injection Hc' as -> -> -> ->. by rewrite Hp1, Hp2.
  - rewrite Hp2.
    destruct (PreSimTick Autonomous_ops _ (Core m1) _) as [[p1 c1]| | |] eqn:E1; try done.
    destruct (PreSimTick Autonomous_ops _ (Core m2) _) as [[p2 c2]| | |] eqn:E2; try done.
    cbn [mbind Result_bind]. intros [= <-] [= <-].
    destruct (K2 _ _ _ _ _ _ _ _ Hc E1 E2) as [-> Hc'].
    unfold CoreView in Hc'. unfold SimulationView, InputBuffer, SyncBuffer, Tick_Info. cbn.
    injection Hc' as -> -> -> ->. by rewrite Hp1, Hp3.
  - rewrite Hp1.
    destruct (PreSimTick ServerRPC_ops _ (Core m1) _) as [[p1 c1]| | |] eqn:E1; try done.
    destruct (PreSimTick ServerRPC_ops _ (Core m2) _) as [[p2 c2]| | |] eqn:E2; try done.
    cbn [mbind Result_bind]. intros [= <-] [= <-].
    destruct (K1 _ _ _ _ _ _ _ _ Hc E1 E2) as [-> Hc'].
    unfold CoreView in Hc'. unfold SimulationView, InputBuffer, SyncBuffer, Tick_Info. cbn.
    injection Hc' as -> -> -> ->. by rewrite Hp2, Hp3.
Qed.

Lemma Tick_PostSimTick_view Parameters m1 m2 m1' m2' :
  ProxiesKeepToSimulation ->
  SimulationView m1 = SimulationView m2 ->
  Tick_PostSimTick Parameters m1 = Ok m1' ->
  Tick_PostSimTick Parameters m2 = Ok m2' ->
  SimulationView m1' = SimulationView m2'.
Proof.
  intros (_ & K1 & _ & K2 & _ & K3) Hv.
  pose proof (CoreView_of_view _ _ Hv) as Hc.
  pose proof (SimulationView_inv _ _ Hv) as (_ & _ & _ & _ & Hp1 & Hp2 & Hp3).
  unfold Tick_PostSimTick. destruct (Role Parameters).
  - by intros [= <-] [= <-].
  - rewrite Hp3.
    destruct (PostSimTick Simulated_ops _ (Core m1) _) as [[p1 c1]| | |] eqn:E1; try done.
    destruct (PostSimTick Simulated_ops _ (Core m2) _) as [[p2 c2]| | |] eqn:E2; try done.
    cbn [mbind Result_bind]. intros [= <-] [= <-].
    destruct (K3 _ _ _ _ _ _ _ _ Hc E1 E2) as [-> Hc'].
    unfold CoreView in Hc'. unfold SimulationView, InputBuffer, SyncBuffer, Tick_Info. cbn.
    injection Hc' as -> -> -> ->. by rewrite Hp1, Hp2.
  - rewrite Hp2.
    destruct (PostSimTick Autonomous_ops _ (Core m1) _) as [[p1 c1]| | |] eqn:E1; try done.
    destruct (PostSimTick Autonomous_ops _ (Core m2) _) as [[p2 c2]| | |] eqn:E2; try done.
    cbn [mbind Result_bind]. intros [= <-] [= <-].
    destruct (K2 _ _ _ _ _ _ _ _ Hc E1 E2) as [-> Hc'].
    unfold CoreView in Hc'. unfold SimulationView, InputBuffer, SyncBuffer, Tick_Info. cbn.
    injection Hc' as -> -> -> ->. by rewrite Hp1, Hp3.
  - rewrite Hp1.
    destruct (PostSimTick ServerRPC_ops _ (Core m1) _) as [[p1 c1]| | |] eqn:E1; try done.
    destruct (PostSimTick ServerRPC_ops _ (Core m2) _) as [[p2 c2]| | |] eqn:E2; try done.
    cbn [mbind Result_bind]. intros [= <-] [= <-].
    destruct (K1 _ _ _ _ _ _ _ _ Hc E1 E2) as [-> Hc'].
    unfold CoreView in Hc'. unfold SimulationView, InputBuffer, SyncBuffer, Tick_Info. cbn.
    injection Hc' as -> -> -> ->. by rewrite Hp2, Hp3.
Qed.

(** One tick: whatever the frame counter, the debug and Aux buffers, the
    RPC pacing and the history are, the simulation proper after the tick is a
    function of the simulation proper before it. *)
Lemma Tick_view G1 G2 Parameters m1 m2 m1' m2' :
  ProxiesKeepToSimulation ->
  SimulationView m1 = SimulationView m2 ->
  Tick G1 Parameters m1 = Ok m1' ->
  Tick G2 Parameters m2 = Ok m2' ->
  SimulationView m1' = SimulationView m2'.
Proof.
  intros HK Hv. unfold Tick.
  destruct (Tick_NewDebugState G1 _ _) as [[a1 D1]| | |] eqn:EN1; try done.
  destruct (Tick_NewDebugState G2 _ _) as [[a2 D2]| | |] eqn:EN2; try done.
  cbn [mbind Result_bind].
  apply Tick_NewDebugState_view in EN1, EN2. rewrite Tick_PrevDebugState_view in EN1, EN2.
  destruct (Tick_PreSimTick Parameters a1) as [b1| | |] eqn:EP1; try done.
  destruct (Tick_PreSimTick Parameters a2) as [b2| | |] eqn:EP2; try done.
  cbn [mbind Result_bind].
  assert (SimulationView b1 = SimulationView b2) as Hb.
  { apply (Tick_PreSimTick_view Parameters a1 a2); try done. congruence. }
  pose proof (Tick_ProcessInput_view D1 D2 b1 b2 Hb) as Hproc.
  destruct (Tick_ProcessInput D1 b1) as [c1| | |] eqn:EI1; try done.
  destruct (Tick_ProcessInput D2 b2) as [c2| | |] eqn:EI2; try done.
  cbn [mbind Result_bind]. cbn in Hproc.
  destruct (Tick_PostSimTick Parameters c1) as [d1| | |] eqn:EQ1; try done.
  destruct (Tick_PostSimTick Parameters c2) as [d2| | |] eqn:EQ2; try done.
  cbn [mbind Result_bind]. intros [= <-] [= <-].
  rewrite !Tick_HistoricData_view, !Tick_FinishDebugState_view.
  apply (Tick_PostSimTick_view Parameters c1 c2); try done. congruence.
Qed.

(** C4.  Let the role proxies keep to the simulation proper.  Two
    instances that agree on driver, Input and Sync buffers, tick state and
    proxies, and are ticked with the same parameters frame after frame, show
    the same Sync buffer after every tick, whatever their Aux and Debug
    buffers, RPC pacing, history and frame counters. *)
Theorem Tick_runs_are_deterministic frames1 frames2 m1 m2 syncs1 syncs2 m1' m2' :
  ProxiesKeepToSimulation ->
  snd <$> frames1 = snd <$> frames2 ->
  SimulationView m1 = SimulationView m2 ->
  TickRun frames1 m1 = Ok (syncs1, m1') ->
  TickRun frames2 m2 = Ok (syncs2, m2') ->
  syncs1 = syncs2 /\ SimulationView m1' = SimulationView m2'.
Proof.
  intros HK. revert frames2 m1 m2 syncs1 syncs2.
  induction frames1 as [|[G1 P1] frames1 IH];
    intros [|[G2 P2] frames2] m1 m2 syncs1 syncs2 Hf Hv; try done.
  - by intros [= <- <-] [= <- <-].
  - cbn in Hf. injection Hf as -> Hf. cbn [TickRun].
    destruct (Tick G1 P2 m1) as [a1| | |] eqn:E1; try done.
    destruct (Tick G2 P2 m2) as [a2| | |] eqn:E2; try done.
    cbn [mbind Result_bind].
    pose proof (Tick_view G1 G2 P2 m1 m2 a1 a2 HK Hv E1 E2) as Ha.
    destruct (TickRun frames1 a1) as [[s1 b1]| | |] eqn:R1; try done.
    destruct (TickRun frames2 a2) as [[s2 b2]| | |] eqn:R2; try done.
    cbn [mbind Result_bind]. intros [= <- <-] [= <- <-].
    destruct (IH frames2 a1 a2 s1 s2 Hf Ha R1 R2) as [-> Hb].
    split; [|done]. f_equal. by apply SimulationView_inv in Ha as (_ & _ & -> & _).
Qed.

(** *** The debug target without the debug subsystem *)

(** C9.  With [NETSIM_MODEL_DEBUG] off, [NetSerializeProxy] and
    [GetProxyDirtyCount] with target [Debug] end in the assertion for an
    unknown target, and the four debug accessors return nothing. *)
Theorem Debug_target_asserts_when_compiled_out Params m :
  NETSIM_MODEL_DEBUG = false ->
  NetSerializeProxy EReplicationProxyTarget.Debug Params m = AssertFailed Unknown_target /\
  GetProxyDirtyCountOf EReplicationProxyTarget.Debug m = AssertFailed Unknown_target /\
  GetLocalDebugBuffer m = None /\
  GetNextLocalDebugStateWrite m = Ok (m, None) /\
  (forall bCreate, GetHistoricBuffers bCreate m = (m, None)) /\
  GetRemoteDebugBuffer m = None.
Proof.
  intros Hoff.
  unfold NetSerializeProxy, GetProxyDirtyCountOf, GetLocalDebugBuffer,
    GetNextLocalDebugStateWrite, GetHistoricBuffers, GetRemoteDebugBuffer.
  rewrite Hoff. by repeat split.
Qed.

End TickFacts.

(* ===================================================================== *)
(** ** The properties at work on the example *)
(* ===================================================================== *)

Module ExampleRuns.
Import Example.

#[local] Existing Instance Sim.

Lemma force_Ok {A : Type} (d : A) (r : Result A) : is_Ok r = true -> r = Ok (force d r).
Proof. by destruct r. Qed.

Lemma force_Ok_pair {A B : Type} (d : A * B) (r : Result (A * B)) :
  is_Ok r = true -> r = Ok (fst (force d r), snd (force d r)).
Proof. destruct r as [[a b]| | |]; done. Qed.

(** Evaluates a call of the example to the value [force] names. *)
Ltac by_running := apply force_Ok; vm_compute; reflexivity.

Lemma Example_proxies_keep_to_simulation debug : @ProxiesKeepToSimulation (Sim debug).
Proof.
  assert (@KeepsToSimulation (Sim debug) unit (fun p c _ => Ok (p, c))) as Hidle.
  { intros [] a1 a2 ps q1 b1 q2 b2 Hv [= <- <-] [= <- <-]. done. }
  do 2 (split; [exact Hidle|]). split; [|split; [exact Hidle|split; exact Hidle]].
  intros [] c1 c2 ps [] c1' [] c2' Hv. unfold CoreView in Hv. injection Hv as Hd Hi Hs Ht.
  cbn [PreSimTick Autonomous_ops Sim Predictor_ops]. unfold Autonomous_PreSimTick.
  rewrite Hd, Hi, Ht.
  destruct (GetWriteNext _) as [[I1 Ptr]| | |]; try done.
  cbn [mbind Result_bind]. intros [= <-] [= <-]. split; [done|].
  unfold CoreView. cbn. by rewrite Hs.
Qed.

Example Primed3_processes_three :
  Tick_ProcessInput None (Primed 3) = Ok Processed3 /\
  UpdateKeyframes (Trace Processed3) = [1; 2; 3] /\
  SyncBuffer Processed3 = mkBuffer [7; 8; 10; 13] 3 4.
Proof. split; [by_running|]. split; vm_compute; reflexivity. Qed.



Lemma Tick_Update_gets_fresh_AuxState_witness :
  @Tick_ProcessInput (Sim false) None (@set_Aux (Sim false) OtherAux (Primed 3)) =
  Ok (@set_Aux (Sim false) OtherAux Processed3).
Proof.
  refine (proj2 (proj2 (@Tick_Update_gets_fresh_AuxState (Sim false) None
                          (Primed 3) Processed3 _)) OtherAux).
  by_running.
Defined.

Lemma Tick_recovers_from_sync_continuity_break_witness :
  exists m', Tick_ProcessInput None Broken = Ok m'.
Proof.
  destruct (Tick_recovers_from_sync_continuity_break None Broken)
    as (Sync2 & Ptr & Element & m1 & _ & _ & _ & _ & _ & _ & _ & _ & _ & Hok).
  - vm_compute. reflexivity.
  - vm_compute. discriminate.
  - vm_compute. lia.
  - vm_compute. lia.
  - exact Hok.
Defined.

(** The break of [Broken] is logged: its last processed keyframe is 3, not
    0; after the tick the sync head is 3 again and holds the driver's
    state. *)
Example Broken_is_reseeded_with_a_warning :
  Tick_ProcessInput None Broken = Ok (force Broken (Tick_ProcessInput None Broken)) /\
  Warnings (Trace (force Broken (Tick_ProcessInput None Broken))) = [(3, 0)] /\
  GetHeadKeyframe (SyncBuffer (force Broken (Tick_ProcessInput None Broken))) = 3 /\
  ElementAt 3 (SyncBuffer (force Broken (Tick_ProcessInput None Broken))) = Some 7.
Proof. split; [by_running|]. repeat split; vm_compute; reflexivity. Qed.

Lemma Tick_budget_underflow_defers_input_witness :
  Tick_InputLoop (Tick_fuel Starved) None Starved = Ok Starved /\
  exists m2 c calls,
    Tick_ProcessInput None StarvedNextPreTick = Ok m2 /\
    UpdateCalls (Trace m2) = UpdateCalls (Trace StarvedNextPreTick) ++ c :: calls /\
    uc_Keyframe c = LastProcessedInputKeyframe (Tick_Info Starved) + 1 /\
    uc_InputCmd c = (100, 1) /\
    LastProcessedInputKeyframe (Tick_Info Starved) + 1 <=
    LastProcessedInputKeyframe (Tick_Info m2).
Proof.
  unshelve refine
    (let underflow :=
       Tick_budget_underflow_defers_input None Starved (100, 1) _ _ _ _ _ _ _ in
     conj (proj1 underflow (Tick_fuel Starved))
          (proj1 (proj2 (proj2 underflow)) None StarvedNextPreTick _ _ _ _ _ _ _ _)).
  all: vm_compute; first [reflexivity | discriminate | lia].
Defined.

(** Scenario "budget clamp": nothing is consumed while the budget is 50,
    and the tick after a refill to 100 consumes keyframe 1. *)
Example Starved_then_refilled :
  UpdateKeyframes (Trace (force Starved (Tick_ProcessInput None Starved))) = [] /\
  UpdateKeyframes
    (Trace (force Starved
              (Tick_ProcessInput None
                 (set_TickInfo
                    (RefillBudget 1 100
                       (Tick_Info (force Starved (Tick_ProcessInput None Starved))))
                    (force Starved (Tick_ProcessInput None Starved)))))) = [1].
Proof. split; vm_compute; reflexivity. Qed.

(** C6, as stated, fails once the Input ring has let go of the deferred
    keyframe.  With Input capacity 1 the command of 100 waits at keyframe 1
    with a budget of 50, and input processing defers it.  The pre-tick of
    the next tick appends keyframe 2, which takes the only slot, and refills
    the budget to 150: the budget now covers the command, but keyframe 1 is
    no longer in the buffer and the loop breaks at once.  After five ticks
    the budget is 250 and still nothing has been processed. *)
Lemma refilled_budget_does_not_bring_back_evicted_input :
  LastProcessedInputKeyframe (Tick_Info StarvedCap1) = 0 /\
  MaxAllowedInputKeyframe (Tick_Info StarvedCap1) = 1 /\
  ElementAt 1 (InputBuffer StarvedCap1) = Some (100, 1) /\
  RemainingAllowedSimulationTime (Tick_Info StarvedCap1) = 50 /\
  BufferWf (InputBuffer StarvedCap1) /\
  GetMaxNumElements (SyncBuffer StarvedCap1) = 4%nat /\
  GetHeadKeyframe (SyncBuffer StarvedCap1) = -1 /\
  GetHeadKeyframe (InputBuffer StarvedCap1) = 1 /\
  Tick_ProcessInput None StarvedCap1 = Ok StarvedCap1Deferred /\
  LastProcessedInputKeyframe (Tick_Info StarvedCap1Deferred) = 0 /\
  Ticks false 1 StarvedCap1Deferred = Ok (StarvedCap1Ticked 1) /\
  RemainingAllowedSimulationTime (Tick_Info (StarvedCap1Ticked 1)) = 150 /\
  MaxAllowedInputKeyframe (Tick_Info (StarvedCap1Ticked 1)) = 2 /\
  ElementAt 1 (InputBuffer (StarvedCap1Ticked 1)) = None /\
  LastProcessedInputKeyframe (Tick_Info (StarvedCap1Ticked 1)) = 0 /\
  Ticks false 5 StarvedCap1Deferred = Ok (StarvedCap1Ticked 5) /\
  RemainingAllowedSimulationTime (Tick_Info (StarvedCap1Ticked 5)) = 250 /\
  LastProcessedInputKeyframe (Tick_Info (StarvedCap1Ticked 5)) = 0 /\
  UpdateKeyframes (Trace (StarvedCap1Ticked 5)) = [].
Proof.
  do 4 (split; [vm_compute; reflexivity|]).
  split; [vm_compute; lia|].
  do 3 (split; [vm_compute; reflexivity|]).
  split; [by_running|]. split; [vm_compute; reflexivity|].
  split; [by_running|]. do 4 (split; [vm_compute; reflexivity|]).
  split; [by_running|]. repeat split; vm_compute; reflexivity.
Qed.

(** On [Starved], whose Input buffer has room for four commands, the next
    autonomous tick refills the budget to 150 and processes keyframe 1. *)
Example Starved_is_served_by_the_next_tick :
  UpdateKeyframes (Trace (force Starved (Tick 1 AutonomousFrame Starved))) = [1].
Proof. vm_compute. reflexivity. Qed.

Lemma Tick_runs_are_deterministic_witness :
  fst (force ([], TwinA) (TickRun FramesA TwinA)) =
  fst (force ([], TwinB) (TickRun FramesB TwinB)).
Proof.
  refine (proj1 (Tick_runs_are_deterministic FramesA FramesB TwinA TwinB
           (fst (force ([], TwinA) (TickRun FramesA TwinA)))
           (fst (force ([], TwinB) (TickRun FramesB TwinB)))
           (snd (force ([], TwinA) (TickRun FramesA TwinA)))
           (snd (force ([], TwinB) (TickRun FramesB TwinB))) _ _ _ _ _)).
  - apply Example_proxies_keep_to_simulation.
  - reflexivity.
  - vm_compute. reflexivity.
  - apply force_Ok_pair. vm_compute. reflexivity.
  - apply force_Ok_pair. vm_compute. reflexivity.
Defined.

Lemma Debug_target_asserts_when_compiled_out_witness :
  @NetSerializeProxy (Sim false) EReplicationProxyTarget.Debug tt (Fresh false) =
  AssertFailed Unknown_target.
Proof.
  refine (proj1 (@Debug_target_asserts_when_compiled_out (Sim false) tt (Fresh false) _)).
  reflexivity.
Defined.


End ExampleRuns.

(* ===================================================================== *)
(** ** The RPC sending helper at the edges of float arithmetic *)
(* ===================================================================== *)

Section RPCPacingEdges.

Implicit Types (s : RPCSendState) (dt : Float32.float).

Local Abbreviation Acc := ServerRPCAccumulatedTimeSeconds.
Local Abbreviation Thr := ServerRPCThresholdTimeSeconds.

Lemma ShouldSendServerRPC_NaN_accumulator dt t :
  ShouldSendServerRPC dt (mkRPCSendState S754_nan t) = (false, mkRPCSendState S754_nan t).
Proof. unfold ShouldSendServerRPC. cbn. by destruct t. Qed.

Lemma ShouldSendServerRPC_calls_NaN_accumulator dts t :
  ShouldSendServerRPC_calls dts (mkRPCSendState S754_nan t) =
  (repeat false (length dts), mkRPCSendState S754_nan t).
Proof.
  induction dts as [|dt dts IH]; [done|].
  cbn [ShouldSendServerRPC_calls]. rewrite ShouldSendServerRPC_NaN_accumulator, IH. done.
Qed.

(** X1.  One call of [ShouldSendServerRPC] with a NaN delta time disables
    the pacer for good: that call and every later one, whatever its delta
    time, returns [false], and the accumulator stays NaN.  Nothing in the
    function resets it. *)
Theorem ShouldSendServerRPC_NaN_is_absorbing dts s :
  ShouldSendServerRPC_calls (S754_nan :: dts) s =
  (repeat false (S (length dts)), mkRPCSendState S754_nan (Thr s)).
Proof.
  cbn [ShouldSendServerRPC_calls].
  assert (ShouldSendServerRPC S754_nan s = (false, mkRPCSendState S754_nan (Thr s))) as ->.
  { unfold ShouldSendServerRPC, Float32.add, Float32.ge.
    replace (SFadd Float32.prec Float32.emax (Acc s) S754_nan) with S754_nan
      by (by destruct (Acc s)).
    by destruct (Thr s). }
  by rewrite ShouldSendServerRPC_calls_NaN_accumulator.
Qed.

(** X2.  After [SetDesiredServerRPCSendFrequency(0.f)] the threshold is
    [1.f / 0.f], positive infinity, and [ShouldSendServerRPC] returns [true]
    only on a call that takes the accumulated time to positive infinity
    itself; for finite times it never asks for a send. *)
Theorem zero_send_frequency_never_sends dt s :
  Thr (SetDesiredServerRPCSendFrequency Float32.zero s) = S754_infinity false /\
  (fst (ShouldSendServerRPC dt (SetDesiredServerRPCSendFrequency Float32.zero s)) = true <->
   Float32.add (Acc s) dt = S754_infinity false).
Proof.
  split; [reflexivity|].
  rewrite ShouldSendServerRPC_flag.
  change (Thr (SetDesiredServerRPCSendFrequency Float32.zero s)) with (S754_infinity false).
  change (Acc (SetDesiredServerRPCSendFrequency Float32.zero s)) with (Acc s).
  unfold Float32.ge, SFleb.
  destruct (Float32.add (Acc s) dt) as [[]| []| |[] ? ?]; cbn; split; congruence.
Qed.

End RPCPacingEdges.

(* ===================================================================== *)
(** ** Parent / dependent links: what the calls do to the graph *)
(* ===================================================================== *)


(* ===================================================================== *)
(** ** More on the parent / dependent links *)
(* ===================================================================== *)

Module DependentSimsMore.
Import DependentSims DependentSimsFacts.

Implicit Types (h : Heap) (this s p x : SimPtr) (T S P X : SimLinks).

(** Instance 1 with parent 2, as three calls from the empty heap leave it. *)
Lemma linked_pair_consistent :
  links_consistent
    (<[2%nat := mkSimLinks None [Some 1%nat] true]>
       (<[1%nat := mkSimLinks (Some 2%nat) [] false]> ∅)).
Proof.
  pose proof (exec_protocol_call ∅ (CallConstruct 1%nat) links_consistent_empty eq_refl) as H1.
  cbn in H1. destruct H1 as (h1 & [= <-] & Hc1).
  pose proof (exec_protocol_call _ (CallConstruct 2%nat) Hc1 eq_refl) as H2.
  cbn in H2. destruct H2 as (h2 & [= <-] & Hc2).
  pose proof (exec_protocol_call _ (CallSetParentSimulation 1%nat (Some 2%nat)) Hc2 eq_refl)
    as H3.
  cbn in H3. destruct H3 as (h3 & E3 & Hc3).
  vm_compute in E3. injection E3 as <-. exact Hc3.
Qed.

Lemma Destroy_inv h this h' :
  Destroy this h = Ok h' ->
  is_Some (h !! this) /\ exists h2, h' = delete this h2.
Proof.
  unfold Destroy, SetParentSimulation.
  destruct (h !! this) as [T|] eqn:Hthis; [|done]. intros Hrun. split; [by eexists|].
  destruct (match ParentSimulation T with
            | Some p => RemoveDependentSimulation p (Some this) h
            | None => Ok h
            end ≫= _) as [h1| | |]; try done.
  cbn [mbind Result_bind] in Hrun.
  destruct (ClearAllDependentSimulations this h1) as [h2| | |]; try done.
  cbn [mbind Result_bind] in Hrun. injection Hrun as <-. by exists h2.
Qed.

(** X3.  After the destructor has run on an instance of a consistent heap,
    the instance is gone, every other instance is still there, and no
    parent link and no dependents list of what remains points to it. *)
Theorem Destroy_leaves_no_reference h this h' :
  links_consistent h ->
  Destroy this h = Ok h' ->
  h' !! this = None /\
  (forall x, x <> this -> (is_Some (h' !! x) <-> is_Some (h !! x))) /\
  forall x X, h' !! x = Some X ->
    ParentSimulation X <> Some this /\ Some this ∉ DependentSimulations X.
Proof.
  intros Hc Hrun. pose proof (Destroy_inv h this h' Hrun) as (Hlive & _).
  unfold Destroy in Hrun.
  destruct (SetParentSimulation_consistent h this None Hc Hlive)
    as (h1 & E1 & Hc1 & Hdom1 & T1 & HT1 & Hp1); [done|].
  rewrite E1 in Hrun. cbn [mbind Result_bind] in Hrun.
  destruct (ClearAllDependentSimulations_consistent h1 this Hc1)
    as (h2 & E2 & Hc2 & Hdom2 & Hthis2); [by eexists|].
  rewrite E2 in Hrun. cbn [mbind Result_bind] in Hrun. injection Hrun as <-.
  destruct (Hthis2 T1 HT1) as (T2 & HT2 & Hd2 & Hp2).
  pose proof (delete_unlinked_consistent h2 this T2 Hc2 HT2 (Hp2 Hp1) Hd2) as [Hsym Hwf].
  split; [apply lookup_delete_eq|]. split.
  - intros x Hx. rewrite lookup_delete_ne by done. by rewrite Hdom2, Hdom1.
  - intros x X HX. split.
    + intros Hp. destruct (proj2 (Hsym x this)) as (T' & HT' & _); [by exists X|].
      by rewrite lookup_delete_eq in HT'.
    + intros Hin. destruct (Hwf x X HX) as [_ Hel].
      destruct (Hel _ Hin) as (s & [= <-] & [S HS]). by rewrite lookup_delete_eq in HS.
Qed.

Lemma Destroy_leaves_no_reference_witness :
  (<[1%nat := mkSimLinks None [] false]> ∅ : Heap) !! 2%nat = None.
Proof.
  refine (proj1 (Destroy_leaves_no_reference
                   (<[2%nat := mkSimLinks None [Some 1%nat] true]>
                      (<[1%nat := mkSimLinks (Some 2%nat) [] false]> ∅))
                   2%nat _ linked_pair_consistent _)).
  vm_compute. reflexivity.
Defined.

(** X4.  [SetParentSimulation this p] on a consistent heap, [this] and
    [p] live: the link of [this] is [p]; [p]'s list is what it was without
    [this], with [this] appended, and [p] is asked to reconcile; a former
    parent other than [p] loses [this] from its list; every instance that is
    neither [this], nor [p], nor the former parent is as it was. *)
Theorem SetParentSimulation_moves_child h this p T P :
  links_consistent h -> h !! this = Some T -> h !! p = Some P ->
  exists h',
    SetParentSimulation this (Some p) h = Ok h' /\
    GetParentSimulation this h' = Ok (Some p) /\
    (exists P', h' !! p = Some P' /\
       DependentSimulations P' =
         TArray_Remove (Some this) (DependentSimulations P) ++ [Some this] /\
       bDependentSimulationNeedsReconcile P' = true) /\
    (forall q Q, ParentSimulation T = Some q -> q <> p -> h !! q = Some Q ->
       exists Q', h' !! q = Some Q' /\
         DependentSimulations Q' = TArray_Remove (Some this) (DependentSimulations Q) /\
         Some this ∉ DependentSimulations Q') /\
    (forall x X, x <> this -> x <> p -> ParentSimulation T <> Some x ->
       h !! x = Some X -> h' !! x = Some X).
Proof.
  intros Hc Hthis HP.
  exists (map_imap (fun x X => Some (relink this (ParentSimulation T) (Some p) x X)) h).
  split.
  { apply (SetParentSimulation_relink h this (Some p) T Hthis).
    - intros q Hq. destruct (consistent_parent_live h this T q Hc Hthis Hq) as (Q & HQ & _).
      by eexists.
    - intros s [= <-]. exists P. split; [done|].
      by apply (consistent_check_holds h this T p P). }
  split; [|split; [|split]].
  - unfold GetParentSimulation. rewrite lookup_relinked, Hthis. cbn.
    by rewrite decide_True.
  - eexists. rewrite lookup_relinked, HP. split; [done|]. cbn.
    rewrite (decide_True (P := Some p = Some p)) by done. split; [|by rewrite decide_True].
    case_decide as Hold; [done|].
    rewrite TArray_Remove_absent; [done|].
    pose proof (consistent_check_holds h this T p P Hc Hthis HP) as Hchk.
    by rewrite decide_False in Hchk.
  - intros q Q Hq Hqp HQ. eexists. rewrite lookup_relinked, HQ. split; [done|]. cbn.
    rewrite decide_True by done. rewrite decide_False by congruence.
    rewrite app_nil_r. split; [done|]. rewrite TArray_Remove_elem. tauto.
  - intros x X Hxt Hxp Hxo HX. rewrite lookup_relinked, HX. cbn. f_equal.
    unfold relink. rewrite decide_False by done. rewrite decide_False by congruence.
    rewrite !decide_False by congruence. rewrite app_nil_r. apply SimLinks_eta.
Qed.

Lemma SetParentSimulation_moves_child_witness :
  exists h',
    SetParentSimulation 1%nat (Some 2%nat)
      (<[1%nat := SimLinks_init]> (<[2%nat := SimLinks_init]> ∅)) = Ok h' /\
    GetParentSimulation 1%nat h' = Ok (Some 2%nat).
Proof.
  destruct (SetParentSimulation_moves_child
              (<[1%nat := SimLinks_init]> (<[2%nat := SimLinks_init]> ∅))
              1%nat 2%nat SimLinks_init SimLinks_init)
    as (h' & Hrun & Hget & _).
  - apply Construct_consistent; [|done].
    apply Construct_consistent; [apply links_consistent_empty|done].
  - reflexivity.
  - reflexivity.
  - exists h'. by split.
Defined.

Lemma TArray_Remove_last (Item : option SimPtr) l :
  Item ∉ l -> TArray_Remove Item (l ++ [Item]) = l.
Proof.
  intros Hn. unfold TArray_Remove. rewrite filter_app.
  fold (TArray_Remove Item l). rewrite TArray_Remove_absent by done.
  rewrite filter_cons, decide_False by (intros Hne; by apply Hne).
  by rewrite filter_nil, app_nil_r.
Qed.

(** X5.  [SetParentSimulation] is idempotent: on a consistent heap, a
    second call with the same argument succeeds and changes nothing. *)
Theorem SetParentSimulation_idempotent h this Simulation h1 :
  links_consistent h ->
  SetParentSimulation this Simulation h = Ok h1 ->
  SetParentSimulation this Simulation h1 = Ok h1.
Proof.
  intros Hc Hrun.
  assert (exists T, h !! this = Some T) as [T Hthis].
  { unfold SetParentSimulation in Hrun. destruct (h !! this); [by eexists|done]. }
  assert (forall s, Simulation = Some s -> is_Some (h !! s)) as Hlive.
  { intros s ->. destruct (h !! s) as [S|] eqn:HS; [by eexists|]. exfalso.
    pose proof (exec_protocol_call h (CallSetParentSimulation this (Some s)) Hc eq_refl) as Hex.
    cbn [call_live exec] in Hex. rewrite HS in Hex.
    rewrite (bool_decide_eq_false_2 (is_Some None)) in Hex by (by intros [? ?]).
    rewrite andb_false_r in Hex. congruence. }
  destruct (SetParentSimulation_consistent h this Simulation Hc) as (h1' & E & Hc1 & Hdom & T1 & HT1 & Hp1);
    [by eexists|done|].
  rewrite Hrun in E. injection E as <-.
  assert (h1 = map_imap (fun x X => Some (relink this (ParentSimulation T) Simulation x X)) h)
    as Hh1.
  { pose proof (SetParentSimulation_relink h this Simulation T Hthis) as Hr.
    rewrite Hrun in Hr. symmetry. enough (Ok _ = Ok h1) as [= ->]; [done|]. symmetry. apply Hr.
    - intros q Hq. destruct (consistent_parent_live h this T q Hc Hthis Hq) as (Q & HQ & _).
      by eexists.
    - intros s ->. destruct (Hlive s eq_refl) as [S HS]. exists S. split; [done|].
      by apply (consistent_check_holds h this T s S). }
  rewrite (SetParentSimulation_relink h1 this Simulation T1 HT1).
  - f_equal. apply map_eq. intros x. rewrite lookup_relinked, Hp1.
    subst h1. rewrite lookup_relinked.
    destruct (h !! x) as [X|] eqn:HX; [|done]. cbn. f_equal.
    pose proof Hc as [Hsym Hwf].
    set (A := if decide (ParentSimulation T = Some x)
              then TArray_Remove (Some this) (DependentSimulations X)
              else DependentSimulations X).
    assert (Some this ∉ A) as HA.
    { subst A. case_decide as Hd; [rewrite TArray_Remove_elem; tauto|].
      intros Hin. apply Hd.
      destruct (proj1 (Hsym this x)) as (T' & HT' & Hp); [by exists X|]. congruence. }
    unfold relink. cbn. fold A. f_equal.
    + by case_decide.
    + destruct (decide (Simulation = Some x)) as [Hs|Hs].
      * fold (TArray_Remove (Some this) (A ++ [Some this])).
        by rewrite TArray_Remove_last.
      * by rewrite !app_nil_r.
    + by case_decide.
  - intros q Hq. rewrite Hp1 in Hq. rewrite Hdom. by apply Hlive.
  - intros s Hs. destruct (Hlive s Hs) as [S HS].
    destruct (proj2 (Hdom s)) as [S1 HS1]; [by eexists|].
    exists S1. split; [done|]. by apply (consistent_check_holds h1 this T1 s S1).
Qed.

Lemma SetParentSimulation_idempotent_witness :
  SetParentSimulation 1%nat (Some 2%nat)
    (<[2%nat := mkSimLinks None [Some 1%nat] true]>
       (<[1%nat := mkSimLinks (Some 2%nat) [] false]>
          (<[1%nat := SimLinks_init]> (<[2%nat := SimLinks_init]> ∅)))) =
  Ok (<[2%nat := mkSimLinks None [Some 1%nat] true]>
       (<[1%nat := mkSimLinks (Some 2%nat) [] false]>
          (<[1%nat := SimLinks_init]> (<[2%nat := SimLinks_init]> ∅)))).
Proof.
  apply (SetParentSimulation_idempotent
           (<[1%nat := SimLinks_init]> (<[2%nat := SimLinks_init]> ∅))).
  - apply Construct_consistent; [|done].
    apply Construct_consistent; [apply links_consistent_empty|done].
  - reflexivity.
Defined.

(** X6.  [AddDepdentSimulation] of a pointer already in the list fails its
    [check]; in particular a second call after a successful one does. *)
Theorem AddDepdentSimulation_twice_asserts h this Simulation h1 :
  AddDepdentSimulation this Simulation h = Ok h1 ->
  AddDepdentSimulation this Simulation h1 =
  AssertFailed "RepProxy_Autonomous.DependentSimulations.Contains(Simulation) == false".
Proof.
  unfold AddDepdentSimulation, TArray_Contains.
  destruct (h !! this) as [T|]; [|done]. case_bool_decide; [done|].
  intros [= <-]. rewrite lookup_insert_eq. cbn.
  rewrite bool_decide_eq_true_2; [done|]. apply elem_of_app. right. by left.
Qed.

Lemma AddDepdentSimulation_twice_asserts_witness :
  AddDepdentSimulation 1%nat (Some 2%nat)
    (<[1%nat := NotifyDependentSimNeedsReconcile
                  (set_DependentSimulations ([] ++ [Some 2%nat]) SimLinks_init)]>
       (<[1%nat := SimLinks_init]> ∅)) =
  AssertFailed "RepProxy_Autonomous.DependentSimulations.Contains(Simulation) == false".
Proof.
  apply (AddDepdentSimulation_twice_asserts (<[1%nat := SimLinks_init]> ∅)).
  reflexivity.
Defined.

(** X7.  Removing a dependent that was just added restores the list; what
    stays behind is the request to reconcile. *)
Theorem AddDepdentSimulation_then_Remove h this Simulation T :
  h !! this = Some T -> Simulation ∉ DependentSimulations T ->
  AddDepdentSimulation this Simulation h ≫= RemoveDependentSimulation this Simulation =
  Ok (<[this := NotifyDependentSimNeedsReconcile T]> h).
Proof.
  intros Hthis Hn. unfold AddDepdentSimulation, TArray_Contains. rewrite Hthis.
  rewrite bool_decide_eq_false_2 by done. cbn [mbind Result_bind].
  unfold RemoveDependentSimulation. rewrite lookup_insert_eq, insert_insert_eq.
  do 2 f_equal. unfold set_DependentSimulations, NotifyDependentSimNeedsReconcile.
  cbn [ParentSimulation DependentSimulations bDependentSimulationNeedsReconcile].
  by rewrite TArray_Remove_last.
Qed.

Lemma AddDepdentSimulation_then_Remove_witness :
  AddDepdentSimulation 1%nat (Some 2%nat) (<[1%nat := SimLinks_init]> ∅)
  ≫= RemoveDependentSimulation 1%nat (Some 2%nat) =
  Ok (<[1%nat := NotifyDependentSimNeedsReconcile SimLinks_init]>
        (<[1%nat := SimLinks_init]> ∅)).
Proof.
  apply (AddDepdentSimulation_then_Remove _ 1%nat (Some 2%nat) SimLinks_init).
  - reflexivity.
  - apply not_elem_of_nil.
Defined.

(** X8.  [ClearAllDependentSimulations this] on a consistent heap: the list
    of [this] is empty afterwards, every instance whose parent was [this]
    has no parent, and nothing else has changed. *)
Theorem ClearAllDependentSimulations_orphans_children h this :
  links_consistent h -> is_Some (h !! this) ->
  exists h',
    ClearAllDependentSimulations this h = Ok h' /\
    forall x,
      h' !! x =
      (fun X =>
         {| ParentSimulation :=
              if decide (ParentSimulation X = Some this) then None else ParentSimulation X;
            DependentSimulations :=
              if decide (x = this) then [] else DependentSimulations X;
            bDependentSimulationNeedsReconcile := bDependentSimulationNeedsReconcile X |})
      <$> h !! x.
Proof.
  intros Hc [T Hthis].
  exists (map_imap (fun x X => Some (cleared this [] x X)) h). split.
  - unfold ClearAllDependentSimulations. rewrite Hthis.
    rewrite <- (ClearAll_loop_cleared h this T Hc Hthis (DependentSimulations T) []) by done.
    pose proof Hc as [Hsym Hwf]. f_equal.
    apply map_eq. intros x. rewrite lookup_cleared, lookup_insert. case_decide as Hx.
    + subst x. rewrite Hthis. cbn. f_equal. unfold cleared, set_DependentSimulations. cbn.
      rewrite (decide_True (P := this = this)) by done. f_equal.
      case_decide as Hd; [|done]. destruct Hd as [Hp Hn]. exfalso. apply Hn.
      destruct (proj2 (Hsym this this)) as (T' & HT' & Hin); [by exists T|]. congruence.
    + destruct (h !! x) as [X|] eqn:HX; [|done]. cbn. f_equal.
      unfold cleared. cbn. rewrite (decide_False (P := x = this)) by done.
      case_decide as Hd; [|by destruct X]. destruct Hd as [Hp Hn]. exfalso. apply Hn.
      destruct (proj2 (Hsym x this)) as (T' & HT' & Hin); [by exists X|]. congruence.
  - intros x. rewrite lookup_cleared. destruct (h !! x) as [X|]; [|done]. cbn. f_equal.
    unfold cleared. f_equal. apply decide_ext. split; [by intros [? _]|].
    intros ?. split; [done|apply not_elem_of_nil].
Qed.

Lemma ClearAllDependentSimulations_orphans_children_witness :
  exists h',
    ClearAllDependentSimulations 2%nat
      (<[2%nat := mkSimLinks None [Some 1%nat] true]>
         (<[1%nat := mkSimLinks (Some 2%nat) [] false]> ∅)) = Ok h'.
Proof.
  destruct (ClearAllDependentSimulations_orphans_children
              (<[2%nat := mkSimLinks None [Some 1%nat] true]>
                 (<[1%nat := mkSimLinks (Some 2%nat) [] false]> ∅)) 2%nat)
    as (h' & Hrun & _).
  - apply linked_pair_consistent.
  - by eexists.
  - by exists h'.
Defined.

(** X9.  Constructing an instance and destroying it at once gives the heap
    back, whatever the other instances' links are. *)
Theorem Construct_then_Destroy h this :
  h !! this = None ->
  Construct this h ≫= Destroy this = Ok h.
Proof.
  intros Hfree. unfold Construct. rewrite Hfree. cbn [mbind Result_bind].
  unfold Destroy, SetParentSimulation. rewrite lookup_insert_eq. cbn.
  rewrite lookup_insert_eq. cbn.
  unfold ClearAllDependentSimulations. rewrite lookup_insert_eq. cbn.
  rewrite !insert_insert_eq. f_equal. by apply delete_insert_id.
Qed.

Lemma Construct_then_Destroy_witness :
  Construct 3%nat (<[1%nat := SimLinks_init]> ∅) ≫= Destroy 3%nat =
  Ok (<[1%nat := SimLinks_init]> ∅).
Proof. apply Construct_then_Destroy. reflexivity. Defined.

(** *** The request to reconcile *)

(** Every instance of [h] is still there in [h'], and where it had been
    asked to reconcile it still is. *)
Local Abbreviation keeps_requests h h' :=
  (forall x X, h !! x = Some X ->
     exists X', h' !! x = Some X' /\
       (bDependentSimulationNeedsReconcile X = true ->
        bDependentSimulationNeedsReconcile X' = true)).










End DependentSimsMore.

(* ===================================================================== *)
(** ** The ring of the keyframed buffer *)
(* ===================================================================== *)

Section BufferRing.
Context {T : Type}.
Implicit Types (b : TReplicationBuffer T).

(** Two keyframes less than a capacity apart do not share a slot. *)
Lemma SlotOfKeyframe_apart b k K :
  0 < K - k < Z.of_nat (GetMaxNumElements b) ->
  SlotOfKeyframe b k <> SlotOfKeyframe b K.
Proof.
  unfold SlotOfKeyframe. set (c := Z.of_nat (GetMaxNumElements b)). intros Hd Heq.
  pose proof (Z.mod_pos_bound k c) as Hk. pose proof (Z.mod_pos_bound K c) as HK.
  assert (k mod c = K mod c) as Hm by lia.
  assert ((K - k) mod c = 0) as Hz.
  { rewrite Zminus_mod, Hm, Z.sub_diag. apply Zmod_0_l. }
  rewrite Z.mod_small in Hz by lia. lia.
Qed.

(** Above an element of the window, up to the head, there are elements. *)
Lemma ElementAt_up b k k' :
  is_Some (ElementAt k b) -> (0 < GetMaxNumElements b)%nat ->
  k <= k' <= GetHeadKeyframe b -> is_Some (ElementAt k' b).
Proof.
  unfold ElementAt. intros [v Hv] Hcap Hk.
  destruct (FindElementByKeyframe k b) as [Ptr|] eqn:HF; [|done].
  apply FindElementByKeyframe_Some in HF as [Hwin _].
  rewrite (proj2 (FindElementByKeyframe_Some k' b (SlotOfKeyframe b k'))); [|split; [lia|done]].
  apply lookup_lt_is_Some_2. by apply SlotOfKeyframe_lt.
Qed.

Lemma ElementAt_window b k :
  is_Some (ElementAt k b) -> GetTailKeyframe b <= k <= GetHeadKeyframe b.
Proof.
  unfold ElementAt. intros [v Hv].
  destruct (FindElementByKeyframe k b) as [Ptr|] eqn:HF; [|done].
  by apply FindElementByKeyframe_Some in HF as [Hwin _].
Qed.

(** What a write of the next keyframe does to the elements: the new head
    holds the value written, and every older element that is still in the
    window is as it was. *)
Lemma ElementAt_written b v :
  (0 < GetMaxNumElements b)%nat ->
  let Next :=
    mkBuffer (Data b) (Head b + 1) (Nat.min (S (NumValidElements b)) (GetMaxNumElements b)) in
  let Written := Store (SlotOfKeyframe Next (Head Next)) v Next in
  ElementAt (Head b + 1) Written = Some v /\
  forall k, k <> Head b + 1 -> is_Some (ElementAt k Written) ->
            ElementAt k Written = ElementAt k b.
Proof.
  intros Hcap Next Written.
  assert (GetMaxNumElements Written = GetMaxNumElements b) as HcapW.
  { unfold GetMaxNumElements, Written, Store. cbn [Data]. by rewrite length_insert. }
  assert (forall k, SlotOfKeyframe Written k = SlotOfKeyframe b k) as Hslot.
  { intros k. unfold SlotOfKeyframe. by rewrite HcapW. }
  assert (GetTailKeyframe Written =
          Head b + 1 - Z.of_nat (Nat.min (S (NumValidElements b)) (GetMaxNumElements b)) + 1)
    as Htail by done.
  split.
  - unfold ElementAt.
    rewrite (proj2 (FindElementByKeyframe_Some (Head b + 1) Written
                      (SlotOfKeyframe Written (Head b + 1))));
      [|split; [|done]].
    + rewrite Hslot. unfold Written, Store. cbn [Data Head].
      apply list_lookup_insert_eq. by apply SlotOfKeyframe_lt.
    + rewrite Htail. unfold GetHeadKeyframe. cbn [Written Store Head Next]. lia.
  - intros k Hne Hsome. pose proof (ElementAt_window _ _ Hsome) as Hwin.
    rewrite Htail in Hwin. unfold GetHeadKeyframe in Hwin. cbn [Written Store Head Next] in Hwin.
    unfold ElementAt.
    rewrite (proj2 (FindElementByKeyframe_Some k Written (SlotOfKeyframe Written k)));
      [|split; [|done]].
    2:{ rewrite Htail. unfold GetHeadKeyframe. cbn [Written Store Head Next]. lia. }
    rewrite (proj2 (FindElementByKeyframe_Some k b (SlotOfKeyframe b k)));
      [|split; [|done]].
    2:{ unfold GetTailKeyframe, GetHeadKeyframe. lia. }
    rewrite Hslot. unfold Written, Store. cbn [Data Head Next].
    apply list_lookup_insert_ne.
    fold (SlotOfKeyframe b (Head b + 1)).
    intros Heq. apply (SlotOfKeyframe_apart b k (Head b + 1)); [lia|done].
Qed.

End BufferRing.

(* ===================================================================== *)
(** ** Tick: what input processing keeps and what it never does *)
(* ===================================================================== *)

Section TickInvariants.
Context `{NetSimTemplate}.
Implicit Types (m : TNetworkedSimulationModel) (D : option nat).

Local Abbreviation LPIK m := (LastProcessedInputKeyframe (Tick_Info m)).
Local Abbreviation MaxKF m := (MaxAllowedInputKeyframe (Tick_Info m)).
Local Abbreviation Total m := (TotalProcessedSimulationTime (Tick_Info m)).
Local Abbreviation Remaining m := (RemainingAllowedSimulationTime (Tick_Info m)).

(** The members that input processing has no business with. *)
Local Abbreviation Outside m :=
  (RepProxy_ServerRPC m, RepProxy_Autonomous m, RepProxy_Simulated m,
   RepProxy_Replay m, RepProxy_Debug m, RPCSend m, HistoricBuffers m).

(** The debug record with [ks] added to its processed keyframes. *)
Local Abbreviation add_ProcessedKeyframes ks :=
  (fun d : TDebugState =>
     mkDebugState (LocalDeltaTimeSecondsDbg d) (LocalGFrameNumber d)
                  (ProcessedKeyframes d ++ ks)
                  (LastSentInputKeyframe d) (LastReceivedInputKeyframe d)
                  (LastProcessedKeyframe d) (HeadKeyframe d)
                  (RemainingAllowedSimulationTimeSeconds d)).

Ltac open_update_block Hrun :=
  unfold Tick_UpdateBlock in Hrun;
  let Sync1 := fresh "Sync1" in let NextPtr := fresh "NextPtr" in
  let PrevPtr := fresh "PrevPtr" in
  destruct (GetWriteNext (SyncBuffer _)) as [[Sync1 NextPtr]| | |] eqn:HWrite;
    cbn [mbind Result_bind] in Hrun; try discriminate Hrun;
  destruct (FindElementByKeyframe _ (SyncBuffer _)) as [PrevPtr|] eqn:HPrev;
    try discriminate Hrun;
  destruct (negb (GetHeadKeyframe Sync1 =? _)) eqn:HHead; try discriminate Hrun;
  destruct (Deref Sync1 PrevPtr) as [Prev| | |] eqn:HPrevV;
    cbn [mbind Result_bind] in Hrun; try discriminate Hrun;
  destruct (Deref Sync1 NextPtr) as [Next| | |] eqn:HNextV;
    cbn [mbind Result_bind] in Hrun; try discriminate Hrun;
  destruct (Update _ _ _ Prev Next _) as [Driver1 Next1] eqn:HUpd;
  injection Hrun as Hrun.

(** One pass through the update block, as the sync buffer, the driver and
    the debug record see it. *)
Lemma Tick_UpdateBlock_sync D K cmd m m' :
  Tick_UpdateBlock D K cmd m = Ok m' ->
  exists Prev Next,
    ElementAt (LPIK m) (SyncBuffer m) = Some Prev /\
    (Driver (Core m'), ElementAt K (SyncBuffer m')) =
      (let r := Update (Driver (Core m)) (ToRealTimeSeconds (GetFrameDeltaTime cmd))
                       cmd Prev Next TAuxState_ctor in (fst r, Some (snd r))) /\
    (forall k, k <> K -> is_Some (ElementAt k (SyncBuffer m')) ->
               ElementAt k (SyncBuffer m') = ElementAt k (SyncBuffer m)) /\
    Outside m' = Outside m /\
    DebugBuffer m' =
      match D with
      | Some p => mkBuffer (alter (add_ProcessedKeyframe K) p (Data (DebugBuffer m)))
                           (Head (DebugBuffer m)) (NumValidElements (DebugBuffer m))
      | None => DebugBuffer m
      end.
Proof.
  intros Hrun. open_update_block Hrun.
  apply GetWriteNext_inv in HWrite as (Hcap & -> & ->).
  apply negb_false_iff, Z.eqb_eq in HHead. cbn in HHead.
  pose proof (ElementAt_written (SyncBuffer m) Next1 Hcap) as HW. cbn zeta in HW.
  set (W := Store _ Next1 _) in HW. destruct HW as [Hnew Hold].
  assert (SyncBuffer m' = W) as HSync by (subst m'; by destruct D).
  assert (Driver (Core m') = Driver1) as HDrv by (subst m'; by destruct D).
  assert (Driver1 = fst (Update (Driver (Core m)) (ToRealTimeSeconds (GetFrameDeltaTime cmd))
                                cmd Prev Next TAuxState_ctor) /\
          Next1 = snd (Update (Driver (Core m)) (ToRealTimeSeconds (GetFrameDeltaTime cmd))
                              cmd Prev Next TAuxState_ctor)) as [HD1 HN1].
  { revert HUpd. destruct D; cbn; by intros ->. }
  exists Prev, Next. split; [|split; [|split; [|split]]].
  - unfold ElementAt. rewrite HPrev. by apply Deref_Ok in HPrevV.
  - rewrite HDrv, HSync, <- HHead, Hnew. cbn zeta. by rewrite <- HD1, <- HN1.
  - intros k Hk. rewrite <- HHead in Hk. rewrite HSync. by apply Hold.
  - subst m'. by destruct D.
  - subst m'. by destruct D.
Qed.

(** Induction over the passes of the input loop. *)
Lemma Tick_InputLoop_passes (P : TNetworkedSimulationModel -> TNetworkedSimulationModel -> Prop)
    D :
  (forall m, P m m) ->
  (forall m cmd m1 m',
      LPIK m + 1 <= MaxKF m ->
      ElementAt (LPIK m + 1) (InputBuffer m) = Some cmd ->
      GetFrameDeltaTime cmd <= Remaining m ->
      Tick_UpdateBlock D (LPIK m + 1) cmd m = Ok m1 ->
      (exists fuel, Tick_InputLoop fuel D m = Ok m') ->
      (exists fuel, Tick_InputLoop fuel D m1 = Ok m') ->
      P m1 m' -> P m m') ->
  forall fuel m m', Tick_InputLoop fuel D m = Ok m' -> P m m'.
Proof.
  intros Hrefl Hstep. induction fuel as [|fuel IH]; intros m m' Hrun.
  all: pose proof Hrun as Hrun0; rewrite Tick_InputLoop_unfold in Hrun.
  all: destruct (Z.ltb_spec (MaxKF m) (LPIK m + 1)) as [Hmax|Hmax];
    [injection Hrun as <-; apply Hrefl|].
  all: destruct (FindElementByKeyframe _ _) as [Ptr|] eqn:HFind;
    [|injection Hrun as <-; apply Hrefl].
  all: destruct (Deref (InputBuffer m) Ptr) as [cmd| | |] eqn:HCmd;
    cbn [mbind Result_bind] in Hrun; try done.
  all: destruct (Z.leb_spec (GetFrameDeltaTime cmd) (Remaining m)) as [Hdt|Hdt];
    [|injection Hrun as <-; apply Hrefl].
  1: done.
  destruct (Tick_UpdateBlock D (LPIK m + 1) cmd m) as [m1| | |] eqn:HBlock;
    cbn [mbind Result_bind] in Hrun; try done.
  apply (Hstep m cmd m1 m'); try done; try lia.
  - unfold ElementAt. rewrite HFind. by apply Deref_Ok.
  - by exists (S fuel).
  - by exists fuel.
  - by apply IH.
Qed.

(** What the loop keeps, pass after pass. *)
Lemma Tick_InputLoop_keeps fuel D m m' :
  Tick_InputLoop fuel D m = Ok m' ->
  LPIK m <= LPIK m' /\
  (LPIK m' = LPIK m -> m' = m) /\
  (LPIK m < LPIK m' ->
     LPIK m' <= MaxKF m /\ 0 <= Remaining m' /\
     GetHeadKeyframe (SyncBuffer m) = LPIK m /\
     GetHeadKeyframe (SyncBuffer m') = LPIK m' /\
     (0 < GetMaxNumElements (SyncBuffer m'))%nat /\
     (1 <= NumValidElements (SyncBuffer m'))%nat) /\
  Remaining m' = Remaining m - (Total m' - Total m) /\
  MaxKF m' = MaxKF m /\
  InputBuffer m' = InputBuffer m /\
  Outside m' = Outside m /\
  DebugBuffer m' =
    match D with
    | Some p =>
        mkBuffer (alter (add_ProcessedKeyframes (seqZ (LPIK m + 1) (LPIK m' - LPIK m))) p
                        (Data (DebugBuffer m)))
                 (Head (DebugBuffer m)) (NumValidElements (DebugBuffer m))
    | None => DebugBuffer m
    end.
Proof.
  revert fuel m m'. apply Tick_InputLoop_passes.
  - intros m. split; [lia|]. split; [done|]. split; [lia|]. split; [lia|].
    do 3 (split; [done|]).
    destruct D as [p|]; [|done]. rewrite Z.sub_diag. cbn [seqZ].
    rewrite list_alter_id; [by destruct (DebugBuffer m)|].
    intros d. rewrite app_nil_r. by destruct d.
  - intros m cmd m1 m' Hmax Hcmd Hdt HBlock _ _
           (Hl & Hsame & Hmoved & Hrem & Hmx & Hin & Hout & Hdbg).
    pose proof (Tick_UpdateBlock_sync _ _ _ _ _ HBlock)
      as (Prev & Next & _ & _ & _ & Hout1 & Hdbg1).
    apply Tick_UpdateBlock_spec in HBlock
      as (Hi1 & _ & Ht1 & HK & Hh1 & Hc1 & Hcap & Hnv1 & _).
    assert (LPIK m1 = LPIK m + 1) as Hl1 by (by rewrite Ht1).
    assert (MaxKF m1 = MaxKF m) as Hm1 by (by rewrite Ht1).
    assert (Total m1 = Total m + GetFrameDeltaTime cmd) as Htot1 by (by rewrite Ht1).
    assert (Remaining m1 = Remaining m - GetFrameDeltaTime cmd) as Hrem1 by (by rewrite Ht1).
    split; [lia|]. split; [lia|]. split; [|split; [lia|split; [congruence|split;
      [congruence|split; [congruence|]]]]].
    + intros _. destruct (decide (LPIK m' = LPIK m1)) as [Heq|Hne].
      * rewrite (Hsame Heq). repeat split; lia.
      * destruct Hmoved as (? & ? & ? & ? & ? & ?); [lia|]. repeat split; try done; lia.
    + rewrite Hdbg. destruct D as [p|]; [|done]. rewrite Hdbg1. cbn [Data Head NumValidElements].
      f_equal. rewrite list_alter_alter_eq. apply list_alter_ext; [|done].
      intros d _. cbn. f_equal. rewrite <- app_assoc. f_equal.
      rewrite (seqZ_cons (LPIK m + 1)) by lia. cbn. f_equal. rewrite Hl1. f_equal; lia.
Qed.

(** The sync states the loop leaves behind: an older state that is still
    in the window is as it was, and each new one is what [Update] made of
    the state one keyframe before and the command of its own keyframe. *)
Lemma Tick_InputLoop_chain fuel D m m' :
  Tick_InputLoop fuel D m = Ok m' ->
  (forall k, k <= LPIK m -> is_Some (ElementAt k (SyncBuffer m')) ->
             ElementAt k (SyncBuffer m') = ElementAt k (SyncBuffer m)) /\
  (forall k, LPIK m < k <= LPIK m' -> is_Some (ElementAt (k - 1) (SyncBuffer m')) ->
     exists d cmd prev next,
       ElementAt k (InputBuffer m) = Some cmd /\
       ElementAt (k - 1) (SyncBuffer m') = Some prev /\
       ElementAt k (SyncBuffer m') =
         Some (snd (Update d (ToRealTimeSeconds (GetFrameDeltaTime cmd)) cmd prev next
                           TAuxState_ctor)) /\
       (k = LPIK m' ->
        Driver (Core m') =
          fst (Update d (ToRealTimeSeconds (GetFrameDeltaTime cmd)) cmd prev next
                      TAuxState_ctor))).
Proof.
  revert fuel m m'. apply Tick_InputLoop_passes.
  - intros m. split; [done|]. intros k Hk. lia.
  - intros m cmd m1 m' Hmax Hcmd Hdt HBlock [fuel Hrun] Hrest [Hold Hnew].
    apply Tick_InputLoop_keeps in Hrun
      as (_ & _ & Hmoved & _).
    assert (LPIK m' = LPIK m1 -> m' = m1) as Hsame1.
    { destruct Hrest as [fuel1 Hrest].
      by apply Tick_InputLoop_keeps in Hrest as (_ & Hsame1 & _). }
    pose proof (Tick_UpdateBlock_sync _ _ _ _ _ HBlock)
      as (Prev & Next & HPrev & HUpd & Hold1 & _).
    apply Tick_UpdateBlock_spec in HBlock as (Hi1 & _ & Ht1 & _).
    assert (LPIK m1 = LPIK m + 1) as Hl1 by (by rewrite Ht1).
    injection HUpd as HDrv HUpd.
    assert (forall k, k <= LPIK m -> is_Some (ElementAt k (SyncBuffer m')) ->
                      ElementAt k (SyncBuffer m') = ElementAt k (SyncBuffer m)) as Hold0.
    { intros k Hk Hsome. rewrite (Hold k) in * by (try done; lia).
      apply Hold1; [lia|done]. }
    split; [done|].
    intros k Hk Hsome. destruct (decide (k = LPIK m + 1)) as [->|Hne].
    + replace (LPIK m + 1 - 1) with (LPIK m) in * by lia.
      assert (LPIK m + 1 <= LPIK m') as Hle by lia.
      destruct Hmoved as (_ & _ & _ & Hhead & Hcap & _); [lia|].
      exists (Driver (Core m)), cmd, Prev, Next. split; [done|]. split; [|split].
      * by rewrite Hold0, HPrev.
      * rewrite Hold, HUpd; [done|lia|].
        apply (ElementAt_up _ (LPIK m)); [done|done|]. rewrite Hhead. lia.
      * intros Hlast. rewrite Hsame1 by lia. done.
    + destruct (Hnew k) as (d & cmd' & prev & next & Hc' & Hp' & Hn'); [lia|done|].
      exists d, cmd', prev, next. by rewrite <- Hi1.
Qed.

Lemma Tick_ResetSyncState_keeps m m1 :
  Tick_ResetSyncState m = Ok m1 ->
  Outside m1 = Outside m /\
  DebugBuffer m1 = DebugBuffer m /\
  GetHeadKeyframe (SyncBuffer m1) = LPIK m1.
Proof.
  intros Hrun. pose proof (Tick_ResetSyncState_spec m m1 Hrun)
    as (_ & _ & Hl & _ & _ & _ & _ & Hsame & Hready).
  destruct (decide (GetHeadKeyframe (SyncBuffer m) = LPIK m)) as [Heq|Hne].
  - by rewrite (Hsame Heq).
  - split; [|split; [|by apply Hready]].
    all: unfold Tick_ResetSyncState in Hrun.
    all: rewrite (proj2 (Z.eqb_neq _ _) Hne) in Hrun; cbn [negb] in Hrun.
    all: destruct (GetWriteNext _) as [[S2 P]| | |]; cbn [mbind Result_bind] in Hrun;
      try done.
    all: destruct (Deref S2 P) as [E| | |]; cbn [mbind Result_bind] in Hrun; try done.
    all: injection Hrun as <-; by destruct (negb (LPIK m =? 0)).
Qed.

(** Input processing, entered or not, as the loop lemmas see it. *)
Lemma Tick_ProcessInput_loop D m m' :
  Tick_ProcessInput D m = Ok m' ->
  m' = m \/
  exists m1 fuel,
    GetHeadKeyframe (SyncBuffer m) < GetHeadKeyframe (InputBuffer m) /\
    Tick_ResetSyncState m = Ok m1 /\ Tick_InputLoop fuel D m1 = Ok m'.
Proof.
  unfold Tick_ProcessInput. destruct (Z.ltb_spec (GetHeadKeyframe (SyncBuffer m))
                                                 (GetHeadKeyframe (InputBuffer m))).
  - destruct (Tick_ResetSyncState m) as [m1| | |] eqn:Hreset; try done.
    cbn [mbind Result_bind]. intros Hloop. right. by exists m1, (Tick_fuel m1).
  - intros [= <-]. by left.
Qed.

(** X11.  Input processing never takes [LastProcessedInputKeyframe] past
    [MaxAllowedInputKeyframe]: where it moves at all it ends at or below
    the ceiling, and every keyframe it hands to [Update] lies above the
    keyframe last processed before and at or below the ceiling. *)
Theorem Tick_never_passes_MaxAllowedInputKeyframe D m m' :
  Tick_ProcessInput D m = Ok m' ->
  LPIK m' <= Z.max (LPIK m) (MaxKF m) /\
  exists ks,
    UpdateKeyframes (Trace m') = UpdateKeyframes (Trace m) ++ ks /\
    Forall (fun k => LPIK m < k <= MaxKF m) ks.
Proof.
  intros Hrun.
  assert (LPIK m <= LPIK m' /\ (LPIK m < LPIK m' -> LPIK m' <= MaxKF m)) as [Hle Hceil].
  { destruct (Tick_ProcessInput_loop _ _ _ Hrun) as [->|(m1 & fuel & _ & Hreset & Hloop)];
      [lia|].
    apply Tick_ResetSyncState_spec in Hreset as (_ & _ & Hl & Hm & _).
    apply Tick_InputLoop_keeps in Hloop as (Hl' & _ & Hmoved & _).
    rewrite <- Hl, <- Hm. split; [done|]. intros Hlt. by apply Hmoved. }
  split; [lia|].
  apply Tick_ProcessInput_spec in Hrun as (_ & _ & _ & _ & calls & Htr & Hks & _).
  exists (seqZ (LPIK m + 1) (LPIK m' - LPIK m)). split.
  - by rewrite !UpdateKeyframes_calls, Htr, fmap_app, Hks.
  - apply Forall_seqZ. intros k Hk. lia.
Qed.

(** X12.  The time budget is never overdrawn: input processing takes from
    the remaining allowed simulation time exactly what it adds to the
    total processed time, and after it has processed a command what
    remains is not negative. *)
Theorem Tick_never_overdraws_budget D m m' :
  Tick_ProcessInput D m = Ok m' ->
  Remaining m' = Remaining m - (Total m' - Total m) /\
  (LPIK m' = LPIK m -> Remaining m' = Remaining m) /\
  (LPIK m < LPIK m' -> 0 <= Remaining m').
Proof.
  intros Hrun.
  destruct (Tick_ProcessInput_loop _ _ _ Hrun) as [->|(m1 & fuel & _ & Hreset & Hloop)].
  { split; [lia|]. split; [done|lia]. }
  apply Tick_ResetSyncState_spec in Hreset as (_ & _ & Hl & _ & Ht & Hr & _).
  apply Tick_InputLoop_keeps in Hloop as (_ & Hsame & Hmoved & Hrem & _).
  rewrite <- Hl, <- Ht, <- Hr. split; [done|]. split.
  - intros Heq. by rewrite (Hsame Heq).
  - intros Hlt. by apply Hmoved.
Qed.

(** The loop does nothing where it has come to rest. *)
Lemma Tick_InputLoop_at_rest fuel D m : LoopAtRest m -> Tick_InputLoop fuel D m = Ok m.
Proof.
  intros Hrest. rewrite Tick_InputLoop_unfold.
  destruct (Z.ltb_spec (MaxKF m) (LPIK m + 1)) as [Hmax|Hmax]; [done|].
  destruct Hrest as [Hceil|[Hnone|(cmd & Hcmd & Hshort)]]; [lia|by rewrite Hnone|].
  apply ElementAt_inv in Hcmd as (-> & -> & _). cbn [mbind Result_bind].
  by rewrite (proj2 (Z.leb_gt _ _) Hshort).
Qed.

(** X13.  Once entered, input processing leaves the head of the sync
    buffer at the last processed keyframe, and input processing is
    idempotent: run again with nothing in between, whatever the debug
    record, it succeeds and changes nothing; no warning, no call of the
    driver, no [Update]. *)
Theorem Tick_input_processing_is_idempotent D m m' :
  Tick_ProcessInput D m = Ok m' ->
  (GetHeadKeyframe (SyncBuffer m) < GetHeadKeyframe (InputBuffer m) ->
   GetHeadKeyframe (SyncBuffer m') = LPIK m') /\
  forall D', Tick_ProcessInput D' m' = Ok m'.
Proof.
  unfold Tick_ProcessInput at 1.
  destruct (Z.ltb_spec (GetHeadKeyframe (SyncBuffer m)) (GetHeadKeyframe (InputBuffer m)))
    as [Hahead|Hbehind].
  - destruct (Tick_ResetSyncState m) as [m1| | |] eqn:Hreset; try done.
    cbn [mbind Result_bind]. intros Hloop.
    apply Tick_ResetSyncState_keeps in Hreset as (_ & _ & Hh1).
    pose proof (Tick_InputLoop_spec _ _ _ _ Hloop) as (_ & _ & _ & _ & Hrest & _).
    apply Tick_InputLoop_keeps in Hloop as (Hle & Hsame & Hmoved & _).
    assert (GetHeadKeyframe (SyncBuffer m') = LPIK m') as Hhead.
    { destruct (decide (LPIK m' = LPIK m1)) as [Heq|Hne]; [by rewrite (Hsame Heq)|].
      apply Hmoved. lia. }
    split; [done|]. intros D'. unfold Tick_ProcessInput.
    destruct (_ <? _); [|done].
    rewrite Tick_ResetSyncState_aligned by done. cbn [mbind Result_bind].
    by apply Tick_InputLoop_at_rest.
  - intros [= <-]. split; [lia|]. intros D'. unfold Tick_ProcessInput.
    by rewrite (proj2 (Z.ltb_ge _ _) Hbehind).
Qed.

(** X14.  The sync states chain through [Update]: after input processing,
    for every keyframe [k] it processed whose predecessor is still in the
    sync buffer, the state at [k] is what [Update] returned for the state at
    [k - 1], the command at keyframe [k] of the Input buffer and a fresh
    [TAuxState], and the driver left by the last of these calls is the
    driver of the instance; and where the sync buffer was in line before,
    the states of older keyframes still in the buffer are as they were. *)
Theorem Tick_sync_states_chain_through_Update D m m' :
  Tick_ProcessInput D m = Ok m' ->
  (forall k, LPIK m < k <= LPIK m' -> is_Some (ElementAt (k - 1) (SyncBuffer m')) ->
     exists d cmd prev next,
       ElementAt k (InputBuffer m) = Some cmd /\
       ElementAt (k - 1) (SyncBuffer m') = Some prev /\
       ElementAt k (SyncBuffer m') =
         Some (snd (Update d (ToRealTimeSeconds (GetFrameDeltaTime cmd)) cmd prev next
                           TAuxState_ctor)) /\
       (k = LPIK m' ->
        Driver (Core m') =
          fst (Update d (ToRealTimeSeconds (GetFrameDeltaTime cmd)) cmd prev next
                      TAuxState_ctor))) /\
  (GetHeadKeyframe (SyncBuffer m) = LPIK m ->
   forall k, k <= LPIK m -> is_Some (ElementAt k (SyncBuffer m')) ->
             ElementAt k (SyncBuffer m') = ElementAt k (SyncBuffer m)).
Proof.
  intros Hrun.
  destruct (Tick_ProcessInput_loop _ _ _ Hrun) as [->|(m1 & fuel & _ & Hreset & Hloop)].
  { split; [intros k Hk; lia|]. intros. reflexivity. }
  apply Tick_InputLoop_chain in Hloop as [Hold Hnew].
  apply Tick_ResetSyncState_spec in Hreset as (Hi & _ & Hl & _ & _ & _ & _ & Hsame & _).
  split.
  - intros k Hk Hsome. rewrite <- Hi. apply Hnew; [lia|done].
  - intros Hal. rewrite <- (Hsame Hal). exact Hold.
Qed.

(** X15.  With a debug record at hand, input processing adds to its
    [ProcessedKeyframes] the keyframes it hands to [Update], in order, and
    changes nothing else in the Debug buffer; without one it leaves the
    Debug buffer alone. *)
Theorem Tick_debug_record_lists_processed_keyframes D m m' :
  Tick_ProcessInput D m = Ok m' ->
  exists ks,
    UpdateKeyframes (Trace m') = UpdateKeyframes (Trace m) ++ ks /\
    DebugBuffer m' =
      match D with
      | Some p =>
          mkBuffer (alter (add_ProcessedKeyframes ks) p (Data (DebugBuffer m)))
                   (Head (DebugBuffer m)) (NumValidElements (DebugBuffer m))
      | None => DebugBuffer m
      end.
Proof.
  intros Hrun. exists (seqZ (LPIK m + 1) (LPIK m' - LPIK m)). split.
  { apply Tick_ProcessInput_spec in Hrun as (_ & _ & _ & _ & calls & Htr & Hks & _).
    by rewrite !UpdateKeyframes_calls, Htr, fmap_app, Hks. }
  destruct (Tick_ProcessInput_loop _ _ _ Hrun) as [->|(m1 & fuel & _ & Hreset & Hloop)].
  { destruct D as [p|]; [|done]. rewrite Z.sub_diag. cbn [seqZ].
    rewrite list_alter_id; [by destruct (DebugBuffer m)|].
    intros d. rewrite app_nil_r. by destruct d. }
  apply Tick_InputLoop_keeps in Hloop as (_ & _ & _ & _ & _ & _ & _ & Hdbg).
  pose proof (Tick_ResetSyncState_keeps _ _ Hreset) as (_ & Hd1 & _).
  apply Tick_ResetSyncState_spec in Hreset as (_ & _ & Hl & _).
  by rewrite Hdbg, Hd1, Hl.
Qed.

(** *** The ways input processing can fail *)

(** The two [check]s that can fail: the one inside [GetWriteNext] of a
    sync buffer without storage, and the one on [PrevSyncState]. *)
Local Abbreviation SyncCheckFailed s :=
  (s = "TReplicationBuffer::GetWriteNext: capacity is zero"%string \/
   s = "PrevSyncState != nullptr"%string).

Lemma Tick_UpdateBlock_failures D cmd m :
  GetHeadKeyframe (SyncBuffer m) = LPIK m ->
  match Tick_UpdateBlock D (LPIK m + 1) cmd m with
  | Ok _ => True
  | AssertFailed s => SyncCheckFailed s
  | Undefined | OutOfFuel => False
  end.
Proof.
  intros Hal. unfold Tick_UpdateBlock.
  destruct (GetWriteNext (SyncBuffer m)) as [[Sync1 NextPtr]| | |] eqn:HWrite;
    cbn [mbind Result_bind].
  2-4: unfold GetWriteNext in HWrite; destruct (Nat.eqb _ 0); try done.
  2: injection HWrite as <-; by left.
  apply GetWriteNext_inv in HWrite as (Hcap & -> & ->).
  destruct (FindElementByKeyframe _ (SyncBuffer m)) as [PrevPtr|] eqn:HPrev; [|by right].
  apply FindElementByKeyframe_Some in HPrev as [_ ->].
  rewrite <- Hal. unfold GetHeadKeyframe. cbn [Head]. rewrite Z.eqb_refl. cbn [negb].
  destruct (Deref_in_range
              (mkBuffer (Data (SyncBuffer m)) (Head (SyncBuffer m) + 1)
                        (Nat.min (S (NumValidElements (SyncBuffer m)))
                                 (GetMaxNumElements (SyncBuffer m))))
              (SlotOfKeyframe (SyncBuffer m) (Head (SyncBuffer m)))) as (Prev & -> & _);
    [by apply (SlotOfKeyframe_lt (SyncBuffer m))|].
  destruct (Deref_in_range
              (mkBuffer (Data (SyncBuffer m)) (Head (SyncBuffer m) + 1)
                        (Nat.min (S (NumValidElements (SyncBuffer m)))
                                 (GetMaxNumElements (SyncBuffer m))))
              (SlotOfKeyframe (SyncBuffer m) (Head (SyncBuffer m) + 1))) as (Next & -> & _);
    [by apply (SlotOfKeyframe_lt (SyncBuffer m))|].
  cbn [mbind Result_bind]. by destruct (Update _ _ _ _ _ _).
Qed.

Lemma Tick_InputLoop_failures fuel D m :
  GetHeadKeyframe (SyncBuffer m) = LPIK m -> BufferWf (InputBuffer m) ->
  (Tick_fuel m <= fuel)%nat ->
  match Tick_InputLoop fuel D m with
  | Ok _ => True
  | AssertFailed s => SyncCheckFailed s
  | Undefined | OutOfFuel => False
  end.
Proof.
  revert m. induction fuel as [|fuel IH]; intros m Hal Hwf Hf;
    rewrite Tick_InputLoop_unfold.
  all: destruct (Z.ltb_spec (MaxKF m) (LPIK m + 1)) as [Hmax|Hmax]; [done|].
  { unfold Tick_fuel in Hf. lia. }
  destruct (FindElementByKeyframe _ _) as [Ptr|] eqn:HFind; [|done].
  apply FindElementByKeyframe_Some in HFind as [Hwin ->].
  destruct (Deref_in_range (InputBuffer m) (SlotOfKeyframe (InputBuffer m) (LPIK m + 1)))
    as (cmd & -> & _).
  { apply SlotOfKeyframe_lt.
    unfold BufferWf, GetTailKeyframe, GetHeadKeyframe in *. lia. }
  cbn [mbind Result_bind].
  destruct (_ <=? _); [|done].
  pose proof (Tick_UpdateBlock_failures D cmd m Hal) as Hblock.
  destruct (Tick_UpdateBlock D _ cmd m) as [m1| | |] eqn:HBlock; try done.
  cbn [mbind Result_bind].
  apply Tick_UpdateBlock_spec in HBlock as (Hi & _ & Ht & _ & Hh & _).
  apply IH.
  - rewrite Hh, Ht. done.
  - by rewrite Hi.
  - unfold Tick_fuel in *. rewrite Ht. cbn. lia.
Qed.

Lemma Tick_ResetSyncState_failures m :
  match Tick_ResetSyncState m with
  | Ok _ => True
  | AssertFailed s => SyncCheckFailed s
  | Undefined | OutOfFuel => False
  end.
Proof.
  destruct (decide (GetHeadKeyframe (SyncBuffer m) = LPIK m)) as [Heq|Hne].
  { by rewrite Tick_ResetSyncState_aligned. }
  destruct (GetMaxNumElements (SyncBuffer m)) as [|n] eqn:Hcap.
  - unfold Tick_ResetSyncState.
    rewrite (proj2 (Z.eqb_neq _ _) Hne). cbn [negb].
    unfold GetWriteNext.
    replace (GetMaxNumElements (ResetNextHeadKeyframe (LPIK m) _)) with 0%nat
      by (by destruct (negb (LPIK m =? 0))).
    cbn. by left.
  - destruct (Tick_ResetSyncState_reseeds m Hne) as (S2 & P & E & m1 & _ & _ & -> & _);
      [lia|done].
Qed.

(** X16.  With a well-formed Input buffer, input processing can fail in
    two ways only: the sync buffer has no storage, or the state of the last
    processed keyframe is missing from it.  The
    [check(Buffers.Sync.GetHeadKeyframe() == Keyframe)] never fails, no
    pointer is dereferenced outside its buffer, and the loop ends. *)
Theorem Tick_ProcessInput_fails_on_sync_buffer_only D m :
  BufferWf (InputBuffer m) ->
  match Tick_ProcessInput D m with
  | Ok _ => True
  | AssertFailed s => SyncCheckFailed s
  | Undefined | OutOfFuel => False
  end.
Proof.
  intros Hwf. unfold Tick_ProcessInput. destruct (_ <? _); [|done].
  pose proof (Tick_ResetSyncState_failures m) as Hfail.
  destruct (Tick_ResetSyncState m) as [m1| | |] eqn:Hreset; cbn [mbind Result_bind];
    try done.
  pose proof (Tick_ResetSyncState_keeps _ _ Hreset) as (_ & _ & Hh).
  apply Tick_ResetSyncState_spec in Hreset as (Hi & _).
  apply Tick_InputLoop_failures; [done|by rewrite Hi|done].
Qed.

(** *** What a tick leaves alone *)

(** The members outside the core, the proxy of one role excepted, and the
    historic buffers up to their content. *)
Local Abbreviation KeepsBystanders R m m' :=
  (RPCSend m' = RPCSend m /\
   RepProxy_Replay m' = RepProxy_Replay m /\
   RepProxy_Debug m' = RepProxy_Debug m /\
   (R <> ROLE_Authority -> RepProxy_ServerRPC m' = RepProxy_ServerRPC m) /\
   (R <> ROLE_AutonomousProxy -> RepProxy_Autonomous m' = RepProxy_Autonomous m) /\
   (R <> ROLE_SimulatedProxy -> RepProxy_Simulated m' = RepProxy_Simulated m) /\
   (is_Some (HistoricBuffers m') <-> is_Some (HistoricBuffers m)) /\
   (NETSIM_MODEL_DEBUG = false -> HistoricBuffers m' = HistoricBuffers m)).

Lemma KeepsBystanders_Outside R m m' : Outside m' = Outside m -> KeepsBystanders R m m'.
Proof. intros [= -> -> -> -> -> -> ->]. by repeat split. Qed.

Lemma KeepsBystanders_trans R m1 m2 m3 :
  KeepsBystanders R m1 m2 -> KeepsBystanders R m2 m3 -> KeepsBystanders R m1 m3.
Proof.
  intros (A1 & A2 & A3 & A4 & A5 & A6 & A7 & A8) (B1 & B2 & B3 & B4 & B5 & B6 & B7 & B8).
  split; [congruence|]. split; [congruence|]. split; [congruence|].
  split; [intros ?; rewrite B4, A4; done|].
  split; [intros ?; rewrite B5, A5; done|].
  split; [intros ?; rewrite B6, A6; done|].
  split; [by rewrite B7|]. intros ?. rewrite B8, A8; done.
Qed.

Lemma Tick_PrevDebugState_Outside Parameters m :
  Outside (Tick_PrevDebugState Parameters m) = Outside m.
Proof.
  unfold Tick_PrevDebugState. destruct (GetLocalDebugBuffer m) as [d|]; [|done].
  destruct (FindElementByKeyframe _ d); [|done]. by destruct (Role Parameters).
Qed.

Lemma Tick_NewDebugState_Outside GFrameNumber Parameters m m1 D :
  Tick_NewDebugState GFrameNumber Parameters m = Ok (m1, D) -> Outside m1 = Outside m.
Proof.
  unfold Tick_NewDebugState, GetNextLocalDebugStateWrite.
  destruct NETSIM_MODEL_DEBUG.
  - destruct (GetWriteNext (DebugBuffer m)) as [[d Ptr]| | |]; try done.
    cbn [mbind Result_bind]. destruct (Role Parameters); by intros [= <- <-].
  - cbn [mbind Result_bind]. by intros [= <- <-].
Qed.

Lemma Tick_PreSimTick_bystanders Parameters m m' :
  Tick_PreSimTick Parameters m = Ok m' -> KeepsBystanders (Role Parameters) m m'.
Proof.
  unfold Tick_PreSimTick. destruct (Role Parameters).
  - intros [= <-]. by repeat split.
  - destruct (PreSimTick Simulated_ops _ _ _) as [[p c]| | |]; try done.
    cbn [mbind Result_bind]. intros [= <-]. by repeat split.
  - destruct (PreSimTick Autonomous_ops _ _ _) as [[p c]| | |]; try done.
    cbn [mbind Result_bind]. intros [= <-]. by repeat split.
  - destruct (PreSimTick ServerRPC_ops _ _ _) as [[p c]| | |]; try done.
    cbn [mbind Result_bind]. intros [= <-]. by repeat split.
Qed.

Lemma Tick_PostSimTick_bystanders Parameters m m' :
  Tick_PostSimTick Parameters m = Ok m' -> KeepsBystanders (Role Parameters) m m'.
Proof.
  unfold Tick_PostSimTick. destruct (Role Parameters).
  - intros [= <-]. by repeat split.
  - destruct (PostSimTick Simulated_ops _ _ _) as [[p c]| | |]; try done.
    cbn [mbind Result_bind]. intros [= <-]. by repeat split.
  - destruct (PostSimTick Autonomous_ops _ _ _) as [[p c]| | |]; try done.
    cbn [mbind Result_bind]. intros [= <-]. by repeat split.
  - destruct (PostSimTick ServerRPC_ops _ _ _) as [[p c]| | |]; try done.
    cbn [mbind Result_bind]. intros [= <-]. by repeat split.
Qed.

Lemma Tick_ProcessInput_Outside D m m' :
  Tick_ProcessInput D m = Ok m' -> Outside m' = Outside m.
Proof.
  intros Hrun.
  destruct (Tick_ProcessInput_loop _ _ _ Hrun) as [->|(m1 & fuel & _ & Hreset & Hloop)];
    [done|].
  apply Tick_ResetSyncState_keeps in Hreset as (Ho1 & _).
  apply Tick_InputLoop_keeps in Hloop as (_ & _ & _ & _ & _ & _ & Ho & _).
  by rewrite Ho, Ho1.
Qed.

Lemma Tick_HistoricData_bystanders R m : KeepsBystanders R m (Tick_HistoricData m).
Proof.
  unfold Tick_HistoricData, GetHistoricBuffers.
  destruct NETSIM_MODEL_DEBUG eqn:Hdbg; [|by repeat split].
  destruct (HistoricBuffers m) as [hb|] eqn:Hhb; cbn; rewrite ?Hhb; repeat split; try done.
  all: by eexists.
Qed.

(** X17.  A tick changes, outside the driver, the buffers and the tick
    state, at most the replication proxy of the role it is run for: the RPC
    pacing, the Replay and Debug proxies and the proxies of the other roles
    are as before.  It never creates or drops the historic buffers, and
    with [NETSIM_MODEL_DEBUG] off it leaves them alone. *)
Theorem Tick_touches_only_its_role_proxy GFrameNumber Parameters m m' :
  Tick GFrameNumber Parameters m = Ok m' ->
  RPCSend m' = RPCSend m /\
  RepProxy_Replay m' = RepProxy_Replay m /\
  RepProxy_Debug m' = RepProxy_Debug m /\
  (Role Parameters <> ROLE_Authority -> RepProxy_ServerRPC m' = RepProxy_ServerRPC m) /\
  (Role Parameters <> ROLE_AutonomousProxy ->
   RepProxy_Autonomous m' = RepProxy_Autonomous m) /\
  (Role Parameters <> ROLE_SimulatedProxy ->
   RepProxy_Simulated m' = RepProxy_Simulated m) /\
  (is_Some (HistoricBuffers m') <-> is_Some (HistoricBuffers m)) /\
  (NETSIM_MODEL_DEBUG = false -> HistoricBuffers m' = HistoricBuffers m).
Proof.
  unfold Tick.
  destruct (Tick_NewDebugState _ _ _) as [[m1 D]| | |] eqn:EN; try done.
  cbn [mbind Result_bind].
  destruct (Tick_PreSimTick Parameters m1) as [m2| | |] eqn:EP; try done.
  cbn [mbind Result_bind].
  destruct (Tick_ProcessInput D m2) as [m3| | |] eqn:EI; try done.
  cbn [mbind Result_bind].
  destruct (Tick_PostSimTick Parameters m3) as [m4| | |] eqn:EQ; try done.
  cbn [mbind Result_bind]. intros [= <-].
  apply Tick_NewDebugState_Outside in EN. rewrite Tick_PrevDebugState_Outside in EN.
  apply (KeepsBystanders_trans _ m m1); [by apply KeepsBystanders_Outside|].
  apply (KeepsBystanders_trans _ m1 m2); [by apply Tick_PreSimTick_bystanders|].
  apply (KeepsBystanders_trans _ m2 m3);
    [by apply KeepsBystanders_Outside, (Tick_ProcessInput_Outside D)|].
  apply (KeepsBystanders_trans _ m3 m4); [by apply Tick_PostSimTick_bystanders|].
  apply (KeepsBystanders_trans _ m4 (Tick_FinishDebugState D m4));
    [apply KeepsBystanders_Outside; by destruct D|].
  apply Tick_HistoricData_bystanders.
Qed.

(** *** From a new instance to the first sync state *)

(** [InitializeForNetworkRole] on a new instance: the Input buffer holds
    the empty command at keyframe 0, the Sync buffer has its storage and
    nothing in it, nothing has been processed. *)
Lemma InitializeForNetworkRole_new (InDriver : TDriver) R Parameters :
  (0 < InputBufferSize Parameters)%nat ->
  exists m0,
    InitializeForNetworkRole R Parameters (TNetworkedSimulationModel_ctor InDriver) = Ok m0 /\
    InputBuffer m0 =
      mkBuffer (<[0%nat := TInputCmd_ctor]> (repeat TInputCmd_ctor (InputBufferSize Parameters)))
               0 1 /\
    SyncBuffer m0 = mkBuffer (repeat TSyncState_ctor (SyncedBufferSize Parameters)) (-1) 0 /\
    Tick_Info m0 =
      InitSimulationTimeBuffer (SyncedBufferSize Parameters) TSimulationTickState_ctor /\
    Driver (Core m0) = InDriver /\
    Trace m0 = [].
Proof.
  destruct Parameters as [[|i] s a d h]; cbn [InputBufferSize]; [lia|]. intros _.
  unfold InitializeForNetworkRole, GetLocalDebugBuffer, GetHistoricBuffers.
  destruct NETSIM_MODEL_DEBUG; cbn; eexists; (split; [reflexivity|]); cbn; by repeat split.
Qed.

(** X18.  The first input processing of a new instance: after
    [InitializeForNetworkRole] the Input buffer holds [TInputCmd()] at
    keyframe 0; input processing then has the driver fill the sync state of
    keyframe 0 by [InitSyncState], logs no warning, calls no [Update] and
    processes nothing: the command at keyframe 0 is never processed. *)
Theorem first_input_processing_seeds_keyframe_0 (InDriver : TDriver) R Parameters D :
  (0 < InputBufferSize Parameters)%nat -> (0 < SyncedBufferSize Parameters)%nat ->
  exists m0 m1,
    InitializeForNetworkRole R Parameters (TNetworkedSimulationModel_ctor InDriver) = Ok m0 /\
    GetHeadKeyframe (InputBuffer m0) = 0 /\
    ElementAt 0 (InputBuffer m0) = Some TInputCmd_ctor /\
    Tick_ProcessInput D m0 = Ok m1 /\
    GetHeadKeyframe (SyncBuffer m1) = 0 /\
    ElementAt 0 (SyncBuffer m1) = Some (InitSyncState InDriver TSyncState_ctor) /\
    Trace m1 = [CallInitSyncState 0] /\
    LPIK m1 = 0 /\ Total m1 = 0.
Proof.
  intros Hi Hs.
  destruct (InitializeForNetworkRole_new InDriver R Parameters Hi)
    as (m0 & Hinit & HIn & HSy & HTi & HDr & HTr).
  assert (LPIK m0 = 0) as Hl0 by (by rewrite HTi).
  assert (GetHeadKeyframe (SyncBuffer m0) <> LPIK m0) as Hne by (by rewrite HSy, Hl0).
  assert (0 < GetMaxNumElements (SyncBuffer m0))%nat as Hcap.
  { rewrite HSy. unfold GetMaxNumElements. cbn [Data]. by rewrite repeat_length. }
  destruct (Tick_ResetSyncState_reseeds m0 Hne Hcap)
    as (S2 & P & E & m1 & HW & HE & Hreset & _ & HT1 & HTr1 & _ & _ & _ & Hh1 & HEl1 & _).
  assert (E = TSyncState_ctor) as ->.
  { rewrite HSy, Hl0 in HW. apply GetWriteNext_inv in HW as (_ & -> & ->).
    apply Deref_Ok in HE. revert HE. cbn [Data Head].
    destruct (SyncedBufferSize Parameters) as [|s]; [lia|].
    unfold SlotOfKeyframe, ResetNextHeadKeyframe. cbn [Data Head]. cbn.
    change (0 - 1 + 1) with 0. rewrite Zmod_0_l. change (Z.to_nat 0) with 0%nat.
    cbn. congruence. }
  exists m0, m1. split; [done|]. split; [by rewrite HIn|]. split.
  { rewrite HIn. destruct (InputBufferSize Parameters) as [|i]; [lia|]. reflexivity. }
  rewrite Hl0, HDr in *. split; [|split; [done|split; [done|]]].
  - unfold Tick_ProcessInput.
    assert ((GetHeadKeyframe (SyncBuffer m0) <? GetHeadKeyframe (InputBuffer m0)) = true) as ->
      by (by rewrite HSy, HIn).
    rewrite Hreset. cbn [mbind Result_bind].
    rewrite Tick_InputLoop_unfold, HT1, HTi. reflexivity.
  - rewrite HTr1, HTr, HT1, HTi. by repeat split.
Qed.

End TickInvariants.

(* ===================================================================== *)
(** ** The invariants of input processing on the example *)
(* ===================================================================== *)

Module ExampleInvariants.
Import Example ExampleRuns.

#[local] Existing Instance Sim.

Lemma Tick_never_passes_MaxAllowedInputKeyframe_witness :
  LastProcessedInputKeyframe (Tick_Info Processed3) <=
  Z.max (LastProcessedInputKeyframe (Tick_Info (Primed 3)))
        (MaxAllowedInputKeyframe (Tick_Info (Primed 3))).
Proof.
  refine (proj1 (Tick_never_passes_MaxAllowedInputKeyframe None (Primed 3) Processed3 _)).
  by_running.
Defined.

Lemma Tick_never_overdraws_budget_witness :
  RemainingAllowedSimulationTime (Tick_Info Processed3) =
  RemainingAllowedSimulationTime (Tick_Info (Primed 3)) -
  (TotalProcessedSimulationTime (Tick_Info Processed3) -
   TotalProcessedSimulationTime (Tick_Info (Primed 3))).
Proof.
  refine (proj1 (Tick_never_overdraws_budget None (Primed 3) Processed3 _)).
  by_running.
Defined.

Lemma Tick_input_processing_is_idempotent_witness :
  Tick_ProcessInput None Processed3 = Ok Processed3.
Proof.
  refine (proj2 (Tick_input_processing_is_idempotent None (Primed 3) Processed3 _) None).
  by_running.
Defined.

Lemma Tick_sync_states_chain_through_Update_witness :
  exists (d : ExampleDriver) (cmd : FNetworkSimTime * Z) (prev next : Z),
    ElementAt 2 (InputBuffer (Primed 3)) = Some cmd /\
    ElementAt (2 - 1) (SyncBuffer Processed3) = Some prev /\
    ElementAt 2 (SyncBuffer Processed3) =
      Some (snd (@Update (Sim false) d
                   (@ToRealTimeSeconds (Sim false) (@GetFrameDeltaTime (Sim false) cmd))
                   cmd prev next (@TAuxState_ctor (Sim false)))) /\
    (2 = LastProcessedInputKeyframe (Tick_Info Processed3) ->
     Driver (Core Processed3) =
       fst (@Update (Sim false) d
              (@ToRealTimeSeconds (Sim false) (@GetFrameDeltaTime (Sim false) cmd))
              cmd prev next (@TAuxState_ctor (Sim false)))).
Proof.
  refine (proj1 (Tick_sync_states_chain_through_Update None (Primed 3) Processed3 _) 2 _ _).
  - by_running.
  - split; vm_compute; [reflexivity|discriminate].
  - vm_compute. by eexists.
Defined.

Lemma Tick_debug_record_lists_processed_keyframes_witness :
  exists ks,
    UpdateKeyframes (Trace Processed3) = UpdateKeyframes (Trace (Primed 3)) ++ ks /\
    DebugBuffer Processed3 = DebugBuffer (Primed 3).
Proof.
  refine (Tick_debug_record_lists_processed_keyframes None (Primed 3) Processed3 _).
  by_running.
Defined.

Lemma Tick_ProcessInput_fails_on_sync_buffer_only_witness :
  match Tick_ProcessInput None Starved with
  | Ok _ => True
  | AssertFailed s =>
      s = "TReplicationBuffer::GetWriteNext: capacity is zero"%string \/
      s = "PrevSyncState != nullptr"%string
  | Undefined | OutOfFuel => False
  end.
Proof.
  apply (Tick_ProcessInput_fails_on_sync_buffer_only None Starved).
  vm_compute. lia.
Defined.

Lemma Tick_touches_only_its_role_proxy_witness :
  RPCSend (force TwinA (Tick 1 AutonomousFrame TwinA)) = RPCSend TwinA.
Proof.
  refine (proj1 (Tick_touches_only_its_role_proxy 1 AutonomousFrame TwinA
                   (force TwinA (Tick 1 AutonomousFrame TwinA)) _)).
  by_running.
Defined.

Lemma first_input_processing_seeds_keyframe_0_witness :
  exists m0 m1 : Model false,
    @InitializeForNetworkRole (Sim false) ROLE_AutonomousProxy (mkInitParameters 4 4 4 4 8)
      (@TNetworkedSimulationModel_ctor (Sim false) (mkDriver 7 Script)) = Ok m0 /\
    GetHeadKeyframe (InputBuffer m0) = 0 /\
    ElementAt 0 (InputBuffer m0) = Some (@TInputCmd_ctor (Sim false)) /\
    Tick_ProcessInput None m0 = Ok m1 /\
    GetHeadKeyframe (SyncBuffer m1) = 0 /\
    ElementAt 0 (SyncBuffer m1) =
      Some (@InitSyncState (Sim false) (mkDriver 7 Script) (@TSyncState_ctor (Sim false))) /\
    Trace m1 = [@CallInitSyncState (Sim false) 0] /\
    LastProcessedInputKeyframe (Tick_Info m1) = 0 /\
    TotalProcessedSimulationTime (Tick_Info m1) = 0.
Proof.
  apply (@first_input_processing_seeds_keyframe_0 (Sim false)
           (mkDriver 7 Script) ROLE_AutonomousProxy (mkInitParameters 4 4 4 4 8) None).
  - cbn. lia.
  - cbn. lia.
Defined.

End ExampleInvariants.
